(* ===== verification/_CoqProject ===== *)
-Q . S2P
Prelude.v
Path.v
RouteMap.v
RouteCheck.v
Matcher.v
VueRouter.v
History.v
HashHistory.v
HashSync.v
HashSettle.v
HashBack.v
RouterApp.v
AbstractHistory.v
RouterLink.v
RouterIndex.v
IndexApp.v
IndexLink.v
IndexAbstract.v
IndexCheck.v
IndexLife.v
