(* ===== verification/Prelude.v ===== *)
(** * A verification development of the vue-frontend route table

    Repository: the client of a take-home assignment.  Its only source file
    under [src/] is [src/vue-frontend/src/router/index.js] (27 lines):
    - lines 1-5 import Vue, the vue-router plugin [Router] and the three
      view components [Home], [Counter] and [Show];
    - line 7 installs the plugin: [Vue.use(Router)];
    - lines 9-27 export [new Router({ routes: [...] })], a table of three
      route descriptors mapping ["/"] to [Home], ["/Counter"] to [Counter]
      and ["/Show"] to [Show].

    ** How the parts interact

    The file has no algorithm of its own: its meaning is what the hosting
    framework does with the table.  [Vue.use] runs the plugin's [install]
    once; [new Router] builds a route map from the table
    ([createRouteMap]); navigation calls the router's [match], which
    normalises the location ([normalizeLocation], [parsePath],
    [resolvePath]) and walks the path list, testing each record's
    compiled regex, and [<router-view>] renders the component of the
    matched record.  The router has no [mode] option, so in a browser it
    keeps the route in the URL fragment (hash mode): the address bar,
    the back and forward buttons and the user's edits drive navigations
    through a [popstate] or [hashchange] listener, and each navigation
    writes the new route's full path back to the fragment.  Outside a
    browser (server-side rendering, a test runner without a DOM) the
    same table runs in abstract mode: the history is a stack of routes in
    memory, and [router.init] makes no first navigation.  Every root
    instance created with the [router] option calls [router.init(app)]
    from its [beforeCreate] hook: the first one becomes the main app and
    runs the first navigation; when the last one is destroyed the
    history is torn down.  The framework is not code of this repository: it is
    modelled from the specification's contract ("navigating to a path
    resolves to the view declared for it", "faults are reported by the
    framework") refined to the algorithm of vue-router 3, the library
    line 2 imports; those definitions are [spec_modelled] in the manifest.

    ** Files, in dependency order
    - [Prelude.v] (this file): the JavaScript string operations the model
      uses ([indexOf], [slice], [replace(/\/$/, '')]), [Array.prototype.slice]
      with negative ends ([js_slice]), ECMAScript's
      [Canonicalize] for case-insensitive regexps ([canonicalize]), the
      case-insensitive equivalence [ci_eq] (notation [≈]) with its
      [Equivalence] and [RelDecision] instances, the [router] hint
      databases and the tactics [bool_to_prop] and [simpl_str].
    - [Path.v]: vue-router's [util/path.js] ([parsePath], [resolvePath],
      [split]/[join] on ['/']), [normalizePath] and [compileRouteRegex] /
      [regex_test] (what path-to-regexp compiles a static path to).
    - [RouteMap.v]: [create-route-map.js]: route descriptors
      ([RouteConfig]), records ([make_record]), the state [RouteMap] (path
      list, path and name maps as stdpp [gmap]s, warnings),
      [addRouteRecord], the wildcard loop ([wildcard_loop]) and
      [createRouteMap].
    - [RouteCheck.v]: the development build's assertions at the top of
      [addRouteRecord] on untyped descriptors ([RawRouteConfig],
      [check_route]) and [createRouteMap] with them
      ([createRouteMap_checked]), which throws at the first descriptor
      without a path or with a string component.
    - [Matcher.v]: [create-matcher.js] and [util/route.js]:
      locations by string or by name ([RawLocation]),
      [normalizeLocation], [createRoute], [match_path_list],
      [matcher_match], the rendered [view], the warning [match] prints for
      a name no route declares ([match_warnings]); the resolver contract as the
      type class [RouteResolver] with laws [RouteResolverLaws], and
      vue-router's instance [vue_router_resolver] with its proof.
    - [VueRouter.v]: [Vue.use] over the global [VueGlobal] state, the
      plugin's [install], [new VueRouter] ([VueRouter_new]),
      [router.match] and [router.init] with its [NotInstalled] error.
    - [History.v]: [history/base.js]: the current route (initially
      [START]), [isSameRoute], [transitionTo] over [confirmTransition] with the
      [NavigationDuplicated] error (same route, same number of matched
      records, same last record), and the inductive relation
      [reachable] of the histories reachable from [START].
    - [HashHistory.v]: [history/hash.js] and the browser it drives: the
      session history ([Browser]: entries, current index, queued routing
      events, listener), [location.hash], [location.replace],
      [pushState], [replaceState], [history.go]; [pushHash],
      [replaceHash], [ensureSlash], [ensureURL], [hash_transitionTo],
      [hash_push], [hash_replace], [handleRoutingEvent],
      [HashHistory_new], [hash_init]; the executions [hash_step] /
      [hash_run] over [UserAction]s and the states [hash_reachable];
      bounds on the session history and the refinement of [History.v].
    - [HashSync.v]: well-formed routes ([route_wf]), the full-path round
      trip, and the invariant [hash_inv]: once no event is queued the
      fragment is the current route's full path.
    - [HashSettle.v]: termination of event dispatch ([settle]) by a
      decreasing measure.
    - [HashBack.v]: the back and forward buttons after a push: the
      session history entry by entry, the duplicate test [duplicate_of]
      of [History.v] across the push and the moves
      ([hash_push_back_forward], [hash_back_after_push],
      [hash_forward_after_back]); [router.replace] in place
      ([hash_replace_in_place]).
    - [RouterApp.v]: the root apps of a hash-mode router: the state
      [AppState] (the global [Vue], the router with [this.apps], the main
      app [this.app], the next instance and the page), [router.init]
      ([app_mount]), the [hook:destroyed] handler it registers
      ([app_destroy], with [remove_first] for [apps.splice(indexOf)]),
      [history.teardown()] ([hash_teardown]), the executions [app_step]
      / [app_run] over [AppAction]s, and the invariant [app_inv].
    - [AbstractHistory.v]: [history/abstract.js]: the stack and the
      signed index ([AbstractHistory]), [push], [replace], [go],
      [getCurrentLocation], [init]'s [instanceof] test
      ([initial_navigation]), the executions [abstract_run] and the
      states [abstract_reachable], and the invariant [abstract_inv].
    - [RouterLink.v]: [components/link.js], the [RouterLink] component
      [Vue.use(Router)] registers: [router.resolve] ([router_resolve]),
      [normalizeBase], [cleanPath], [createHref], [isIncludedRoute]
      with [queryIncludes], the class object ([link_classes], a stdpp
      [gmap]), [link_render], [guardEvent] and [link_click].
    - [RouterIndex.v]: the program: [Component], [Router] (line 2),
      [route_Home], [route_Counter], [route_Show], [routes],
      [router_options], [use_router] (line 7), [index_js] (the module
      body from a global state, in a browser or not) and
      [exported_router] (in a browser); the routes its
      paths and names lead to ([leads_to]); and its properties C1-C11.
    - [IndexApp.v]: the exported router on a page in hash mode
      ([index_page], [index_run]) and its properties C12-C17, C20, C22
      and C27.
    - [IndexLink.v]: the links a page of the exported router renders
      ([page_link]) and their properties C18, C19 and C21.
    - [IndexAbstract.v]: the exported router outside a browser
      ([node_router], [node_app], [node_run]) and its properties C23-C26
      and C28.
    - [IndexCheck.v]: lines 10-26 as untyped descriptors ([raw_routes])
      under the assertions of [addRouteRecord], and the properties C29
      and C30.
    - [IndexLife.v]: root instances of the exported router created and
      destroyed on a page ([app_start], [life_run]) and the properties
      C31-C36.

    ** What is proved
    - Framework library: the checked construction succeeds exactly when
      every descriptor passes the assertions and otherwise throws the
      first failing descriptor's error after the warnings of those
      before it ([createRouteMap_checked_spec]); [parsePath] inverts printing and splits every
      string ([parsePath_print], [parsePath_split]); the map invariant
      [map_wf] holds initially and is preserved by [addRouteRecord]
      ([addRouteRecord_wf], [createRouteMap_wf]); the wildcard loop equals
      a stable partition and stops within its fuel
      ([wildcard_loop_partition]); the path and name maps hold the first
      route declared for each path and name; the development build prints
      no warning exactly when the names are distinct, the paths ASCII and
      the normalised paths absolute ([createRouteMap_no_warning]);
      [match] refines the reference "first declared route, wildcard last,
      whose path accepts", a route whose normalised path repeats an
      earlier one being dropped ([first_per_path],
      [matcher_match_refines], [vue_router_laws]);
      case-insensitive tables respect [ci_eq] ([spec_resolve_ci]);
      [Vue.use] is idempotent and installs the router once; [init] fails
      exactly when the plugin is not installed; navigating twice to the
      same absolute location aborts the second time
      ([transitionTo_twice]); every reachable history holds the start or
      a matched route ([reachable_current], by rule induction).
    - Hash mode library: every reachable page has a current entry
      ([hash_reachable_wf]) and its histories are reachable in
      [History.v] ([hash_reachable_refines]); [resolvePath] adds no
      character but [/] and yields an absolute or empty path
      ([resolvePath_lacks], [resolvePath_absolute]); matched routes are
      well formed and recovered from their full path
      ([router_match_wf], [router_match_fixed]); the sync invariant
      holds on every reachable page without [pushState]
      ([hash_reachable_in_sync]) and with it when typed fragments start
      with a slash ([slashed_run_in_sync]), for routers whose named
      records have absolute paths ([named_paths_ok]); a push either
      makes the matched route current with its full path in the address
      bar or is a duplicate ([hash_push_outcome]); pushing the URL shown
      is a duplicate that changes nothing, also after a navigation by
      name when every named record matches itself by path
      ([named_self_match], [hash_push_duplicate]); after a push that
      changes the URL, the back button restores the URL and a route with
      the same path, query, hash and records ([hash_back_after_push]),
      and forward then the pushed URL and route ([hash_forward_after_back]);
      a replace that changes the URL rewrites the current entry only
      ([hash_replace_in_place]);
      the event
      queue empties ([settle_quiescent]).
    - Abstract mode library: on every reachable state the index lies in
      [-1 .. stack.length - 1], the entry at a non-negative index is a
      duplicate of the current route, and every route was matched by the
      router ([abstract_reachable_inv], by rule induction); back after a
      push from a non-negative index confirms the entry below again
      ([abstract_push_back], using that duplicates are transitive,
      [duplicate_of_trans]); a push leaves its route on top of the
      stack ([abstract_push_top]); the first push and a first replace
      ([abstract_push_new], [abstract_replace_new]).
    - Root apps: [app_inv] (the main app is [this.apps[0]], the apps
      are distinct and already created, the listener is registered
      exactly when there is a main app) is preserved by [init], the
      [hook:destroyed] handler and every user action ([app_step_inv],
      [app_run_inv]); the router's history stays reachable in
      [History.v] across teardowns ([app_run_reachable]); with no app,
      the browser's own actions change nothing ([app_run_detached]).
    - The program (RouterIndex.v, IndexApp.v, IndexLink.v,
      IndexAbstract.v, IndexCheck.v and IndexLife.v, claims C1-C36): the complete description
      of the view every non-empty path renders, against any lawful
      resolver (C1) and for the exported router on any location string
      from any current route (C2); the table's shape and uniqueness (C3);
      no route shadowed (C4); the exported route map (C5); name/path round
      trips (C6); insensitivity to letter case (C7); the module installs
      the plugin before the router is initialised (C8); each imported
      component is routed exactly once (C9); along every reachable
      navigation history, a displayed view is the one the table assigns
      to the current path (C10); from every reachable history each view
      can be displayed by one more navigation (C11).  In hash mode: a
      displayed view is the table's view for the path in the address
      bar once no event is queued (C12); queued events are dispatched within [pending + 2]
      rounds (C13); pushing the URL shown is rejected as a duplicate
      and changes nothing (C14); the current
      route is well formed (C15); [router.push({ name })] with a declared name
      displays that route at its declared path or is a duplicate of
      it (C16); the back button after a push that changed the URL
      restores the URL and the view shown before (C17); a link to ["/"]
      is active on every page and exact-active only at the full path
      ["/"] (C18); the link to each declared path has the [href] ["#"]
      followed by the path, and clicking it displays the declared view
      and leaves the link exact-active (C19); forward after that back
      restores the URL and view of the push (C20); the link to each
      declared name behaves as the link to its path (C21);
      [router.replace] rewrites the current entry of the session
      history in place (C22); [router.push({ name })] with an undeclared
      name prints the development warning and displays nothing, under
      the URL ["/"] (C27).  Outside a browser: the router runs in
      abstract mode, displays nothing until the first push, and the
      first push of a declared path displays its view (C23); the index
      stays within the stack, the entry at the index displays the view
      shown, and that view is the table's (C24); back after a push shows
      the view shown before it (C25); a replace before the first push is
      lost to the back button (C26); a link rendered there has the
      declared path as its [href], where a browser page renders ["#"]
      and the path (C28).  The specification's error section: an
      undefined component is registered silently and renders nothing
      at its path (C29); the table passes the assertions, and a
      descriptor without a path or with a string component makes
      [new Router] throw (C30).
      Root instances on a page: along every run [app_inv] holds (C31);
      an instance created with no main app, the first one or one after
      all were destroyed, becomes the only app, registers the listener
      and displays the table's view for the fragment in the address bar
      (C32); one created while a main app exists is only recorded (C33);
      destroying the main app hands the page to [this.apps[0]] without
      navigating (C34); destroying the last one removes the listener and
      resets the route to [START], after which the browser's actions
      display nothing (C35); a displayed view is always the table's
      view for the current route's path (C36).  Examples record edge behaviours: the
      case-sensitive duplicate check ([index_case_renavigation]),
      [".."] at the root rendering nothing ([index_dotdot_blank],
      [index_dotdot_url], [index_dotdot_forward]), and a fragment typed without its slash
      leaving the view stale when [pushState] is used
      ([index_pushstate_edit_stale]), and the [exact] prop and equal
      class names of a link ([index_link_exact_prop]), the blank page of
      an unknown name under the URL of [Home] ([index_unknown_name_blank]),
      and, in abstract mode, [getCurrentLocation] reporting the top of
      the stack after a back and [go] past either end doing nothing
      ([index_node_current_location]), and a root instance created after
      the last was destroyed navigating to the fragment edited meanwhile
      ([index_remount_counter]).

    ** Fuel and bounds
    The wildcard loop of [createRouteMap] ([for (i = 0, l = len; i < l;
    i++) if (list[i] === '*') { move it last; l--; i-- }]) is not
    structural: each iteration increases [i] or decreases [l], so
    [length + 1] guard tests suffice, and [wildcard_loop_partition] proves
    the loop returns with that fuel.  The browser's dispatch of queued
    routing events ([settle]) is bounded by fuel [pending + 2]: each
    dispatch lowers the measure [dispatch_measure] (queued events plus
    at most 2), as [settle_quiescent] proves.  No other loop needs fuel.
    The abstract-mode index is a [Z], as JavaScript's number: it starts
    at [-1], and [abstract_inv] bounds it by [-1] and the stack length,
    so [Z.to_nat] is applied only to indices checked non-negative.  Strings
    are Rocq [string]s of 8-bit characters, which are exactly the UTF-16
    code units 0-255; [canonicalize] is exact on that range.

    ** Not modelled
    Dynamic path segments ([:id], custom regexps, [*] inside a path: such
    a path compiles to [RDynamic], which matches nothing here; the table
    has none); params and [fillParams] beyond static paths; the parsing of
    the query into an object; nested routes, aliases, redirects, props and
    meta; navigation guards (this table registers none; the guard queue
    of [confirmTransition] is taken to pass), pending and aborted
    navigations; in hash mode, scroll behaviour, the percent-encoding
    the browser applies to fragments, [history.go(0)] (a reload), the
    history-mode fallback, and the query as an object (the full path
    carries the query text as parsed, where vue-router re-serialises it
    with [stringifyQuery]); [main.js], which is not in the repository
    (its [new Vue({ router })] is taken as [index_page], and as the
    [Mount] action of [IndexLife.v]); Vue's component lifecycle beyond
    the [beforeCreate] call of [init] and the [hook:destroyed] event; the view
    components (not in [src/]) and rendering beyond the component
    [<router-view>] receives; of [<router-link>], the props [tag],
    [custom], [event], [append] and [exactPath], scoped slots, and the
    percent-decoding of query keys; the production build, which strips
    [addRouteRecord]'s assertions (a missing path then fails later, in
    [normalizePath], and a string component is rendered as an element
    of that name); in abstract mode, the [afterEach]
    hooks (none registered) and the [history.listen] callback, whose
    effect, the app's [_route] following [this.current], is the
    displayed view [node_displayed], and in hash mode the same callback
    copying the route into every app ([app_displayed] reads the
    router's current route).

    ** Further work
    - navigation: the query as an object ([parseQuery],
      [stringifyQuery]) in [isSameRoute] and [fullPath], and locations
      given as objects with [path], [query] and [hash] fields;
    - the history mode ([html5.js]), which this table never selects
      (no [mode] option) but a [mode: 'history'] edit would. *)

From Stdlib Require Export Ascii String NArith.
From stdpp Require Export base list strings option.

Declare Scope router_scope.
Delimit Scope router_scope with router.
Open Scope string_scope.

Create HintDb router discriminated.
Create Rewrite HintDb router_rw.

(** ** String operations of the JavaScript runtime *)

(** [s.indexOf(c)]: [None] stands for [-1]. *)
Fixpoint index_of (c : ascii) (s : string) : option nat :=
  match s with
  | EmptyString => None
  | String a s' => if Ascii.eqb a c then Some 0 else S <$> index_of c s'
  end.

(** [s.slice(0, n)] and [s.slice(n)]. *)
Fixpoint slice_to (n : nat) (s : string) : string :=
  match n, s with
  | O, _ | _, EmptyString => EmptyString
  | S n', String a s' => String a (slice_to n' s')
  end.

Fixpoint slice_from (n : nat) (s : string) : string :=
  match n, s with
  | O, _ => s
  | _, EmptyString => EmptyString
  | S n', String _ s' => slice_from n' s'
  end.

(** Membership of a character, as a boolean. *)
Fixpoint char_in (c : ascii) (s : string) : bool :=
  match s with
  | EmptyString => false
  | String a s' => Ascii.eqb a c || char_in c s'
  end.

(** [s.replace(/\/$/, '')]: drop one slash at the very end. *)
Fixpoint strip_trailing_slash (s : string) : string :=
  match s with
  | EmptyString => EmptyString
  | String c EmptyString => if Ascii.eqb c "/" then EmptyString else s
  | String c s' => String c (strip_trailing_slash s')
  end.

(** [s[0] === '/'] (false on the empty string, where [s[0]] is undefined). *)
Definition starts_with_slash (s : string) : bool :=
  match s with
  | String c _ => Ascii.eqb c "/"
  | EmptyString => false
  end.

(** ** Array operations of the JavaScript runtime *)

(** The relative index of [Array.prototype.slice]: a negative [k]
    counts from the end, and the result is clamped to [0 .. len]. *)
Definition js_relative_index (len k : Z) : Z :=
  if (k <? 0)%Z then Z.max (len + k) 0 else Z.min k len.

(** [a.slice(start, end)]. *)
Definition js_slice {A} (l : list A) (start end_ : Z) : list A :=
  let len := Z.of_nat (length l) in
  let from := js_relative_index len start in
  let to := js_relative_index len end_ in
  take (Z.to_nat (to - from)) (drop (Z.to_nat from) l).

(** ** Case folding of a case-insensitive ECMAScript regexp

    Without the [u] flag, [Canonicalize(ch)] is [ch.toUpperCase()] when
    that is a single code unit and does not map a non-ASCII unit to an
    ASCII one, and [ch] otherwise.  On the units 0-255: [a-z] and
    [U+00E0-U+00FE] except [U+00F7] lose 32, [U+00B5] maps to [U+039C],
    [U+00FF] to [U+0178], everything else to itself. *)
Definition canonicalize (a : ascii) : N :=
  let n := N_of_ascii a in
  if (97 <=? n)%N && (n <=? 122)%N then (n - 32)%N
  else if (224 <=? n)%N && (n <=? 254)%N && negb (n =? 247)%N then (n - 32)%N
  else if (n =? 181)%N then 924%N
  else if (n =? 255)%N then 376%N
  else n.

(** Two strings of the same length whose units canonicalize equally. *)
Fixpoint ci_eqb (s t : string) : bool :=
  match s, t with
  | EmptyString, EmptyString => true
  | String a s', String b t' => (canonicalize a =? canonicalize b)%N && ci_eqb s' t'
  | _, _ => false
  end.

Definition ci_eq (s t : string) : Prop := ci_eqb s t = true.
Infix "≈" := ci_eq (at level 70) : router_scope.
Open Scope router_scope.

(** ** Shared tactics *)

(** Turn boolean tests of the model into propositions. *)
Ltac bool_to_prop :=
  repeat match goal with
  | H : (_ && _) = true |- _ => apply andb_prop in H as [? ?]
  | H : (_ || _) = false |- _ => apply orb_false_elim in H as [? ?]
  | H : Ascii.eqb _ _ = true |- _ => apply Ascii.eqb_eq in H
  | H : String.eqb _ _ = true |- _ => apply String.eqb_eq in H
  | H : N.eqb _ _ = true |- _ => apply N.eqb_eq in H
  | H : negb _ = true |- _ => apply negb_true_iff in H
  end.

(** Case on the character tests of a string function. *)
Ltac destruct_char_tests :=
  repeat match goal with
  | |- context [Ascii.eqb ?a ?b] => destruct (Ascii.eqb_spec a b); subst
  | H : context [Ascii.eqb ?a ?b] |- _ => destruct (Ascii.eqb_spec a b); subst
  end.

(** ** Lemmas on the string operations *)

(** stdpp makes [String.append] opaque to [simpl]; these are its equations. *)
Lemma append_nil_l t : "" +:+ t = t.
Proof. reflexivity. Qed.

Lemma append_cons a s t : String a s +:+ t = String a (s +:+ t).
Proof. reflexivity. Qed.

Lemma append_nil_r s : s +:+ "" = s.
Proof. induction s as [|a s IH]; [done|]. by rewrite append_cons, IH. Qed.

Lemma append_assoc s t u : s +:+ (t +:+ u) = (s +:+ t) +:+ u.
Proof. induction s as [|a s IH]; [done|]. by rewrite !append_cons, IH. Qed.

#[export] Hint Rewrite append_nil_l append_cons append_nil_r : router_rw.

(** Simplify, folding the string equations of the development. *)
Ltac simpl_str := simpl; autorewrite with router_rw in *; simpl.

Lemma slice_to_from n s : slice_to n s +:+ slice_from n s = s.
Proof. revert s; induction n as [|n IH]; intros [|a s]; simpl_str; rewrite ?IH; done. Qed.

Lemma index_of_spec c s n :
  index_of c s = Some n ->
  char_in c (slice_to n s) = false /\ slice_from n s = String c (slice_from (S n) s).
Proof.
  revert n; induction s as [|a s IH]; intros n H; simpl in H; [discriminate|].
  destruct (Ascii.eqb_spec a c) as [->|Hne].
  - injection H as <-. auto.
  - destruct (index_of c s) as [m|] eqn:E; simpl in H; [|discriminate].
    injection H as <-. destruct (IH m eq_refl) as [H1 H2]. simpl.
    rewrite H1, orb_false_r. split; [|exact H2].
    by apply Ascii.eqb_neq.
Qed.

Lemma index_of_None c s : index_of c s = None -> char_in c s = false.
Proof.
  induction s as [|a s IH]; simpl; [done|].
  destruct (Ascii.eqb a c); [discriminate|].
  destruct (index_of c s); [discriminate|]. simpl. auto.
Qed.

Lemma char_in_app c s t : char_in c (s +:+ t) = char_in c s || char_in c t.
Proof. induction s as [|a s IH]; simpl_str; [done|]. by rewrite IH, orb_assoc. Qed.

Lemma strip_trailing_slash_empty s : strip_trailing_slash s = "" -> s = "" \/ s = "/".
Proof.
  destruct s as [|c [|d s]]; simpl; [by left| |discriminate].
  destruct (Ascii.eqb_spec c "/") as [->|]; [by right|discriminate].
Qed.

Lemma ci_eqb_refl s : ci_eqb s s = true.
Proof. induction s; simpl; [done|]. by rewrite N.eqb_refl. Qed.

Lemma ci_eqb_sym s t : ci_eqb s t = ci_eqb t s.
Proof.
  revert t; induction s as [|a s IH]; intros [|b t]; simpl; auto.
  by rewrite N.eqb_sym, IH.
Qed.

Lemma ci_eqb_trans s t u : ci_eqb s t = true -> ci_eqb t u = true -> ci_eqb s u = true.
Proof.
  revert t u; induction s as [|a s IH]; intros [|b t] [|c u]; simpl; auto; try discriminate.
  intros H1 H2. apply andb_prop in H1 as [Ha Hs], H2 as [Hb Ht].
  apply N.eqb_eq in Ha, Hb. rewrite Ha, Hb, N.eqb_refl. eauto.
Qed.

Lemma ci_eqb_length s t : ci_eqb s t = true -> String.length s = String.length t.
Proof.
  revert t; induction s as [|a s IH]; intros [|b t]; simpl; try discriminate; auto.
  intros H; bool_to_prop. f_equal. auto.
Qed.

(** [a.slice(0, k)] is the prefix of length [k] for [k >= 0], and all
    but the last element for [k = -1]. *)
Lemma js_slice_prefix {A} (l : list A) k :
  (0 <= k)%Z -> js_slice l 0 k = take (Z.to_nat k) l.
Proof.
  intros Hk. unfold js_slice, js_relative_index. change ((0 <? 0)%Z) with false. cbv iota.
  destruct (Z.ltb_spec k 0); [lia|]. rewrite (Z.min_l 0) by lia. cbn [Z.to_nat]. rewrite drop_0.
  destruct (Z.le_ge_cases k (Z.of_nat (length l))).
  - rewrite Z.min_l by lia. f_equal. lia.
  - rewrite Z.min_r, !take_ge by lia. done.
Qed.

Lemma js_slice_init {A} (l : list A) :
  js_slice l 0 (-1) = take (length l - 1) l.
Proof.
  unfold js_slice, js_relative_index. change ((0 <? 0)%Z) with false. change ((-1 <? 0)%Z) with true.
  cbv iota. rewrite (Z.min_l 0) by lia. cbn [Z.to_nat]. rewrite drop_0. f_equal. lia.
Qed.

#[export] Instance ci_eq_equivalence : Equivalence ci_eq.
Proof.
  split.
  - intros s. apply ci_eqb_refl.
  - intros s t H. unfold ci_eq. by rewrite ci_eqb_sym.
  - intros s t u. apply ci_eqb_trans.
Qed.

#[export] Instance ci_eq_dec : RelDecision ci_eq.
Proof. intros s t. unfold ci_eq. apply _. Defined.

#[export] Hint Resolve ci_eqb_refl slice_to_from : router.
#[export] Hint Rewrite char_in_app : router_rw.

