(* ===== verification/Path.v ===== *)
(** * Paths: [parsePath], [resolvePath], [normalizePath] and the route regex

    vue-router's [util/path.js] splits a location string into path, query
    and hash ([parsePath]) and resolves a relative path against a base
    ([resolvePath], with [split('/')] and [join('/')]);
    [create-route-map.js] normalises a route's declared path
    ([normalizePath]); [compileRouteRegex] hands
    the normalised path to path-to-regexp.  For a static path (no [:],
    [(], [*] or backslash) path-to-regexp escapes the text, drops one
    trailing delimiter and, unless [strict], appends an optional final
    slash; the flag [i] is set unless [sensitive].  The path ["*"] compiles
    to a regexp matching every string.  Other dynamic paths are kept as
    [RDynamic] and match nothing in this model (not modelled).

    Theorems: [parsePath_print] ([parsePath] inverts [print_path] on the
    triples it produces) and [parsePath_split] (every string is its
    parts put back together); [regex_test_ci] (a case-insensitive regexp
    gives the same answer on strings equal up to case folding). *)

From S2P Require Import Prelude.

(** ** [parsePath] *)

Record ParsedPath := mkParsedPath {
  pp_path : string;
  pp_query : string;
  pp_hash : string
}.

(** [parsePath(path)]: the hash is cut first (it keeps its [#]), then the
    query (without its [?]). *)
Definition parsePath (path : string) : ParsedPath :=
  let '(hash, path) :=
    match index_of "#"%char path with
    | Some i => (slice_from i path, slice_to i path)
    | None => ("", path)
    end in
  let '(query, path) :=
    match index_of "?"%char path with
    | Some i => (slice_from (S i) path, slice_to i path)
    | None => ("", path)
    end in
  mkParsedPath path query hash.

(** The inverse direction: a path, its query (when non-empty) and hash. *)
Definition print_path (r : ParsedPath) : string :=
  pp_path r +:+ (if String.eqb (pp_query r) "" then "" else "?" +:+ pp_query r) +:+ pp_hash r.

(** The shape [parsePath] produces. *)
Definition parsed_wf (r : ParsedPath) : bool :=
  negb (char_in "?"%char (pp_path r)) && negb (char_in "#"%char (pp_path r))
  && negb (char_in "#"%char (pp_query r))
  && match pp_hash r with "" => true | String c _ => Ascii.eqb c "#"%char end.

(** ** [resolvePath] *)

(** [s.split('/')]: never empty, [""] for the empty string. *)
Fixpoint split_slash (s : string) : list string :=
  match s with
  | EmptyString => [""]
  | String c s' =>
      let parts := split_slash s' in
      if Ascii.eqb c "/" then "" :: parts
      else match parts with
           | p :: ps => String c p :: ps
           | [] => [String c ""]
           end
  end.

(** [list.join('/')]. *)
Fixpoint join_slash (l : list string) : string :=
  match l with
  | [] => ""
  | [x] => x
  | x :: xs => x +:+ "/" +:+ join_slash xs
  end.

(** [s.replace(/^\//, '')]. *)
Definition strip_leading_slash (s : string) : string :=
  match s with
  | String c s' => if Ascii.eqb c "/" then s' else s
  | EmptyString => EmptyString
  end.

(** One segment of the loop of [resolvePath]: [..] pops, [.] is skipped,
    anything else is pushed. *)
Definition push_segment (stack : list string) (segment : string) : list string :=
  if String.eqb segment ".." then removelast stack
  else if String.eqb segment "." then stack
  else (stack ++ [segment])%list.

(** [resolvePath(relative, base, append)]: an absolute path is kept, a
    bare query or hash is appended to the base, and a relative path is
    resolved against the base's directory segment by segment. *)
Definition resolvePath (relative base : string) (append : bool) : string :=
  let firstChar := match relative with String c _ => Some c | EmptyString => None end in
  if bool_decide (firstChar = Some "/"%char) then relative
  else if bool_decide (firstChar = Some "?"%char) || bool_decide (firstChar = Some "#"%char)
  then base +:+ relative
  else
    let stack := split_slash base in
    let stack := if negb append || String.eqb (last stack "") "" then removelast stack else stack in
    let segments := split_slash (strip_leading_slash relative) in
    let stack := fold_left push_segment segments stack in
    let stack := match stack with "" :: _ => stack | _ => "" :: stack end in
    join_slash stack.

(** ** [normalizePath] for a top-level route ([parent == null]) *)

Definition normalizePath (path : string) (strict : bool) : string :=
  if strict then path else strip_trailing_slash path.

(** ** [compileRouteRegex] *)

(** The options object [route.pathToRegexpOptions || {}]: [None] is an
    absent (undefined) property. *)
Record PathToRegexpOptions := mkOptions {
  sensitive : option bool;
  strict : option bool
}.

Definition default_options : PathToRegexpOptions := mkOptions None None.

(** JavaScript truthiness of an optional boolean. *)
Definition truthy (o : option bool) : bool :=
  match o with Some true => true | _ => false end.

Inductive Regex :=
| RLiteral (source : string) (case_sensitive strict_end : bool)
| RAny
| RDynamic (source : string).

Definition is_static_path (p : string) : bool :=
  negb (char_in ":"%char p || char_in "("%char p || char_in "*"%char p || char_in "\"%char p).

Definition compileRouteRegex (path : string) (opts : PathToRegexpOptions) : Regex :=
  if String.eqb path "*" then RAny
  else if is_static_path path then RLiteral path (truthy (sensitive opts)) (truthy (strict opts))
  else RDynamic path.

(** [regex.test(s)] of the compiled regexp, anchored at both ends. *)
Definition regex_test (re : Regex) (s : string) : bool :=
  match re with
  | RLiteral src sens strict_end =>
      let eqs := if sens then String.eqb else ci_eqb in
      if strict_end then eqs src s
      else let src' := strip_trailing_slash src in
           eqs src' s || eqs (src' +:+ "/") s
  | RAny => true
  | RDynamic _ => false
  end.

Definition regex_sensitive (re : Regex) : bool :=
  match re with RLiteral _ true _ => true | _ => false end.

(** Cutting at the first occurrence of [c]: the prefix has no [c]. *)
Lemma cut_at_first c s i :
  index_of c s = Some i ->
  char_in c (slice_to i s) = false /\ s = slice_to i s +:+ String c (slice_from (S i) s).
Proof.
  intros H. destruct (index_of_spec c s i H) as [H1 H2]. split; [done|].
  rewrite <- H2. symmetry. apply slice_to_from.
Qed.

Lemma index_of_app_absent c s t :
  char_in c s = false -> index_of c (s +:+ t) = (fun n => String.length s + n) <$> index_of c t.
Proof.
  induction s as [|a s IH]; intros H; simpl_str.
  - by destruct (index_of c t).
  - apply orb_false_elim in H as [Ha Hs]. rewrite Ha, IH by done.
    by destruct (index_of c t).
Qed.

Lemma slice_to_app n s t : n = String.length s -> slice_to n (s +:+ t) = s.
Proof. intros ->. induction s as [|a s IH]; simpl_str; [by destruct t|]. by rewrite IH. Qed.

Lemma slice_from_app n s t : n = String.length s -> slice_from n (s +:+ t) = t.
Proof. intros ->. induction s as [|a s IH]; simpl_str; [done|]. exact IH. Qed.

#[export] Hint Resolve cut_at_first : router.

Lemma index_of_absent c s : char_in c s = false -> index_of c s = None.
Proof.
  induction s as [|a s IH]; simpl; [done|].
  intros H. apply orb_false_elim in H as [-> Hs]. by rewrite IH.
Qed.

Lemma index_of_at_end c x t :
  char_in c x = false -> index_of c (x +:+ String c t) = Some (String.length x).
Proof.
  intros H. rewrite index_of_app_absent by done. simpl.
  rewrite Ascii.eqb_refl. simpl. f_equal. lia.
Qed.

Lemma char_in_app_false c s t :
  char_in c (s +:+ t) = false <-> char_in c s = false /\ char_in c t = false.
Proof. rewrite char_in_app. apply orb_false_iff. Qed.

(** The hash cut of [parsePath]: a prefix without [#], and a suffix that is
    empty or starts with [#]. *)
Lemma cut_hash_spec s :
  let '(h, p) := match index_of "#"%char s with
                 | Some i => (slice_from i s, slice_to i s) | None => ("", s) end in
  char_in "#" p = false /\ s = p +:+ h /\
  match h with "" => true | String c _ => Ascii.eqb c "#" end = true.
Proof.
  destruct (index_of "#" s) as [i|] eqn:E.
  - destruct (cut_at_first _ _ _ E) as [H1 H2].
    destruct (index_of_spec _ _ _ E) as [_ ->].
    by rewrite Ascii.eqb_refl, <- H2.
  - by rewrite index_of_None, append_nil_r.
Qed.

(** The query cut: a prefix without [?], and either no [?] at all or the
    prefix, a [?] and the query. *)
Lemma cut_query_spec p :
  let '(q, p') := match index_of "?"%char p with
                  | Some i => (slice_from (S i) p, slice_to i p) | None => ("", p) end in
  char_in "?" p' = false /\
  ((q = "" /\ p = p') \/ p = p' +:+ String "?" q).
Proof.
  destruct (index_of "?" p) as [i|] eqn:E.
  - destruct (cut_at_first _ _ _ E) as [H1 H2]. auto.
  - by rewrite index_of_None by done; auto.
Qed.

(** Cutting [x +:+ h] at its first [c], where [x] has no [c] and [h] is
    empty or starts with [c], yields [h] and [x]. *)
Lemma cut_app_spec c x h (k : nat -> nat) :
  char_in c x = false ->
  match h with "" => true | String d _ => Ascii.eqb d c end = true ->
  match index_of c (x +:+ h) with
  | Some i => (slice_from (k i) (x +:+ h), slice_to i (x +:+ h))
  | None => ("", x +:+ h) end =
  match h with "" => ("", x) | String _ t => (slice_from (k (String.length x)) (x +:+ h), x) end.
Proof.
  intros Hx Hh. destruct h as [|d t].
  - by rewrite append_nil_r, index_of_absent.
  - apply Ascii.eqb_eq in Hh as ->. rewrite index_of_at_end by done.
    by rewrite slice_to_app.
Qed.

Lemma slice_from_past c x t : slice_from (S (String.length x)) (x +:+ String c t) = t.
Proof. induction x as [|a x IH]; simpl_str; [done|]. exact IH. Qed.

(** Both cuts of [parsePath] on a concatenation [x +:+ h] whose parts are
    already in the shape they produce. *)
Lemma cut_hash_app x h :
  char_in "#" x = false ->
  match h with "" => true | String d _ => Ascii.eqb d "#" end = true ->
  match index_of "#"%char (x +:+ h) with
  | Some i => (slice_from i (x +:+ h), slice_to i (x +:+ h))
  | None => ("", x +:+ h) end = (h, x).
Proof.
  intros Hx Hh. rewrite (cut_app_spec _ _ _ (fun i => i)) by done.
  destruct h; [done|]. by rewrite slice_from_app.
Qed.

Lemma cut_query_app p q :
  char_in "?" p = false ->
  match index_of "?"%char (p +:+ (if String.eqb q "" then "" else "?" +:+ q)) with
  | Some i => (slice_from (S i) (p +:+ (if String.eqb q "" then "" else "?" +:+ q)),
               slice_to i (p +:+ (if String.eqb q "" then "" else "?" +:+ q)))
  | None => ("", p +:+ (if String.eqb q "" then "" else "?" +:+ q)) end = (q, p).
Proof.
  intros Hp. destruct (String.eqb_spec q "") as [->|Hq].
  - by rewrite (cut_app_spec _ _ "" S).
  - rewrite (cut_app_spec _ _ ("?" +:+ q) S) by (simpl; by rewrite ?Ascii.eqb_refl).
    change ("?" +:+ q) with (String "?" q). by rewrite slice_from_past.
Qed.

(** [parsePath] inverts [print_path] on every triple in the shape it
    produces. *)
Theorem parsePath_print (r : ParsedPath) :
  parsed_wf r = true -> parsePath (print_path r) = r.
Proof.
  destruct r as [p q h]. unfold parsed_wf, print_path; simpl.
  intros H. bool_to_prop.
  unfold parsePath. rewrite append_assoc.
  rewrite cut_hash_app.
  - by rewrite cut_query_app.
  - apply char_in_app_false. split; [done|].
    destruct (String.eqb q ""); [done|]. simpl_str. exact H1.
  - exact H0.
Qed.

(** every location string is the path, the query and the hash
    [parsePath] returns, put back together: with a [?] before a non-empty
    query, and with a lone [?] dropped when the query is empty. *)
Theorem parsePath_split (s : string) :
  parsed_wf (parsePath s) = true /\
  (s = print_path (parsePath s) \/
   (pp_query (parsePath s) = "" /\
    s = pp_path (parsePath s) +:+ "?" +:+ pp_hash (parsePath s))).
Proof.
  unfold parsePath. pose proof (cut_hash_spec s) as Hh.
  destruct (match index_of "#"%char s with
            | Some i => (slice_from i s, slice_to i s) | None => ("", s) end) as [h p0].
  destruct Hh as (Hp0 & -> & Hwf).
  pose proof (cut_query_spec p0) as Hq.
  destruct (match index_of "?"%char p0 with
            | Some i => (slice_from (S i) p0, slice_to i p0) | None => ("", p0) end) as [q p].
  destruct Hq as (Hp & [[-> <-] | ->]).
  - unfold parsed_wf, print_path; simpl. rewrite Hp, Hp0, Hwf. simpl.
    split; [done|]. left. by rewrite append_nil_l.
  - apply char_in_app_false in Hp0 as [Hp1 Hq1]. simpl in Hq1.
    unfold parsed_wf, print_path; simpl. rewrite Hp, Hp1, Hq1, Hwf. split; [done|].
    destruct (String.eqb_spec q "") as [->|Hne].
    + right. split; [done|]. by rewrite <- append_assoc.
    + left. by rewrite <- append_assoc.
Qed.

(** ** Case-insensitive regexps respect case-insensitive equality *)

Lemma ci_eqb_compat u s t : ci_eq s t -> ci_eqb u s = ci_eqb u t.
Proof.
  intros Hst. destruct (ci_eqb u t) eqn:Ht.
  - apply (ci_eqb_trans _ t); [done|]. unfold ci_eq in Hst. by rewrite ci_eqb_sym.
  - destruct (ci_eqb u s) eqn:Hs; [|done].
    by rewrite (ci_eqb_trans u s t Hs Hst) in Ht.
Qed.

#[export] Instance regex_test_ci (re : Regex) :
  regex_sensitive re = false -> Proper (ci_eq ==> eq) (regex_test re).
Proof.
  intros Hre s t Hst. destruct re as [src [|] [|]| |]; simpl in *; try done.
  - by apply ci_eqb_compat.
  - by rewrite !(ci_eqb_compat _ s t).
Qed.

(** ** What [resolvePath] produces *)

Section Resolve.
Variable c : ascii.
Hypothesis Hc : c <> "/"%char.

Definition lacks (s : string) : Prop := char_in c s = false.

Lemma split_slash_lacks s : lacks s -> Forall lacks (split_slash s).
Proof.
  unfold lacks. induction s as [|a s IH]; simpl; [by repeat constructor|].
  intros H. apply orb_false_iff in H as [Ha Hs]. specialize (IH Hs).
  destruct (Ascii.eqb a "/"); [by constructor|].
  destruct (split_slash s) as [|p ps]; [by repeat constructor; simpl; rewrite Ha|].
  inversion IH; subst. constructor; [|done]. simpl. by rewrite Ha.
Qed.

Lemma join_slash_lacks l : Forall lacks l -> lacks (join_slash l).
Proof.
  unfold lacks. induction 1 as [|x l Hx Hl IH]; [done|].
  destruct l as [|y l]; [done|].
  change (join_slash (x :: y :: l)) with (x +:+ "/" +:+ join_slash (y :: l)).
  rewrite !char_in_app, Hx, IH. cbn [char_in orb]. rewrite orb_false_r.
  destruct (Ascii.eqb_spec "/" c); [congruence|done].
Qed.

Lemma removelast_Forall {A} (P : A -> Prop) l : Forall P l -> Forall P (removelast l).
Proof. induction 1 as [|x l Hx Hl IH]; [constructor|]. simpl. destruct l; [constructor|by constructor]. Qed.

Lemma fold_push_segment_lacks segs stack :
  Forall lacks segs -> Forall lacks stack -> Forall lacks (fold_left push_segment segs stack).
Proof.
  intros Hs. revert stack. induction Hs as [|x segs Hx Hsegs IH]; intros stack Hst; [done|].
  simpl. apply IH. unfold push_segment.
  destruct (String.eqb x ".."); [by apply removelast_Forall|].
  destruct (String.eqb x "."); [done|]. apply Forall_app; auto.
Qed.

Lemma strip_leading_slash_lacks s : lacks s -> lacks (strip_leading_slash s).
Proof.
  unfold lacks. destruct s as [|a s]; simpl; [done|].
  intros H. destruct (Ascii.eqb a "/"); [|done]. by apply orb_false_iff in H as [_ ?].
Qed.

(** [resolvePath] introduces no character other than [/]. *)
Lemma resolvePath_lacks rel base append :
  lacks rel -> lacks base -> lacks (resolvePath rel base append).
Proof.
  intros Hr Hb. unfold resolvePath.
  case_bool_decide; [done|]. destruct (_ || _).
  - unfold lacks in *. by rewrite char_in_app, Hr, Hb.
  - apply join_slash_lacks.
    assert (Forall lacks (fold_left push_segment (split_slash (strip_leading_slash rel))
      (if negb append || String.eqb (last (split_slash base) "") "" then removelast (split_slash base)
       else split_slash base))) as Hf.
    { apply fold_push_segment_lacks; [by apply split_slash_lacks, strip_leading_slash_lacks|].
      pose proof (split_slash_lacks _ Hb). destruct (_ || _); auto using removelast_Forall. }
    destruct (fold_left _ _ _) as [|[|a s] l]; auto. all: constructor; [done|done].
Qed.

End Resolve.

(** A path without [?] or [#] resolves to the empty path or to an
    absolute one. *)
Lemma resolvePath_absolute rel base append :
  char_in "?"%char rel = false -> char_in "#"%char rel = false ->
  resolvePath rel base append = "" \/ starts_with_slash (resolvePath rel base append) = true.
Proof.
  intros Hq Hh. unfold resolvePath.
  case_bool_decide as Ha.
  - right. destruct rel as [|a rel]; simplify_eq/=. reflexivity.
  - destruct (bool_decide _ || bool_decide _) eqn:E.
    + exfalso. apply orb_true_iff in E as [E|E]; apply bool_decide_eq_true in E;
        destruct rel as [|a rel]; simplify_eq/=; rewrite Ascii.eqb_refl in *; discriminate.
    + destruct (fold_left _ _ _) as [|[|x s] [|y l]]; simpl; auto.
Qed.
