(* ===== verification/RouteMap.v ===== *)
(** * The route map of vue-router: [create-route-map.js]

    A route descriptor ([RouteConfig], the objects of the [routes] array)
    becomes a route record ([make_record], the [record] object built in
    [addRouteRecord]).  [addRouteRecord] warns (development build) about a
    path with characters outside ASCII, adds the record to the path list
    and the path map unless its path is already there, and to the name
    map unless the name is already there, in which case it warns.
    [createRouteMap] folds [addRouteRecord] over the routes in order,
    moves the wildcard path ["*"] to the end of the path list, and warns
    about the top-level paths that start with neither [/] nor [*].

    The state is [RouteMap]: [pathList] (an array), [pathMap] and
    [nameMap] (objects created with [Object.create(null)], here [gmap]s
    keyed by string) and the warnings printed so far.

    Theorems: the map invariant [map_wf] and its preservation; the
    wildcard loop equals a stable partition and terminates within its
    fuel; the path map and the name map hold the first route declared for
    each path and each name; the path list lists each normalised path
    once, in declaration order, wildcard last; no warning is printed
    exactly when the names are distinct, the paths ASCII and the
    normalised paths absolute ([createRouteMap_no_warning]).

    Not modelled: [addRouteRecord] writes [sensitive] into the route's own
    [pathToRegexpOptions] object, so routes sharing one options object
    see each other's [caseSensitive]; here each route's options are a
    value (the table of this repository has no options object). *)

From stdpp Require Import gmap.
From S2P Require Import Prelude Path.
Local Open Scope list_scope.

Section RouteMap.
(** The type of component references ([import Home from ...]). *)
Context {C : Type}.

(** ** Data *)

(** A route descriptor [{ path, name, component, caseSensitive,
    pathToRegexpOptions }]; absent properties are [None]. *)
Record RouteConfig := mkRouteConfig {
  path : string;
  name : option string;
  component : C;
  caseSensitive : option bool;
  pathToRegexpOptions : option PathToRegexpOptions
}.

(** The fields of the route record that matching reads. *)
Record RouteRecord := mkRouteRecord {
  record_path : string;
  regex : Regex;
  components_default : C;
  record_name : option string
}.

(** The development build's warnings: a path with characters outside
    ASCII, a duplicate name, top-level paths without a leading slash
    (printed by [createRouteMap]), and a location naming no route
    (printed by [match], [Matcher.v]). *)
Inductive Warning :=
| UnencodedPath (path : string)
| DuplicateNamedRoute (name : string) (path : string)
| NoLeadingSlash (paths : list string)
| UnknownRouteName (name : string).

Record RouteMap := mkRouteMap {
  pathList : list string;
  pathMap : gmap string RouteRecord;
  nameMap : gmap string RouteRecord;
  warnings : list Warning
}.

Definition empty_route_map : RouteMap := mkRouteMap [] ∅ ∅ [].

(** ** [addRouteRecord] *)

(** [if (name)]: a name is used when it is a non-empty string. *)
Definition truthy_name (n : option string) : option string :=
  match n with
  | Some s => if String.eqb s "" then None else Some s
  | None => None
  end.

(** The record built for a top-level route: the options default to [{}],
    [caseSensitive] overrides [sensitive], the path is normalised, and
    [components] is [{ default: route.component }]. *)
Definition make_record (route : RouteConfig) : RouteRecord :=
  let opts := default default_options (pathToRegexpOptions route) in
  let normalizedPath := normalizePath (path route) (truthy (strict opts)) in
  let opts := match caseSensitive route with
              | Some b => mkOptions (Some b) (strict opts)
              | None => opts
              end in
  mkRouteRecord normalizedPath (compileRouteRegex normalizedPath opts)
                (component route) (name route).

(** [/[^\u0000-\u007F]+/.test(path)]: a character outside ASCII. *)
Fixpoint non_ascii (s : string) : bool :=
  match s with
  | EmptyString => false
  | String c s' => (128 <=? nat_of_ascii c)%nat || non_ascii s'
  end.

(** [warn(!/[^\u0000-\u007F]+/.test(path), ...)]. *)
Definition path_warning (route : RouteConfig) : list Warning :=
  if non_ascii (path route) then [UnencodedPath (path route)] else [].

(** [addRouteRecord(pathList, pathMap, nameMap, route)] for a top-level
    route: the development build's warning on an unencoded path, the
    record, the path list and map, the name map. *)
Definition addRouteRecord (m : RouteMap) (route : RouteConfig) : RouteMap :=
  let ws := warnings m ++ path_warning route in
  let record := make_record route in
  let '(pl, pm) :=
    match pathMap m !! record_path record with
    | Some _ => (pathList m, pathMap m)
    | None => (pathList m ++ [record_path record],
               <[record_path record := record]> (pathMap m))
    end in
  let '(nm, ws) :=
    match truthy_name (name route) with
    | Some n =>
        match nameMap m !! n with
        | None => (<[n := record]> (nameMap m), ws)
        | Some _ => (nameMap m, ws ++ [DuplicateNamedRoute n (record_path record)])
        end
    | None => (nameMap m, ws)
    end in
  mkRouteMap pl pm nm ws.

(** ** The wildcard loop of [createRouteMap]

    [for (let i = 0, l = pathList.length; i < l; i++)
       if (pathList[i] === '*') { pathList.push(pathList.splice(i, 1)[0]); l--; i-- }]

    One iteration of the body and the increment: on a wildcard [i] is
    unchanged (decremented, then incremented) and [l] decreases. *)
Fixpoint wildcard_loop (fuel i l : nat) (pl : list string) : option (list string) :=
  match fuel with
  | O => None
  | S fuel' =>
      if (i <? l)%nat then
        match pl !! i with
        | Some p =>
            if String.eqb p "*"
            then wildcard_loop fuel' i (l - 1) (take i pl ++ drop (S i) pl ++ [p])
            else wildcard_loop fuel' (S i) l pl
        | None => wildcard_loop fuel' (S i) l pl
        end
      else Some pl
  end.

(** [length + 1] iterations: the loop guard is tested once more than the
    body runs, and the body runs at most [length] times. *)
Definition wildcards_last (pl : list string) : list string :=
  default pl (wildcard_loop (S (length pl)) 0 (length pl) pl).

(** [path && path.charAt(0) !== '*' && path.charAt(0) !== '/']. *)
Definition lacks_leading_slash (p : string) : bool :=
  match p with
  | EmptyString => false
  | String c _ => negb (Ascii.eqb c "*") && negb (Ascii.eqb c "/")
  end.

(** [createRouteMap(routes)]: the records, the wildcard loop, then the
    development build's warning on paths without a leading slash. *)
Definition createRouteMap (routes : list RouteConfig) : RouteMap :=
  let m := foldl addRouteRecord empty_route_map routes in
  let pl := wildcards_last (pathList m) in
  let found := filter (fun p => lacks_leading_slash p = true) pl in
  mkRouteMap pl (pathMap m) (nameMap m)
    (warnings m ++ match found with [] => [] | _ => [NoLeadingSlash found] end).

(** ** The map invariant *)

Definition map_wf (m : RouteMap) : Prop :=
  NoDup (pathList m) /\
  (forall p, p ∈ pathList m <-> is_Some (pathMap m !! p)) /\
  (forall p r, pathMap m !! p = Some r -> record_path r = p) /\
  (forall n r, nameMap m !! n = Some r -> record_name r = Some n).

(** The first route with a given normalised path, or a given name. *)
Definition first_with_path (p : string) (routes : list RouteConfig) : option RouteConfig :=
  find (fun rc => bool_decide (record_path (make_record rc) = p)) routes.

Definition first_with_name (n : string) (routes : list RouteConfig) : option RouteConfig :=
  find (fun rc => bool_decide (truthy_name (name rc) = Some n)) routes.

(** The names [addRouteRecord] files, in declaration order. *)
Definition route_names (routes : list RouteConfig) : list string :=
  omap (fun rc => truthy_name (name rc)) routes.

(** The routes whose records the path map keeps: the first route of each
    normalised path not already in [seen]. *)
Fixpoint first_per_path (seen : list string) (routes : list RouteConfig) : list RouteConfig :=
  match routes with
  | [] => []
  | rc :: rs =>
      if bool_decide (record_path (make_record rc) ∈ seen) then first_per_path seen rs
      else rc :: first_per_path (seen ++ [record_path (make_record rc)]) rs
  end.

(** ** Lemmas on the wildcard loop *)

Lemma wildcard_loop_spec todo : forall fuel done stars,
  length todo < fuel ->
  wildcard_loop fuel (length done) (length done + length todo) (done ++ todo ++ stars) =
  Some (done ++ filter (fun p => p <> "*") todo ++ stars ++ filter (fun p => p = "*") todo).
Proof.
  induction todo as [|x todo IH]; intros [|fuel] done stars Hf; simpl in Hf; try lia.
  - simpl. rewrite Nat.add_0_r, Nat.ltb_irrefl. by rewrite app_nil_r.
  - simpl. replace ((length done <? length done + S (length todo))%nat) with true
      by (symmetry; apply Nat.ltb_lt; lia).
    rewrite list_lookup_middle by done.
    destruct (String.eqb_spec x "*") as [->|Hx].
    + rewrite take_app_length.
      replace (drop (S (length done)) (done ++ "*" :: todo ++ stars)) with (todo ++ stars)
        by (rewrite drop_app_ge by lia; by replace (S (length done) - length done) with 1 by lia).
      replace (length done + S (length todo) - 1) with (length done + length todo) by lia.
      rewrite <- app_assoc, IH by lia.
      rewrite filter_cons_False by (intros H; by apply H).
      rewrite filter_cons_True by done. by rewrite <- app_assoc.
    + replace (S (length done)) with (length (done ++ [x])) by (rewrite length_app; simpl; lia).
      replace (length done + S (length todo)) with (length (done ++ [x]) + length todo)
        by (rewrite length_app; simpl; lia).
      replace (done ++ x :: todo ++ stars) with ((done ++ [x]) ++ todo ++ stars)
        by (by rewrite <- app_assoc).
      rewrite IH by lia. rewrite filter_cons_True by done.
      rewrite filter_cons_False by (intros H; by apply Hx). by rewrite <- app_assoc.
Qed.

(** the wildcard loop of [createRouteMap], run with its fuel, stops
    and returns the path list with every ["*"] moved to the end and the
    other paths in their order: a stable partition. *)
Theorem wildcard_loop_partition (pl : list string) :
  wildcard_loop (S (length pl)) 0 (length pl) pl =
  Some (filter (fun p => p <> "*") pl ++ filter (fun p => p = "*") pl).
Proof.
  pose proof (wildcard_loop_spec pl (S (length pl)) [] [] ltac:(lia)) as H.
  simpl in H. by rewrite app_nil_r in H.
Qed.

Lemma wildcards_last_eq pl :
  wildcards_last pl = filter (fun p => p <> "*") pl ++ filter (fun p => p = "*") pl.
Proof. unfold wildcards_last. by rewrite wildcard_loop_partition. Qed.

Lemma wildcards_last_perm pl : wildcards_last pl ≡ₚ pl.
Proof.
  rewrite wildcards_last_eq, (Permutation_app_comm _ _).
  apply (filter_app_complement (fun p => p = "*")).
Qed.

(** ** Equations of [addRouteRecord] *)

(** [addRouteRecord] unfolded into its two independent updates. *)
Lemma addRouteRecord_split m rc :
  addRouteRecord m rc =
  mkRouteMap
    (match pathMap m !! record_path (make_record rc) with
     | Some _ => pathList m | None => pathList m ++ [record_path (make_record rc)] end)
    (match pathMap m !! record_path (make_record rc) with
     | Some _ => pathMap m
     | None => <[record_path (make_record rc) := make_record rc]> (pathMap m) end)
    (match truthy_name (name rc) with
     | Some n => match nameMap m !! n with
                 | None => <[n := make_record rc]> (nameMap m) | Some _ => nameMap m end
     | None => nameMap m end)
    (match truthy_name (name rc) with
     | Some n => match nameMap m !! n with
                 | None => warnings m ++ path_warning rc
                 | Some _ => (warnings m ++ path_warning rc)
                             ++ [DuplicateNamedRoute n (record_path (make_record rc))] end
     | None => warnings m ++ path_warning rc end).
Proof.
  unfold addRouteRecord.
  destruct (pathMap m !! _), (truthy_name _) as [n|]; try destruct (nameMap m !! n); done.
Qed.

(** A map update that only fills an absent key. *)
Lemma insert_if_absent_lookup {V} (mp : gmap string V) k v j :
  (match mp !! k with Some _ => mp | None => <[k := v]> mp end) !! j =
  match mp !! j with Some r => Some r | None => if bool_decide (k = j) then Some v else None end.
Proof.
  destruct (mp !! k) eqn:E; destruct (decide (k = j)) as [<-|Hne].
  - by rewrite E.
  - rewrite bool_decide_false by done. by destruct (mp !! j).
  - by rewrite lookup_insert_eq, E, bool_decide_true.
  - rewrite lookup_insert_ne by done. rewrite bool_decide_false by done. by destruct (mp !! j).
Qed.

Lemma addRouteRecord_pathList m rc :
  pathList (addRouteRecord m rc) =
  match pathMap m !! record_path (make_record rc) with
  | Some _ => pathList m
  | None => pathList m ++ [record_path (make_record rc)]
  end.
Proof. by rewrite addRouteRecord_split. Qed.

Lemma addRouteRecord_pathMap m rc p :
  pathMap (addRouteRecord m rc) !! p =
  match pathMap m !! p with
  | Some r => Some r
  | None => if bool_decide (record_path (make_record rc) = p) then Some (make_record rc) else None
  end.
Proof. rewrite addRouteRecord_split. apply insert_if_absent_lookup. Qed.

Lemma addRouteRecord_nameMap m rc n :
  nameMap (addRouteRecord m rc) !! n =
  match nameMap m !! n with
  | Some r => Some r
  | None => if bool_decide (truthy_name (name rc) = Some n) then Some (make_record rc) else None
  end.
Proof.
  rewrite addRouteRecord_split; simpl. destruct (truthy_name (name rc)) as [n'|].
  - rewrite insert_if_absent_lookup.
    destruct (nameMap m !! n); [done|]. by repeat case_bool_decide; simplify_eq.
  - destruct (nameMap m !! n); [done|]. by rewrite bool_decide_false.
Qed.
Lemma truthy_name_Some n s : truthy_name n = Some s -> n = Some s /\ s <> "".
Proof.
  destruct n as [t|]; simpl; [|discriminate].
  destruct (String.eqb_spec t ""); [discriminate|]. intros [= ->]. done.
Qed.

Lemma make_record_name rc : record_name (make_record rc) = name rc.
Proof. reflexivity. Qed.

Lemma map_wf_empty : map_wf empty_route_map.
Proof.
  split_and!; simpl.
  - constructor.
  - intros p. rewrite lookup_empty. split; [intros H; inversion H|intros [? H]; discriminate].
  - intros p r. by rewrite lookup_empty.
  - intros n r. by rewrite lookup_empty.
Qed.

(** adding a route record keeps the route map well formed: the path
    list has no duplicate, lists exactly the keys of the path map, and
    both maps file each record under its own path and name. *)
Theorem addRouteRecord_wf (m : RouteMap) (rc : RouteConfig) :
  map_wf m -> map_wf (addRouteRecord m rc).
Proof.
  intros (Hnd & Hdom & Hpath & Hname). split_and!.
  - rewrite addRouteRecord_pathList. destruct (pathMap m !! _) eqn:E; [done|].
    apply list.NoDup_app. split_and!; [done| |by apply NoDup_singleton].
    intros x Hx ->%list_elem_of_singleton. apply Hdom in Hx. rewrite E in Hx.
    by destruct Hx.
  - intros p. rewrite addRouteRecord_pathList, addRouteRecord_pathMap.
    destruct (pathMap m !! _) eqn:E.
    + destruct (pathMap m !! p) eqn:Ep; [by rewrite Hdom, Ep|].
      rewrite Hdom, Ep. case_bool_decide; subst; [congruence|done].
    + rewrite elem_of_app, list_elem_of_singleton, Hdom.
      destruct (pathMap m !! p) eqn:Ep; [naive_solver|].
      case_bool_decide; naive_solver.
  - intros p r. rewrite addRouteRecord_pathMap.
    destruct (pathMap m !! p) eqn:Ep; [intros [= <-]; eauto|].
    case_bool_decide; [intros [= <-]; done|discriminate].
  - intros n r. rewrite addRouteRecord_nameMap.
    destruct (nameMap m !! n) eqn:En; [intros [= <-]; eauto|].
    case_bool_decide as Ht; [intros [= <-]|discriminate].
    rewrite make_record_name. by apply truthy_name_Some in Ht as [-> _].
Qed.

#[local] Hint Resolve map_wf_empty addRouteRecord_wf : router.

Lemma foldl_addRouteRecord_wf m routes :
  map_wf m -> map_wf (foldl addRouteRecord m routes).
Proof. revert m; induction routes; intros m Hm; simpl; eauto with router. Qed.

#[local] Hint Resolve foldl_addRouteRecord_wf : router.

(** the route map [createRouteMap] returns is well formed: moving the
    wildcard last keeps the path list duplicate-free and in agreement with
    the path map. *)
Theorem createRouteMap_wf (routes : list RouteConfig) : map_wf (createRouteMap routes).
Proof.
  assert (map_wf (foldl addRouteRecord empty_route_map routes)) as (Hnd & Hdom & Hpath & Hname)
    by auto with router.
  unfold createRouteMap. split_and!; simpl; try done.
  - by rewrite wildcards_last_perm.
  - intros p. by rewrite wildcards_last_perm.
Qed.

Lemma first_with_path_cons p rc routes :
  first_with_path p (rc :: routes) =
  if bool_decide (record_path (make_record rc) = p) then Some rc else first_with_path p routes.
Proof. reflexivity. Qed.

Lemma first_with_name_cons n rc routes :
  first_with_name n (rc :: routes) =
  if bool_decide (truthy_name (name rc) = Some n) then Some rc else first_with_name n routes.
Proof. reflexivity. Qed.

Lemma foldl_pathMap m routes p :
  pathMap (foldl addRouteRecord m routes) !! p =
  match pathMap m !! p with
  | Some r => Some r
  | None => make_record <$> first_with_path p routes
  end.
Proof.
  revert m; induction routes as [|rc routes IH]; intros m; cbn [foldl].
  - by destruct (pathMap m !! p).
  - rewrite IH, addRouteRecord_pathMap. destruct (pathMap m !! p); [done|].
    rewrite first_with_path_cons. by case_bool_decide.
Qed.

Lemma foldl_nameMap m routes n :
  nameMap (foldl addRouteRecord m routes) !! n =
  match nameMap m !! n with
  | Some r => Some r
  | None => make_record <$> first_with_name n routes
  end.
Proof.
  revert m; induction routes as [|rc routes IH]; intros m; cbn [foldl].
  - by destruct (nameMap m !! n).
  - rewrite IH, addRouteRecord_nameMap. destruct (nameMap m !! n); [done|].
    rewrite first_with_name_cons. by case_bool_decide.
Qed.

(** the path map of [createRouteMap] files under each normalised path
    the record of the first route declared with that path; a later route
    with the same path is dropped. *)
Theorem createRouteMap_pathMap (routes : list RouteConfig) (p : string) :
  pathMap (createRouteMap routes) !! p = make_record <$> first_with_path p routes.
Proof. apply foldl_pathMap. Qed.

(** the name map of [createRouteMap] files under each non-empty name
    the record of the first route declared with that name. *)
Theorem createRouteMap_nameMap (routes : list RouteConfig) (n : string) :
  nameMap (createRouteMap routes) !! n = make_record <$> first_with_name n routes.
Proof. apply foldl_nameMap. Qed.

(** ** The routes the path map keeps *)

Lemma first_per_path_not_seen seen routes rc :
  rc ∈ first_per_path seen routes -> record_path (make_record rc) ∉ seen.
Proof.
  revert seen; induction routes as [|x rs IH]; intros seen Hin; cbn [first_per_path] in Hin;
    [by apply elem_of_nil in Hin|].
  case_bool_decide as Hx; [by apply IH|].
  apply elem_of_cons in Hin as [->|Hin]; [done|].
  intros Hs. apply (IH _ Hin). apply elem_of_app. by left.
Qed.

Lemma first_per_path_first seen routes rc :
  rc ∈ first_per_path seen routes -> first_with_path (record_path (make_record rc)) routes = Some rc.
Proof.
  revert seen; induction routes as [|x rs IH]; intros seen Hin; cbn [first_per_path] in Hin;
    [by apply elem_of_nil in Hin|].
  rewrite first_with_path_cons. case_bool_decide as Hx.
  - rewrite bool_decide_false; [by eapply IH|].
    intros Heq. apply (first_per_path_not_seen _ _ _ Hin). by rewrite <- Heq.
  - apply elem_of_cons in Hin as [->|Hin]; [by rewrite bool_decide_true|].
    pose proof (first_per_path_not_seen _ _ _ Hin) as Hns.
    rewrite bool_decide_false; [by eapply IH|].
    intros Heq. apply Hns, elem_of_app. right. rewrite Heq. by apply list_elem_of_singleton.
Qed.

Lemma first_per_path_elem seen routes rc : rc ∈ first_per_path seen routes -> rc ∈ routes.
Proof.
  revert seen; induction routes as [|x rs IH]; intros seen Hin; cbn [first_per_path] in Hin;
    [by apply elem_of_nil in Hin|].
  case_bool_decide; [right; by eapply IH|].
  apply elem_of_cons in Hin as [->|Hin]; [left|right; by eapply IH].
Qed.

(** The path list after folding [addRouteRecord] from a well-formed map:
    the new normalised paths, first occurrences only, in order. *)
Lemma foldl_pathList m routes :
  map_wf m ->
  pathList (foldl addRouteRecord m routes) =
  pathList m ++ map (fun rc => record_path (make_record rc)) (first_per_path (pathList m) routes).
Proof.
  revert m; induction routes as [|rc rs IH]; intros m Hm; cbn [foldl first_per_path].
  - by rewrite app_nil_r.
  - rewrite IH by auto with router. rewrite addRouteRecord_pathList.
    destruct Hm as (_ & Hdom & _ & _).
    destruct (pathMap m !! record_path (make_record rc)) eqn:E.
    + rewrite bool_decide_true; [done|]. apply Hdom. by rewrite E.
    + rewrite bool_decide_false; [|intros Hin; apply Hdom in Hin; rewrite E in Hin; by destruct Hin].
      rewrite map_cons, <- app_assoc. done.
Qed.

(** Distinct paths: every route is kept. *)
Lemma first_per_path_distinct seen routes :
  NoDup (map (fun rc => record_path (make_record rc)) routes) ->
  (forall rc, rc ∈ routes -> record_path (make_record rc) ∉ seen) ->
  first_per_path seen routes = routes.
Proof.
  revert seen; induction routes as [|rc rs IH]; intros seen Hnd Hfree; [done|].
  rewrite map_cons in Hnd. apply list.NoDup_cons in Hnd as [Hnotin Hnd]. cbn [first_per_path].
  rewrite bool_decide_false by (apply Hfree; left). f_equal. apply IH; [done|].
  intros rc' Hin. rewrite elem_of_app, list_elem_of_singleton. intros [Hs|Heq].
  - apply (Hfree rc'); [by right|done].
  - apply Hnotin. rewrite <- Heq. apply list_elem_of_In.
    apply (in_map (fun rc => record_path (make_record rc))). by apply list_elem_of_In.
Qed.

(** ** Duplicate names are reported *)

(** The warnings [addRouteRecord] prints for a route: the unencoded
    path, then the duplicate name. *)
Definition record_warnings (m : RouteMap) (rc : RouteConfig) : list Warning :=
  path_warning rc ++
  match truthy_name (name rc) with
  | Some n => match nameMap m !! n with
              | Some _ => [DuplicateNamedRoute n (record_path (make_record rc))]
              | None => [] end
  | None => [] end.

Lemma addRouteRecord_warnings m rc :
  warnings (addRouteRecord m rc) = warnings m ++ record_warnings m rc.
Proof.
  rewrite addRouteRecord_split; unfold record_warnings; simpl.
  destruct (truthy_name _) as [n|]; [destruct (nameMap m !! n)|]; by rewrite ?app_nil_r, ?app_assoc.
Qed.

Lemma foldl_warnings_grow m routes :
  exists ws, warnings (foldl addRouteRecord m routes) = warnings m ++ ws.
Proof.
  revert m; induction routes as [|rc routes IH]; intros m; cbn [foldl].
  - exists []. by rewrite app_nil_r.
  - destruct (IH (addRouteRecord m rc)) as [ws Hws]. rewrite Hws, addRouteRecord_warnings.
    eexists. by rewrite <- app_assoc.
Qed.

Lemma app_eq_self {A} (l x : list A) : l ++ x = l <-> x = [].
Proof.
  split; [|intros ->; apply app_nil_r].
  intros H. apply (f_equal length) in H. rewrite length_app in H. destruct x; [done|simpl in H; lia].
Qed.

(** The duplicate-name part of a route's warnings is empty exactly when
    its name, if any, is not in the name map yet. *)
Lemma name_warning_nil m rc :
  match truthy_name (name rc) with
  | Some n => match nameMap m !! n with
              | Some _ => [DuplicateNamedRoute n (record_path (make_record rc))]
              | None => [] end
  | None => [] end = [] <->
  forall n, truthy_name (name rc) = Some n -> nameMap m !! n = None.
Proof.
  destruct (truthy_name (name rc)) as [n|]; [|done].
  destruct (nameMap m !! n) eqn:E; split; try done.
  - intros H. by rewrite H in E.
  - intros _ n' [= <-]. done.
Qed.

Lemma foldl_no_warning m routes :
  warnings (foldl addRouteRecord m routes) = warnings m <->
  NoDup (route_names routes) /\ (forall n, n ∈ route_names routes -> nameMap m !! n = None) /\
  Forall (fun rc => non_ascii (path rc) = false) routes.
Proof.
  revert m; induction routes as [|rc routes IH]; intros m; cbn [foldl].
  - split; [|done]. intros _. split_and!; [constructor| |constructor]. intros n Hn. inversion Hn.
  - destruct (foldl_warnings_grow (addRouteRecord m rc) routes) as [ws Hws].
    assert (ws = [] <-> warnings (foldl addRouteRecord (addRouteRecord m rc) routes)
                         = warnings (addRouteRecord m rc)) as Hws'
      by (rewrite Hws; symmetry; apply app_eq_self).
    rewrite Hws, addRouteRecord_warnings, <- app_assoc, app_eq_self, app_nil.
    rewrite Hws'. rewrite IH.
    unfold record_warnings, path_warning. rewrite app_nil, name_warning_nil, list.Forall_cons.
    unfold route_names; cbn [omap list_omap]. fold (route_names routes).
    destruct (non_ascii (path rc)); [split; [by intros [[? _] _]|by intros (_ & _ & ? & _)]|].
    destruct (truthy_name (name rc)) as [n|] eqn:Hn.
    + rewrite list.NoDup_cons. split.
      * intros [[_ Hfresh] (Hnd & Hnone & Hf)]. split_and!; [|done| |done..].
        -- intros Hin. specialize (Hnone n Hin). rewrite addRouteRecord_nameMap, Hfresh in Hnone
             by done. rewrite bool_decide_true in Hnone by done. discriminate.
        -- intros n' [->|Hin]%elem_of_cons; [by apply Hfresh|].
           specialize (Hnone n' Hin). rewrite addRouteRecord_nameMap in Hnone.
           by destruct (nameMap m !! n').
      * intros ((Hnotin & Hnd) & Hnone & _ & Hf). split_and!; [done| |done| |done].
        -- intros n' [= <-]. apply Hnone. left.
        -- intros n' Hin. rewrite addRouteRecord_nameMap, Hnone by (by right).
           rewrite bool_decide_false; [done|]. rewrite Hn. intros [= ->]. contradiction.
    + split.
      * intros [_ (Hnd & Hnone & Hf)]. split_and!; [done| |done..].
        intros n' Hin. specialize (Hnone n' Hin). rewrite addRouteRecord_nameMap in Hnone.
        by destruct (nameMap m !! n').
      * intros (Hnd & Hnone & _ & Hf). split_and!; try done.
        intros n' Hin. rewrite addRouteRecord_nameMap, Hnone by done.
        rewrite bool_decide_false; [done|]. rewrite Hn; discriminate.
Qed.

Lemma filter_lacks_nil (l : list string) :
  filter (fun p => lacks_leading_slash p = true) l = [] <->
  Forall (fun p => lacks_leading_slash p = false) l.
Proof.
  induction l as [|p l IH]; [split; constructor|].
  rewrite filter_cons, list.Forall_cons, <- IH.
  destruct (lacks_leading_slash p); simpl; [split; [discriminate|by intros []]|]. naive_solver.
Qed.

(** [createRouteMap] prints no warning exactly when the non-empty names
    of the table are pairwise distinct, its paths are ASCII, and every
    normalised path is empty or starts with [/] or [*]. *)
Theorem createRouteMap_no_warning (routes : list RouteConfig) :
  warnings (createRouteMap routes) = [] <->
  NoDup (route_names routes) /\ Forall (fun rc => non_ascii (path rc) = false) routes /\
  Forall (fun p => lacks_leading_slash p = false) (pathList (createRouteMap routes)).
Proof.
  unfold createRouteMap; cbn [pathList warnings]. rewrite app_nil.
  rewrite (foldl_no_warning empty_route_map routes), <- filter_lacks_nil.
  destruct (filter (fun p => lacks_leading_slash p = true)
             (wildcards_last (pathList (foldl addRouteRecord empty_route_map routes)))).
  - split; [naive_solver|]. intros (Hnd & Ha & _). split_and!; try done; intros n _; apply lookup_empty.
  - split; [by intros [_ ?]|by intros (_ & _ & ?)].
Qed.

End RouteMap.

#[export] Hint Resolve map_wf_empty addRouteRecord_wf foldl_addRouteRecord_wf : router.

Arguments RouteConfig : clear implicits.
Arguments RouteRecord : clear implicits.
Arguments RouteMap : clear implicits.
