(* ===== verification/RouteCheck.v ===== *)
(** * The assertions of [addRouteRecord] on the raw route descriptors

    The objects of the [routes] array are plain JavaScript objects: a
    property may be missing.  In the development build [addRouteRecord]
    starts with two assertions, which throw out of [new VueRouter]:
    - [assert(path != null, '"path" is required in a route configuration.')];
    - [assert(typeof route.component !== 'string', 'route config
      "component" for path: ' + String(path || name) + ' cannot be a
      string id. Use an actual component instead.')].
    A [component] that is missing or [undefined] passes both: the record
    gets [components: { default: undefined }], and [<router-view>]
    renders nothing for it.

    [RawRouteConfig] is a descriptor as the assertions see it;
    [check_route] is the two assertions, returning the descriptor
    [addRouteRecord] goes on with, its component [None] when undefined.
    [createRouteMap_checked] is [createRouteMap] with the assertions:
    [routes.forEach(route => addRouteRecord(...))] adds the routes before
    the first failing one (printing their warnings) and then throws.

    Theorems: the checked construction succeeds exactly when every
    descriptor has a path and no string component, and then builds the
    route map of the checked descriptors; otherwise it reports the first
    failing descriptor, after the warnings of those before it. *)

From S2P Require Import Prelude Path RouteMap.
Local Open Scope list_scope.

Section RouteCheck.
Context {C : Type}.

(** ** Data *)

(** The [component] property. *)
Inductive RawComponent :=
| RawComp (c : C)              (** a component object ([import Home from ...]) *)
| RawCompString (id : string)  (** a string id ([component: "Home"]) *)
| RawCompUndefined.            (** missing, or an import that is [undefined] *)

(** A descriptor [{ path, name, component, caseSensitive,
    pathToRegexpOptions }]; a missing [path] (or [null]) is [None]. *)
Record RawRouteConfig := mkRawRouteConfig {
  raw_path : option string;
  raw_name : option string;
  raw_component : RawComponent;
  raw_caseSensitive : option bool;
  raw_pathToRegexpOptions : option PathToRegexpOptions
}.

(** The [Error]s [assert] throws: [throw new Error('[vue-router] ' + message)]. *)
Inductive AssertionError :=
| PathRequired
| ComponentStringId (path_or_name : string).

(** ** Operations *)

(** The assertions at the top of [addRouteRecord]; [String(path ||
    name)] is the path, or the name when the path is [""]. *)
Definition check_route (r : RawRouteConfig) : AssertionError + RouteConfig (option C) :=
  match raw_path r with
  | None => inl PathRequired
  | Some p =>
      match raw_component r with
      | RawCompString _ =>
          inl (ComponentStringId (if String.eqb p "" then default "undefined" (raw_name r) else p))
      | RawComp c => inr (mkRouteConfig p (raw_name r) (Some c) (raw_caseSensitive r) (raw_pathToRegexpOptions r))
      | RawCompUndefined => inr (mkRouteConfig p (raw_name r) None (raw_caseSensitive r) (raw_pathToRegexpOptions r))
      end
  end.

(** The descriptors checked in order: those that pass before the first
    failure, and that failure. *)
Fixpoint check_routes (l : list RawRouteConfig) : list (RouteConfig (option C)) * option AssertionError :=
  match l with
  | [] => ([], None)
  | r :: l' =>
      match check_route r with
      | inl e => ([], Some e)
      | inr rc => let '(ok, err) := check_routes l' in (rc :: ok, err)
      end
  end.

(** [createRouteMap(routes)] with the assertions: the error thrown with
    the warnings printed before it, or the route map. *)
Definition createRouteMap_checked (l : list RawRouteConfig)
    : (list Warning * AssertionError) + RouteMap (option C) :=
  let '(ok, err) := check_routes l in
  match err with
  | Some e => inl (warnings (foldl addRouteRecord empty_route_map ok), e)
  | None => inr (createRouteMap ok)
  end.

(** The descriptor with its [component] replaced, as when the imported
    binding is [undefined] or a string id is written instead. *)
Definition with_component (c : RawComponent) (r : RawRouteConfig) : RawRouteConfig :=
  mkRawRouteConfig (raw_path r) (raw_name r) c (raw_caseSensitive r) (raw_pathToRegexpOptions r).

(** The descriptor without its [path] property. *)
Definition without_path (r : RawRouteConfig) : RawRouteConfig :=
  mkRawRouteConfig None (raw_name r) (raw_component r) (raw_caseSensitive r) (raw_pathToRegexpOptions r).

(** A descriptor passes both assertions. *)
Definition route_ok (r : RawRouteConfig) : bool :=
  match raw_path r, raw_component r with
  | Some _, RawComp _ | Some _, RawCompUndefined => true
  | _, _ => false
  end.

End RouteCheck.

Arguments RawComponent : clear implicits.
Arguments RawRouteConfig : clear implicits.

(** ** Lemmas *)

Section RouteCheckLemmas.
Context {C : Type}.
Implicit Types (r : RawRouteConfig C) (l : list (RawRouteConfig C)).

Lemma route_ok_check r : route_ok r = true <-> exists rc, check_route r = inr rc.
Proof.
  unfold route_ok, check_route.
  destruct (raw_path r), (raw_component r); split; try done; try (by eexists); by intros [? ?].
Qed.

Lemma check_routes_cons r l :
  check_routes (r :: l) =
  match check_route r with
  | inl e => ([], Some e)
  | inr rc => (rc :: fst (check_routes l), snd (check_routes l))
  end.
Proof. simpl. destruct (check_route r); [done|]. by destruct (check_routes l). Qed.

(** No error exactly when every descriptor passes. *)
Lemma check_routes_none l :
  snd (check_routes l) = None <-> Forall (fun r => route_ok r = true) l.
Proof.
  induction l as [|r l IH]; [split; by constructor|]. rewrite check_routes_cons, Forall_cons_iff, <- IH.
  pose proof (route_ok_check r) as Hok.
  destruct (check_route r) eqn:E; cbn [snd]; split; naive_solver.
Qed.

(** The error is the first failing descriptor's, and the descriptors
    checked before it are those that passed. *)
Lemma check_routes_some l e :
  snd (check_routes l) = Some e ->
  exists pre r suf, l = pre ++ r :: suf /\ Forall (fun r => route_ok r = true) pre /\
    check_route r = inl e /\ fst (check_routes l) = fst (check_routes pre).
Proof.
  induction l as [|r l IH]; [done|]. rewrite check_routes_cons.
  destruct (check_route r) as [e'|rc] eqn:E; cbn [fst snd].
  - intros [= ->]. exists [], r, l. split_and!; [done|constructor|done|done].
  - intros Hs. destruct (IH Hs) as (pre & r' & suf & -> & Hpre & Hr & Hf).
    exists (r :: pre), r', suf. split_and!; [done| |done|].
    + constructor; [apply route_ok_check; by eexists|done].
    + rewrite check_routes_cons, E. cbn [fst]. by rewrite Hf.
Qed.

End RouteCheckLemmas.

(** ** The checked construction *)

(** [createRouteMap] with its assertions succeeds exactly when every
    descriptor has a path and no string component, and then builds the
    route map of the checked descriptors; otherwise the error is the
    first failing descriptor's, thrown after the warnings of the
    descriptors before it. *)
Theorem createRouteMap_checked_spec {C} (l : list (RawRouteConfig C)) :
  match createRouteMap_checked l with
  | inr m => Forall (fun r => route_ok r = true) l /\ m = createRouteMap (fst (check_routes l))
  | inl (ws, e) => exists pre r suf, l = pre ++ r :: suf /\ Forall (fun r => route_ok r = true) pre /\
      check_route r = inl e /\ ws = warnings (foldl addRouteRecord empty_route_map (fst (check_routes pre)))
  end.
Proof.
  unfold createRouteMap_checked. destruct (check_routes l) as [ok err] eqn:E.
  destruct err as [e|].
  - destruct (check_routes_some l e) as (pre & r & suf & Hl & Hpre & Hr & Hf); [by rewrite E|].
    exists pre, r, suf. split_and!; [done..|]. rewrite E in Hf. cbn [fst] in Hf. by rewrite Hf.
  - split; [apply check_routes_none; by rewrite E|done].
Qed.
