(* ===== verification/Matcher.v ===== *)
(** * The matcher of vue-router: [create-matcher.js] and [util/route.js]

    [createMatcher(routes)] builds the route map once; [match(location)]
    resolves a normalised location: a named location is looked up in the
    name map, otherwise the path list is walked in order and the first
    record whose regex accepts the path wins; [_createRoute] builds the
    route object ([createRoute]) whose [matched] array holds the record,
    and [<router-view>] renders the default component of [matched[0]].

    The contract the route table relies on is the class [RouteResolver]
    (with its laws [RouteResolverLaws]): resolving a path gives the view
    of the first declared route whose path accepts it, wildcard routes
    after all others, and resolving a name gives the first route with
    that name.  In the development build [match] warns about a name
    no route declares ([match_warnings]).  [vue_router_resolver] is vue-router's implementation;
    [matcher_match_refines] is the refinement theorem (on every table,
    [match] returns the record of [spec_resolve], which keeps the first
    route of each normalised path as [addRouteRecord] does) and [vue_router_laws] discharges the contract.
    [spec_resolve_ci] shows that tables whose regexps are all
    case-insensitive resolve paths equal up to case folding alike.

    A location is a string or an object [{ name }] ([RawLocation]; a
    string coerces to [LocString]).  [normalizeLocation] resolves the
    path part of a string against the current route's path
    ([resolvePath]) and keeps the query as text; an object with a
    non-empty name is returned as is ([{ name: "" }] is falsy and goes
    the way of the empty string).  Named locations carry no params: the
    path of a named route is its record's path, as [fillParams] returns
    for a static path. *)

From stdpp Require Import gmap.
From S2P Require Import Prelude Path RouteMap.
Local Open Scope list_scope.

(** The [RawLocation] of [router.push], [router.match] and [transitionTo]:
    a location string, or a location object naming a route
    ([{ name: 'Counter' }], without params, query or hash). *)
Inductive RawLocation :=
| LocString (raw : string)
| LocNamed (name : string).

Coercion LocString : string >-> RawLocation.

Section Matcher.
Context {C : Type}.

(** ** Data *)

(** A normalised location [{ name, path, query, hash }]. *)
Record Location := mkLocation {
  loc_name : option string;
  loc_path : string;
  loc_query : string;
  loc_hash : string
}.

(** The route object: [{ name, path, query, hash, matched }]. *)
Record Route := mkRoute {
  route_name : option string;
  route_path : string;
  route_query : string;
  route_hash : string;
  matched : list (RouteRecord C)
}.

(** [normalizeLocation(raw, current)] for a location string: the path
    part is resolved against the current route's path ([(current &&
    current.path) || '/']), and an empty path part stands for the current
    path.  The query is kept as the raw text after [?] (vue-router parses
    it into an object with [resolveQuery]; matching does not read it). *)
Definition string_location (raw : string) (current_path : string) : Location :=
  let parsedPath := parsePath raw in
  let basePath := if String.eqb current_path "" then "/" else current_path in
  let path := if String.eqb (pp_path parsedPath) "" then basePath
              else resolvePath (pp_path parsedPath) basePath false in
  mkLocation None path (pp_query parsedPath) (pp_hash parsedPath).

(** [normalizeLocation(raw, current)]: a string is [{ path: raw }]; an
    object with a (truthy) [name] is returned as it is; an object whose
    name is [""] has no path, no query and no hash, and normalises as the
    empty string does. *)
Definition normalizeLocation (raw : RawLocation) (current_path : string) : Location :=
  match raw with
  | LocString s => string_location s current_path
  | LocNamed n => if String.eqb n "" then string_location "" current_path
                  else mkLocation (Some n) "" "" ""
  end.

(** ** Operations *)

(** [createRoute(record, location)]: [name: location.name || (record &&
    record.name)], [path: location.path || '/'], [matched: record ?
    formatMatch(record) : []] (a top-level record has no parent). *)
Definition createRoute (record : option (RouteRecord C)) (loc : Location) : Route :=
  mkRoute
    (match truthy_name (loc_name loc) with
     | Some n => Some n
     | None => record ≫= record_name
     end)
    (if String.eqb (loc_path loc) "" then "/" else loc_path loc)
    (loc_query loc) (loc_hash loc)
    (match record with Some r => [r] | None => [] end).

(** The loop [for (i = 0; i < pathList.length; i++)]: the record of each
    path in turn, the first whose regex accepts the path.  The path map
    has a record for every listed path ([map_wf]); a missing one is
    skipped here. *)
Fixpoint match_path_list (pm : gmap string (RouteRecord C)) (pl : list string) (p : string)
    : option (RouteRecord C) :=
  match pl with
  | [] => None
  | q :: pl' =>
      match pm !! q with
      | Some r => if regex_test (regex r) p then Some r else match_path_list pm pl' p
      | None => match_path_list pm pl' p
      end
  end.

(** [match(location)]. *)
Definition matcher_match (rm : RouteMap C) (loc : Location) : Route :=
  match truthy_name (loc_name loc) with
  | Some n =>
      match nameMap rm !! n with
      | None => createRoute None loc
      | Some r => createRoute (Some r) (mkLocation (loc_name loc) (record_path r)
                                                 (loc_query loc) (loc_hash loc))
      end
  | None =>
      if String.eqb (loc_path loc) "" then createRoute None loc
      else createRoute (match_path_list (pathMap rm) (pathList rm) (loc_path loc)) loc
  end.

(** The warning [match] prints in the development build before it
    looks the name up: [warn(record, `Route with name '${name}' does not
    exist`)], printed when a truthy name has no record. *)
Definition match_warnings (rm : RouteMap C) (loc : Location) : list Warning :=
  match truthy_name (loc_name loc) with
  | Some n => match nameMap rm !! n with None => [UnknownRouteName n] | Some _ => [] end
  | None => []
  end.

(** What [<router-view>] renders: the default component of [matched[0]]. *)
Definition view (route : Route) : option C :=
  match matched route with
  | r :: _ => Some (components_default r)
  | [] => None
  end.

(** ** The contract of a resolver *)

(** The declared routes in the order the path list tries them. *)
Definition match_order (routes : list (RouteConfig C)) : list (RouteConfig C) :=
  filter (fun rc => record_path (make_record rc) <> "*") routes ++
  filter (fun rc => record_path (make_record rc) = "*") routes.

Definition accepts (p : string) (rc : RouteConfig C) : bool :=
  regex_test (regex (make_record rc)) p.

(** The reference definition: among the first route declared for each
    normalised path, the first, in that order, whose compiled path accepts
    [p]. *)
Definition spec_resolve (routes : list (RouteConfig C)) (p : string) : option (RouteConfig C) :=
  find (accepts p) (match_order (first_per_path [] routes)).

Definition paths_distinct (routes : list (RouteConfig C)) : Prop :=
  NoDup (map (fun rc => record_path (make_record rc)) routes).

Definition all_insensitive (routes : list (RouteConfig C)) : Prop :=
  Forall (fun rc => regex_sensitive (regex (make_record rc)) = false) routes.

Class RouteResolver := {
  resolve_view : list (RouteConfig C) -> string -> option C;
  resolve_name : list (RouteConfig C) -> string -> option (RouteRecord C)
}.

Class RouteResolverLaws (R : RouteResolver) : Prop := {
  resolve_view_first : forall routes p,
    p <> "" -> resolve_view routes p = component <$> spec_resolve routes p;
  resolve_name_first : forall routes n,
    resolve_name routes n = make_record <$> first_with_name n routes
}.

(** vue-router's implementation: build the map, match, render. *)
#[export] Instance vue_router_resolver : RouteResolver := {
  resolve_view routes p := view (matcher_match (createRouteMap routes) (mkLocation None p "" ""));
  resolve_name routes n :=
    head (matched (matcher_match (createRouteMap routes) (mkLocation (Some n) "" "" "")))
}.
(** ** Refinement of the matcher *)

Lemma filter_map_comm {A} (P : string -> Prop) `{forall x, Decision (P x)} (f : A -> string) l :
  filter P (map f l) = map f (filter (fun x => P (f x)) l).
Proof.
  induction l as [|x l IH]; [done|]. rewrite map_cons, !filter_cons.
  destruct (decide (P (f x))); by rewrite IH.
Qed.

Lemma createRouteMap_pathList (routes : list (RouteConfig C)) :
  pathList (createRouteMap routes) =
  map (fun rc => record_path (make_record rc)) (match_order (first_per_path [] routes)).
Proof.
  unfold createRouteMap; simpl.
  rewrite (foldl_pathList empty_route_map) by auto with router.
  rewrite wildcards_last_eq. simpl. unfold match_order.
  by rewrite map_app, !filter_map_comm.
Qed.

Lemma createRouteMap_lookup_kept (routes : list (RouteConfig C)) (rc : RouteConfig C) :
  rc ∈ first_per_path [] routes ->
  pathMap (createRouteMap routes) !! record_path (make_record rc) = Some (make_record rc).
Proof.
  intros Hin. rewrite createRouteMap_pathMap. by rewrite (first_per_path_first _ _ _ Hin).
Qed.

Lemma match_path_list_find (pm : gmap string (RouteRecord C)) (l : list (RouteConfig C)) p :
  (forall rc, rc ∈ l -> pm !! record_path (make_record rc) = Some (make_record rc)) ->
  match_path_list pm (map (fun rc => record_path (make_record rc)) l) p = make_record <$> find (accepts p) l.
Proof.
  induction l as [|rc l IH]; intros Hpm; [done|]. rewrite map_cons. cbn [match_path_list find].
  rewrite Hpm by left. unfold accepts at 1.
  destruct (regex_test _ p); [done|]. apply IH. intros rc' Hin. apply Hpm. by right.
Qed.

Lemma match_order_elem (routes : list (RouteConfig C)) (rc : RouteConfig C) :
  rc ∈ match_order routes -> rc ∈ routes.
Proof. unfold match_order. rewrite elem_of_app, !list_elem_of_filter. naive_solver. Qed.

(** The path walk of [match] is the reference definition. *)
Lemma match_path_walk (routes : list (RouteConfig C)) p :
  match_path_list (pathMap (createRouteMap routes)) (pathList (createRouteMap routes)) p =
  make_record <$> spec_resolve routes p.
Proof.
  rewrite createRouteMap_pathList. apply match_path_list_find. intros rc Hin.
  by apply createRouteMap_lookup_kept, match_order_elem.
Qed.

(** On a table with distinct normalised paths every route takes part. *)
Lemma spec_resolve_distinct (routes : list (RouteConfig C)) p :
  paths_distinct routes -> spec_resolve routes p = find (accepts p) (match_order routes).
Proof.
  intros Hnd. unfold spec_resolve. rewrite first_per_path_distinct; [done..|].
  intros rc _ Hin. by apply elem_of_nil in Hin.
Qed.

Lemma truthy_name_not_empty n : truthy_name n <> Some "".
Proof. intros H. by apply truthy_name_Some in H as [_ ?]. Qed.

Lemma first_with_name_empty (routes : list (RouteConfig C)) : first_with_name "" routes = None.
Proof.
  induction routes as [|rc routes IH]; [done|]. rewrite first_with_name_cons.
  rewrite bool_decide_false by apply truthy_name_not_empty. exact IH.
Qed.

Lemma matcher_match_unnamed (rm : RouteMap C) p q h :
  p <> "" ->
  matcher_match rm (mkLocation None p q h) =
  createRoute (match_path_list (pathMap rm) (pathList rm) p) (mkLocation None p q h).
Proof. intros Hp. unfold matcher_match; simpl. by rewrite (proj2 (String.eqb_neq p "") Hp). Qed.

Lemma normalizeLocation_unnamed (raw : string) cur :
  normalizeLocation raw cur =
  mkLocation None (loc_path (normalizeLocation raw cur))
             (loc_query (normalizeLocation raw cur)) (loc_hash (normalizeLocation raw cur)).
Proof. reflexivity. Qed.

Lemma vue_router_resolve_view (routes : list (RouteConfig C)) p :
  p <> "" ->
  view (matcher_match (createRouteMap routes) (mkLocation None p "" "")) =
  component <$> spec_resolve routes p.
Proof.
  intros Hp. rewrite matcher_match_unnamed, match_path_walk by done.
  by destruct (spec_resolve routes p).
Qed.

Lemma vue_router_resolve_name (routes : list (RouteConfig C)) n :
  head (matched (matcher_match (createRouteMap routes) (mkLocation (Some n) "" "" ""))) =
  make_record <$> first_with_name n routes.
Proof.
  unfold matcher_match; cbn [loc_name truthy_name]. destruct (String.eqb_spec n "") as [->|Hn].
  - by rewrite first_with_name_empty.
  - rewrite createRouteMap_nameMap. by destruct (first_with_name n routes).
Qed.

#[export] Instance vue_router_laws : RouteResolverLaws vue_router_resolver.
Proof.
  split.
  - intros routes p. apply vue_router_resolve_view.
  - intros routes n. apply vue_router_resolve_name.
Qed.

(** Refinement of vue-router's [match] to the reference resolver:
    matching a non-empty path (with any query and hash) yields the record
    of the first route, non-wildcard routes first and later routes with an
    already declared normalised path dropped, whose compiled path accepts
    it, and no record when none does. *)
Theorem matcher_match_refines (routes : list (RouteConfig C)) (p q h : string) :
  p <> "" ->
  matched (matcher_match (createRouteMap routes) (mkLocation None p q h)) =
  match spec_resolve routes p with Some rc => [make_record rc] | None => [] end.
Proof.
  intros Hp. rewrite matcher_match_unnamed, match_path_walk by done.
  by destruct (spec_resolve routes p).
Qed.

(** ** Case-insensitive tables *)

Lemma find_accepts_ci (l : list (RouteConfig C)) s t :
  all_insensitive l -> s ≈ t -> find (accepts s) l = find (accepts t) l.
Proof.
  intros Hins Hst. induction Hins as [|rc l Hrc _ IH]; [done|]. simpl.
  unfold accepts at 1 3. rewrite (regex_test_ci _ Hrc s t Hst). by rewrite IH.
Qed.

Lemma spec_resolve_ci (routes : list (RouteConfig C)) s t :
  all_insensitive routes -> s ≈ t -> spec_resolve routes s = spec_resolve routes t.
Proof.
  intros Hins Hst. apply find_accepts_ci; [|done].
  apply Forall_forall. intros rc Hin%list_elem_of_In%match_order_elem%first_per_path_elem.
  by eapply Forall_forall in Hins; [|apply list_elem_of_In].
Qed.


End Matcher.

Arguments Route : clear implicits.
Arguments RouteResolver : clear implicits.
