(* ===== verification/VueRouter.v ===== *)
(** * Plugin installation and the router instance

    [Vue.use(plugin)] (Vue's [global-api/use.js]) installs a plugin once:
    a plugin already in [_installedPlugins] is ignored, otherwise its
    [install] runs and the plugin is pushed on the list.  vue-router's
    [install] guards itself with [install.installed], registers the global
    mixin and the components [RouterView] and [RouterLink].

    [new VueRouter(options)] builds the matcher from [options.routes] and
    chooses the history mode; [router.match(raw, current)] asks the
    matcher; [router.init(app)] asserts (development build) that the
    plugin was installed, then records the app (its first navigation is
    not modelled).

    The state is [VueGlobal], the part of the global [Vue] constructor
    these calls touch.  Only one [Vue] constructor exists, so the test
    [_Vue === Vue] of [install] always holds. *)

From S2P Require Import Prelude Path RouteMap Matcher.
Local Open Scope list_scope.

(** ** [Vue.use] *)

Record VueGlobal := mkVueGlobal {
  installedPlugins : list string;
  globalComponents : list string;
  globalMixins : nat;
  routerInstalled : bool
}.

Record Plugin := mkPlugin {
  plugin_id : string;
  plugin_install : VueGlobal -> VueGlobal
}.

Definition Vue_use (g : VueGlobal) (plugin : Plugin) : VueGlobal :=
  if bool_decide (plugin_id plugin ∈ installedPlugins g) then g
  else
    let g' := plugin_install plugin g in
    mkVueGlobal (installedPlugins g' ++ [plugin_id plugin])
                (globalComponents g') (globalMixins g') (routerInstalled g').

(** vue-router's [install(Vue)]. *)
Definition router_install (g : VueGlobal) : VueGlobal :=
  if routerInstalled g then g
  else mkVueGlobal (installedPlugins g)
                   (globalComponents g ++ ["RouterView"; "RouterLink"])
                   (S (globalMixins g)) true.

Definition VueRouterPlugin : Plugin := mkPlugin "VueRouter" router_install.

(** ** The router instance *)

Inductive RouterMode := ModeHash | ModeHistory | ModeAbstract.

Section Router.
Context {C : Type}.

(** The options object of [new VueRouter(options)]: [routes], [mode],
    and the class names [<router-link>] reads. *)
Record RouterOptions := mkRouterOptions {
  options_routes : list (RouteConfig C);
  mode : option RouterMode;
  linkActiveClass : option string;
  linkExactActiveClass : option string
}.

(** The router instance: [this.options], [this.matcher], [this.mode]
    and [this.apps]. *)
Record VueRouter := mkVueRouter {
  router_options_of : RouterOptions;
  matcher : RouteMap C;
  router_mode : RouterMode;
  router_apps : list nat
}.

(** [new VueRouter(options)]: [mode = options.mode || 'hash'], falling
    back to [hash] when [history] is unsupported ([options.fallback] is
    not given), and [abstract] outside a browser. *)
Definition VueRouter_new (options : RouterOptions) (inBrowser supportsPushState : bool)
    : VueRouter :=
  let m := default ModeHash (mode options) in
  let fallback := match m with ModeHistory => negb supportsPushState | _ => false end in
  let m := if fallback then ModeHash else m in
  let m := if inBrowser then m else ModeAbstract in
  mkVueRouter options (createRouteMap (options_routes options)) m [].

(** [router.match(raw, current)]: [this.matcher.match(raw, current)],
    given the current route's path. *)
Definition router_match (r : VueRouter) (raw : RawLocation) (current_path : string) : Route C :=
  matcher_match (matcher r) (normalizeLocation raw current_path).

Inductive InitError := NotInstalled.

(** [router.init(app)]: the assertion, then [this.apps.push(app)]. *)
Definition router_init (g : VueGlobal) (r : VueRouter) (app : nat) : InitError + VueRouter :=
  if routerInstalled g
  then inr (mkVueRouter (router_options_of r) (matcher r) (router_mode r) (router_apps r ++ [app]))
  else inl NotInstalled.

End Router.

Arguments RouterOptions : clear implicits.
Arguments VueRouter : clear implicits.

(** The global state of a Vue whose registry is consistent with the
    router plugin's own flag. *)
Definition vue_wf (g : VueGlobal) : Prop :=
  "VueRouter" ∈ installedPlugins g -> routerInstalled g = true.

Definition fresh_vue : VueGlobal := mkVueGlobal [] [] 0 false.

(** ** Lemmas *)

Lemma Vue_use_installed g p : plugin_id p ∈ installedPlugins (Vue_use g p).
Proof.
  unfold Vue_use. case_bool_decide; [done|]. simpl.
  apply elem_of_app. right. by apply list_elem_of_singleton.
Qed.

Lemma router_install_sets g : routerInstalled (router_install g) = true.
Proof. unfold router_install. by destruct (routerInstalled g) eqn:E. Qed.

Lemma fresh_vue_wf : vue_wf fresh_vue.
Proof. intros H. inversion H. Qed.

Lemma Vue_use_router_installed g :
  vue_wf g -> routerInstalled (Vue_use g VueRouterPlugin) = true.
Proof.
  intros Hwf. unfold Vue_use. case_bool_decide as Hin; simpl.
  - by apply Hwf.
  - apply router_install_sets.
Qed.

(** [Vue.use] is idempotent: using a plugin a second time leaves the
    global state as the first use left it. *)
Theorem Vue_use_idempotent (g : VueGlobal) (p : Plugin) :
  Vue_use (Vue_use g p) p = Vue_use g p.
Proof.
  unfold Vue_use at 1. rewrite bool_decide_true; [done|]. apply Vue_use_installed.
Qed.

(** the first [Vue.use] of the router plugin runs its [install] once:
    it records the plugin, registers [RouterView] and [RouterLink] and the
    mixin, and sets the plugin's flag. *)
Theorem Vue_use_router_first (g : VueGlobal) :
  "VueRouter" ∉ installedPlugins g -> routerInstalled g = false ->
  Vue_use g VueRouterPlugin =
  mkVueGlobal (installedPlugins g ++ ["VueRouter"])
              (globalComponents g ++ ["RouterView"; "RouterLink"])
              (S (globalMixins g)) true.
Proof.
  intros Hp Hr. unfold Vue_use. rewrite bool_decide_false by done.
  simpl. unfold router_install. by rewrite Hr.
Qed.

(** after [Vue.use(VueRouter)] on a consistent global state, the
    router's [init] passes its installation assertion for every app and
    records the app. *)
Theorem router_init_after_use {C} (g : VueGlobal) (r : VueRouter C) (app : nat) :
  vue_wf g ->
  router_init (Vue_use g VueRouterPlugin) r app =
  inr (mkVueRouter (router_options_of r) (matcher r) (router_mode r) (router_apps r ++ [app])).
Proof. intros Hwf. unfold router_init. by rewrite Vue_use_router_installed. Qed.

(** [router.init] fails with [NotInstalled], and changes nothing, exactly
    when the router plugin's flag is unset. *)
Theorem router_init_error {C} (g : VueGlobal) (r : VueRouter C) (app : nat) :
  router_init g r app = inl NotInstalled <-> routerInstalled g = false.
Proof. unfold router_init. destruct (routerInstalled g); split; congruence. Qed.
