(* ===== verification/History.v ===== *)
(** * Navigation: the history of vue-router ([history/base.js])

    A router's history holds the current route, initially the [START]
    route ([createRoute(null, { path: '/' })]).  [transitionTo(location)]
    matches the location from the current route's path and hands the
    route to [confirmTransition] (which abstract mode's [go] also calls
    with a stored route); [confirmTransition] aborts with a [NavigationDuplicated] error when the
    new route [isSameRoute] as the current one with as many matched
    records; otherwise [updateRoute] makes it current.

    This table registers no navigation guard ([beforeEach],
    [beforeEnter]) and the view components are not in the sources, so the
    guard queue between the duplicate check and [updateRoute] is taken to
    let every navigation through (not modelled).

    The state machine is [reachable]: the histories reachable from the
    start by successful transitions. *)

From S2P Require Import Prelude Path RouteMap Matcher VueRouter.
Local Open Scope list_scope.

Section History.
Context {C : Type}.

(** [this.current]; [None] is the [START] route object itself. *)
Record History := mkHistory {
  history_router : VueRouter C;
  current : option (Route C)
}.

Definition START : Route C := mkRoute None "/" "" "" [].

Definition current_route (h : History) : Route C := default START (current h).

(** [isSameRoute(a, b)]: [b === START] holds of no freshly created route;
    routes with paths compare their paths without a final slash, their
    hashes and queries; otherwise named routes compare names, hashes and
    queries (no params here). *)
Definition isSameRoute (a : Route C) (b : option (Route C)) : bool :=
  match b with
  | None => false
  | Some b =>
      if negb (String.eqb (route_path a) "") && negb (String.eqb (route_path b) "") then
        String.eqb (strip_trailing_slash (route_path a)) (strip_trailing_slash (route_path b))
        && String.eqb (route_hash a) (route_hash b) && String.eqb (route_query a) (route_query b)
      else
        match truthy_name (route_name a), truthy_name (route_name b) with
        | Some na, Some nb =>
            String.eqb na nb && String.eqb (route_hash a) (route_hash b)
            && String.eqb (route_query a) (route_query b)
        | _, _ => false
        end
  end.

Inductive NavigationFailure :=
| NavigationDuplicated (route : Route C).

(** The last matched record, compared by identity in [confirmTransition]
    ([route.matched[lastRouteIndex] === current.matched[lastCurrentIndex]]):
    the records of one route map are the objects of its path map, so a
    record is identified by its path. *)
Definition last_record_path (route : Route C) : option string :=
  record_path <$> list.last (matched route).

(** Two routes agreeing on everything [confirmTransition] compares:
    path, query, hash and matched records. *)
Definition same_shape (a b : Route C) : Prop :=
  route_path a = route_path b /\ route_query a = route_query b /\
  route_hash a = route_hash b /\ matched a = matched b.

(** The duplicate test of [confirmTransition] against a current route
    that is not [START]. *)
Definition duplicate_of (route cur : Route C) : bool :=
  isSameRoute route (Some cur) && Nat.eqb (length (matched route)) (length (matched cur))
  && bool_decide (last_record_path route = last_record_path cur).

(** [confirmTransition(route, onComplete, onAbort)] with the
    [onComplete] of its callers ([updateRoute]): the duplicate test
    against [this.current], then the new current route. *)
Definition confirmTransition (h : History) (route : Route C) : NavigationFailure + History :=
  if isSameRoute route (current h)
     && Nat.eqb (length (matched route)) (length (matched (current_route h)))
     && bool_decide (last_record_path route = last_record_path (current_route h))
  then inl (NavigationDuplicated route)
  else inr (mkHistory (history_router h) (Some route)).

(** [transitionTo(location)]: [this.router.match(location, this.current)],
    then [confirmTransition] of the route. *)
Definition transitionTo (h : History) (raw : RawLocation) : NavigationFailure + History :=
  confirmTransition h (router_match (history_router h) raw (route_path (current_route h))).

(** The histories of a router reachable from [START]. *)
Inductive reachable (r : VueRouter C) : History -> Prop :=
| reach_start : reachable r (mkHistory r None)
| reach_step h raw h' : reachable r h -> transitionTo h raw = inr h' -> reachable r h'.

End History.

Arguments History : clear implicits.
Arguments NavigationFailure : clear implicits.

(** ** Lemmas *)

Lemma transitionTo_router {C} (h h' : History C) raw :
  transitionTo h raw = inr h' -> history_router h' = history_router h.
Proof.
  unfold transitionTo, confirmTransition. destruct (_ && _); [discriminate|]. by intros [= <-].
Qed.

Lemma transitionTo_current {C} (h h' : History C) raw :
  transitionTo h raw = inr h' ->
  current h' = Some (router_match (history_router h) raw (route_path (current_route h))).
Proof.
  unfold transitionTo, confirmTransition. destruct (_ && _); [discriminate|]. by intros [= <-].
Qed.

(** Every reachable history belongs to its router. *)
Lemma reachable_router {C} (r : VueRouter C) h : reachable r h -> history_router h = r.
Proof.
  induction 1 as [|h raw h' Hr IH Ht]; [done|].
  by rewrite (transitionTo_router _ _ _ Ht).
Qed.

(** A reachable history is the start or the route some location string
    matched from a reachable history. *)
Lemma reachable_current {C} (r : VueRouter C) h :
  reachable r h ->
  current h = None \/
  exists raw cur, current h = Some (router_match r raw cur).
Proof.
  induction 1 as [|h raw h' Hr IH Ht]; [by left|]. right.
  exists raw, (route_path (current_route h)).
  rewrite (transitionTo_current _ _ _ Ht). by rewrite (reachable_router _ _ Hr).
Qed.

Lemma createRoute_path_nonempty {C} (record : option (RouteRecord C)) loc :
  route_path (createRoute record loc) <> "".
Proof. unfold createRoute; simpl. by destruct (String.eqb_spec (loc_path loc) ""). Qed.

Lemma matcher_match_path_nonempty {C} (rm : RouteMap C) loc :
  route_path (matcher_match rm loc) <> "".
Proof.
  unfold matcher_match.
  destruct (truthy_name _); [destruct (nameMap rm !! _)|destruct (String.eqb _ _)];
    auto using createRoute_path_nonempty.
Qed.

Lemma router_match_path_nonempty {C} (r : VueRouter C) raw cur :
  route_path (router_match r raw cur) <> "".
Proof. apply matcher_match_path_nonempty. Qed.

#[export] Hint Resolve createRoute_path_nonempty router_match_path_nonempty : router.

Lemma isSameRoute_refl {C} (a : Route C) : route_path a <> "" -> isSameRoute a (Some a) = true.
Proof.
  intros Ha. unfold isSameRoute. rewrite (proj2 (String.eqb_neq _ _) Ha). simpl.
  by rewrite !String.eqb_refl.
Qed.

(** An absolute location does not depend on the current route. *)
Lemma normalizeLocation_absolute raw cur cur' :
  starts_with_slash (pp_path (parsePath raw)) = true ->
  normalizeLocation raw cur = normalizeLocation raw cur'.
Proof.
  unfold normalizeLocation, string_location. destruct (pp_path (parsePath raw)) as [|c p] eqn:E; [discriminate|].
  simpl. intros Hc. unfold resolvePath. by rewrite bool_decide_true by (apply Ascii.eqb_eq in Hc as ->; done).
Qed.

Lemma router_match_absolute {C} (r : VueRouter C) raw cur cur' :
  starts_with_slash (pp_path (parsePath raw)) = true ->
  router_match r raw cur = router_match r raw cur'.
Proof. intros Habs. unfold router_match. by rewrite (normalizeLocation_absolute raw cur cur'). Qed.

(** Navigating twice to the same absolute location: the second
    navigation is aborted with [NavigationDuplicated]. *)
Lemma transitionTo_twice {C} (h h' : History C) raw :
  starts_with_slash (pp_path (parsePath raw)) = true ->
  transitionTo h raw = inr h' ->
  exists route, transitionTo h' raw = inl (NavigationDuplicated route).
Proof.
  intros Habs Ht. pose proof (transitionTo_router _ _ _ Ht) as Hr.
  pose proof (transitionTo_current _ _ _ Ht) as Hc.
  set (route1 := router_match (history_router h) raw (route_path (current_route h))) in Hc.
  assert (current_route h' = route1) as Hcr by (unfold current_route; by rewrite Hc).
  unfold transitionTo, confirmTransition. rewrite Hr, Hcr, Hc.
  rewrite (router_match_absolute _ raw (route_path route1) (route_path (current_route h)) Habs).
  fold route1. rewrite isSameRoute_refl by (unfold route1; auto with router).
  rewrite Nat.eqb_refl, bool_decide_true by done. by eexists.
Qed.

Lemma isSameRoute_hash {C} (a b : Route C) :
  route_path a <> "" -> route_path b <> "" -> route_hash a <> route_hash b ->
  isSameRoute a (Some b) = false.
Proof.
  intros Ha Hb Hh. unfold isSameRoute.
  rewrite (proj2 (String.eqb_neq _ _) Ha), (proj2 (String.eqb_neq _ _) Hb),
    (proj2 (String.eqb_neq _ _) Hh). simpl. by rewrite andb_false_r.
Qed.

(** A navigation whose route differs from the current one in its hash
    goes through. *)
Lemma transitionTo_new_hash {C} (h : History C) raw :
  (current h = None \/ route_path (current_route h) <> "") ->
  route_hash (router_match (history_router h) raw (route_path (current_route h)))
    <> route_hash (current_route h) ->
  transitionTo h raw =
  inr (mkHistory (history_router h)
                 (Some (router_match (history_router h) raw (route_path (current_route h))))).
Proof.
  intros Hcur Hh. unfold transitionTo, confirmTransition.
  replace (isSameRoute _ (current h)) with false; [done|].
  unfold current_route in *. destruct (current h) as [b|]; [|done].
  destruct Hcur as [Hn|Hb]; [discriminate|]. symmetry.
  apply isSameRoute_hash; [auto with router|exact Hb|exact Hh].
Qed.

(** The current route of a reachable history has a path. *)
Lemma reachable_current_path {C} (r : VueRouter C) h :
  reachable r h -> current h = None \/ route_path (current_route h) <> "".
Proof.
  intros Hr. destruct (reachable_current _ _ Hr) as [Hn|(raw & cur & Hs)]; [by left|].
  right. unfold current_route. rewrite Hs. apply router_match_path_nonempty.
Qed.

(** ** The duplicate test *)

Section Duplicate.
Context {C : Type}.
Implicit Types a b : Route C.

Lemma transitionTo_Some (h : History C) c raw :
  current h = Some c ->
  transitionTo h raw =
  let route := router_match (history_router h) raw (route_path c) in
  if duplicate_of route c then inl (NavigationDuplicated route)
  else inr (mkHistory (history_router h) (Some route)).
Proof. intros Hc. unfold transitionTo, confirmTransition, current_route, duplicate_of. by rewrite Hc. Qed.

Lemma duplicate_of_shape (a a' b b' : Route C) :
  route_path a <> "" -> route_path b <> "" -> same_shape a a' -> same_shape b b' ->
  duplicate_of a b = duplicate_of a' b'.
Proof.
  intros Ha Hb (Hp & Hq & Hh & Hm) (Hp' & Hq' & Hh' & Hm').
  unfold duplicate_of, isSameRoute, last_record_path.
  rewrite <- Hp, <- Hq, <- Hh, <- Hm, <- Hp', <- Hq', <- Hh', <- Hm'. by rewrite (proj2 (String.eqb_neq _ _) Ha), (proj2 (String.eqb_neq _ _) Hb).
Qed.

Lemma isSameRoute_fields a b :
  route_path a <> "" -> route_path a = route_path b -> route_query a = route_query b ->
  route_hash a = route_hash b -> isSameRoute a (Some b) = true.
Proof.
  intros Ha Hp Hq Hh. unfold isSameRoute. rewrite <- Hp, <- Hq, <- Hh.
  rewrite (proj2 (String.eqb_neq _ _) Ha). simpl. by rewrite !String.eqb_refl.
Qed.

Lemma isSameRoute_sym a b :
  route_path a <> "" -> route_path b <> "" -> isSameRoute a (Some b) = isSameRoute b (Some a).
Proof.
  intros Ha Hb. unfold isSameRoute.
  rewrite (proj2 (String.eqb_neq _ _) Ha), (proj2 (String.eqb_neq _ _) Hb). simpl.
  by rewrite (String.eqb_sym (strip_trailing_slash (route_path a))), (String.eqb_sym (route_hash a)),
    (String.eqb_sym (route_query a)).
Qed.

Lemma duplicate_of_sym a b :
  route_path a <> "" -> route_path b <> "" -> duplicate_of a b = duplicate_of b a.
Proof.
  intros Ha Hb. unfold duplicate_of. rewrite isSameRoute_sym, Nat.eqb_sym by done.
  do 2 f_equal. apply bool_decide_ext. split; congruence.
Qed.

(** A navigation is rejected only against a current route of which its
    route is a duplicate. *)
Lemma transitionTo_inl (h : History C) raw e :
  transitionTo h raw = inl e ->
  exists c, current h = Some c /\
    duplicate_of (router_match (history_router h) raw (route_path c)) c = true.
Proof.
  destruct (current h) as [c|] eqn:Hc.
  - rewrite (transitionTo_Some _ _ _ Hc). cbv zeta. intros He. exists c. split; [done|].
    by destruct (duplicate_of _ _).
  - unfold transitionTo, confirmTransition. by rewrite Hc.
Qed.

Lemma duplicate_of_refl a : route_path a <> "" -> duplicate_of a a = true.
Proof.
  intros Ha. unfold duplicate_of. rewrite isSameRoute_refl, Nat.eqb_refl by done.
  by rewrite bool_decide_true.
Qed.

(** Duplicates have paths equal up to a final slash, and equal queries
    and hashes. *)
Lemma duplicate_of_fields a b :
  route_path a <> "" -> route_path b <> "" -> duplicate_of a b = true ->
  strip_trailing_slash (route_path a) = strip_trailing_slash (route_path b) /\
  route_query a = route_query b /\ route_hash a = route_hash b.
Proof.
  intros Ha Hb. unfold duplicate_of, isSameRoute.
  rewrite (proj2 (String.eqb_neq _ _) Ha), (proj2 (String.eqb_neq _ _) Hb). simpl.
  intros H. bool_to_prop. done.
Qed.

(** Duplicates of one route are duplicates of each other. *)
Lemma duplicate_of_trans a b c :
  route_path a <> "" -> route_path b <> "" -> route_path c <> "" ->
  duplicate_of a b = true -> duplicate_of b c = true -> duplicate_of a c = true.
Proof.
  intros Ha Hb Hc. unfold duplicate_of, isSameRoute.
  rewrite (proj2 (String.eqb_neq _ _) Ha), (proj2 (String.eqb_neq _ _) Hb),
    (proj2 (String.eqb_neq _ _) Hc). simpl.
  rewrite !andb_true_iff, !String.eqb_eq, !Nat.eqb_eq, !bool_decide_eq_true. naive_solver congruence.
Qed.

(** The two outcomes of [confirmTransition]: a duplicate of a current
    route that is not [START], or the route made current. *)
Lemma confirmTransition_inl (h : History C) route e :
  confirmTransition h route = inl e ->
  e = NavigationDuplicated route /\ exists c, current h = Some c /\ duplicate_of route c = true.
Proof.
  unfold confirmTransition, current_route, duplicate_of.
  destruct (current h) as [c|]; [|done]. cbn [default].
  destruct (_ && _) eqn:E; intros [= <-]. split; [done|]. by exists c.
Qed.

Lemma confirmTransition_inr (h h' : History C) route :
  confirmTransition h route = inr h' -> h' = mkHistory (history_router h) (Some route).
Proof. unfold confirmTransition. destruct (_ && _); [done|]. by intros [= <-]. Qed.

Lemma confirmTransition_Some (h : History C) c route :
  current h = Some c ->
  confirmTransition h route =
  if duplicate_of route c then inl (NavigationDuplicated route)
  else inr (mkHistory (history_router h) (Some route)).
Proof. intros Hc. unfold confirmTransition, current_route, duplicate_of. by rewrite Hc. Qed.

End Duplicate.

