(* ===== verification/HashHistory.v ===== *)
(** * Hash mode: vue-router's [history/hash.js] on the browser's session history

    The exported router has no [mode] option, so in a browser it runs in
    [hash] mode: the route lives in the URL fragment.  This file models
    the [HashHistory] of vue-router 3 (3.4 and later, where [getHash]
    does not decode) together with the part of the browser it drives.

    - [Browser] is the session history of the page: the fragments of its
      entries, the index of the current entry, the number of routing
      events queued and not yet dispatched, and whether the router's
      listener is registered.  [getHash] reads the current fragment.
    - The browser operations: [navigate_fragment] ([location.hash = p],
      or the user editing the fragment), [replace_fragment]
      ([location.replace]), [pushState] and [replaceState] (no event),
      [history_go] ([history.go(n)], the back and forward buttons).
    - vue-router's helpers [pushHash], [replaceHash] (through
      [history.pushState] when [supportsPushState], through [location]
      otherwise), [ensureSlash], [ensureURL]; [hash_transitionTo] is
      [transitionTo] with the URL effects of its callbacks; [hash_push],
      [hash_replace], [hash_go], [handleRoutingEvent] (the [popstate] or
      [hashchange] listener), [setupListeners], [HashHistory_new] (the
      constructor) and [hash_init] (the transition of [router.init]).
    - [hash_step] runs one [UserAction], [hash_run] a sequence of them,
      and [hash_reachable] is the set of states a router's page reaches.

    Events carry no data the listener reads (it reads [getHash()]), so
    the queue is a counter; an event dispatched while no listener is
    registered is dropped. *)

From S2P Require Import Prelude Path RouteMap Matcher VueRouter History.
Local Open Scope list_scope.

(** ** The browser *)

Record Browser := mkBrowser {
  entries : list string;
  index : nat;
  pending : nat;
  listening : bool
}.

(** A page just loaded at a URL whose fragment is [p] ([""] without one). *)
Definition fresh_page (p : string) : Browser := mkBrowser [p] 0 0 false.

(** [getHash()]: the text after the first [#] of [window.location.href]. *)
Definition getHash (b : Browser) : string :=
  match entries b !! index b with Some p => p | None => "" end.

Definition with_pending (n : nat) (b : Browser) : Browser :=
  mkBrowser (entries b) (index b) n (listening b).

(** [location.hash = p]: a new entry after the current one (the forward
    entries are dropped) and a routing event, unless the fragment does
    not change, in which case nothing happens. *)
Definition navigate_fragment (p : string) (b : Browser) : Browser :=
  if String.eqb p (getHash b) then b
  else mkBrowser (take (S (index b)) (entries b) ++ [p]) (S (index b))
                 (S (pending b)) (listening b).

(** [location.replace(url)] to a new fragment: the current entry is
    replaced and a routing event queued. *)
Definition replace_fragment (p : string) (b : Browser) : Browser :=
  if String.eqb p (getHash b) then b
  else mkBrowser (<[index b := p]> (entries b)) (index b) (S (pending b)) (listening b).

(** [history.pushState] and [history.replaceState]: no event. *)
Definition pushState (p : string) (b : Browser) : Browser :=
  mkBrowser (take (S (index b)) (entries b) ++ [p]) (S (index b)) (pending b) (listening b).

Definition replaceState (p : string) (b : Browser) : Browser :=
  mkBrowser (<[index b := p]> (entries b)) (index b) (pending b) (listening b).

Section HashHistory.
Context {C : Type}.

(** [supportsPushState] of [util/push-state.js], fixed for the page. *)
Variable supportsPushState : bool.

(** [window.history.go(n)]: out of range nothing happens; otherwise the
    current entry moves and the router's event is queued: [popstate]
    fires on every traversal, [hashchange] when the fragment changes.
    [go(0)] reloads the page and is not modelled (nothing happens). *)
Definition history_go (n : Z) (b : Browser) : Browser :=
  let target := (Z.of_nat (index b) + n)%Z in
  if bool_decide (n = 0%Z) || bool_decide (target < 0)%Z
     || bool_decide (length (entries b) <= Z.to_nat target)
  then b
  else
    let b' := mkBrowser (entries b) (Z.to_nat target) (pending b) (listening b) in
    if supportsPushState || negb (String.eqb (getHash b') (getHash b))
    then with_pending (S (pending b)) b' else b'.

(** ** [history/hash.js] *)

Record HashState := mkHashState {
  hs_history : History C;
  hs_browser : Browser
}.

(** [route.fullPath]: [getFullPath(location)], path, query and hash. *)
Definition fullPath (r : Route C) : string :=
  print_path (mkParsedPath (route_path r) (route_query r) (route_hash r)).

Definition pushHash (p : string) (b : Browser) : Browser :=
  if supportsPushState then pushState p b else navigate_fragment p b.

Definition replaceHash (p : string) (b : Browser) : Browser :=
  if supportsPushState then replaceState p b else replace_fragment p b.

(** [ensureSlash()]: a fragment that does not start with [/] is replaced
    by ['/' + path] and the caller is told to stop. *)
Definition ensureSlash (b : Browser) : bool * Browser :=
  let path := getHash b in
  if starts_with_slash path then (true, b) else (false, replaceHash ("/" +:+ path) b).

(** [ensureURL()]: the fragment is set to the current route's full path
    when it differs. *)
Definition ensureURL (h : History C) (b : Browser) : Browser :=
  let current := fullPath (current_route h) in
  if String.eqb (getHash b) current then b else replaceHash current b.

(** [transitionTo(location, onComplete, onAbort)] of [history/base.js]:
    on success [updateRoute], [onComplete(route)], then [ensureURL()]; on
    a duplicate navigation [ensureURL()] then [onAbort(err)]. *)
Definition hash_transitionTo (s : HashState) (raw : RawLocation)
    (onComplete : Route C -> Browser -> Browser) (onAbort : Browser -> Browser)
    : (NavigationFailure C + Route C) * HashState :=
  match transitionTo (hs_history s) raw with
  | inl err => (inl err, mkHashState (hs_history s) (onAbort (ensureURL (hs_history s) (hs_browser s))))
  | inr h' =>
      let route := current_route h' in
      (inr route, mkHashState h' (ensureURL h' (onComplete route (hs_browser s))))
  end.

(** [push(location)]: [pushHash(route.fullPath)] once the route is
    confirmed; the failure rejects the promise of [router.push]. *)
Definition hash_push (s : HashState) (raw : RawLocation) : (NavigationFailure C + Route C) * HashState :=
  hash_transitionTo s raw (fun route => pushHash (fullPath route)) id.

Definition hash_replace (s : HashState) (raw : RawLocation) : (NavigationFailure C + Route C) * HashState :=
  hash_transitionTo s raw (fun route => replaceHash (fullPath route)) id.

Definition hash_go (n : Z) (s : HashState) : HashState :=
  mkHashState (hs_history s) (history_go n (hs_browser s)).

(** [handleRoutingEvent] of [setupListeners]. *)
Definition handleRoutingEvent (s : HashState) : HashState :=
  let '(ok, b) := ensureSlash (hs_browser s) in
  if negb ok then mkHashState (hs_history s) b
  else snd (hash_transitionTo (mkHashState (hs_history s) b) (getHash b)
              (fun route b => if supportsPushState then b else replaceHash (fullPath route) b) id).

(** The browser dispatches the next queued routing event. *)
Definition dispatch_event (s : HashState) : HashState :=
  let b := hs_browser s in
  match pending b with
  | 0 => s
  | S n =>
      let s' := mkHashState (hs_history s) (with_pending n b) in
      if listening b then handleRoutingEvent s' else s'
  end.

(** [setupListeners()]: registers the listener once. *)
Definition setupListeners (b : Browser) : Browser :=
  mkBrowser (entries b) (index b) (pending b) true.

(** [new HashHistory(router, base, fallback)] with [fallback] false (the
    mode was not downgraded from [history]): [ensureSlash()]. *)
Definition HashHistory_new (r : VueRouter C) (b : Browser) : HashState :=
  mkHashState (mkHistory r None) (snd (ensureSlash b)).

(** The navigation of [router.init(app)]:
    [history.transitionTo(history.getCurrentLocation(), setupListeners,
    setupListeners)]. *)
Definition hash_init (s : HashState) : HashState :=
  snd (hash_transitionTo s (getHash (hs_browser s)) (fun _ => setupListeners) setupListeners).

(** ** Executions *)

Inductive UserAction :=
| Push (raw : RawLocation)     (** [router.push(raw)]: a string or [{ name }]; a [<router-link>] *)
| Replace (raw : RawLocation)  (** [router.replace(raw)] *)
| Go (n : Z)                   (** [router.go(n)], the back and forward buttons *)
| EditUrl (fragment : string)  (** the user edits the fragment in the address bar *)
| Dispatch.                    (** the browser runs the next queued routing event *)

Definition hash_step (s : HashState) (a : UserAction) : HashState :=
  match a with
  | Push raw => snd (hash_push s raw)
  | Replace raw => snd (hash_replace s raw)
  | Go n => hash_go n s
  | EditUrl p => mkHashState (hs_history s) (navigate_fragment p (hs_browser s))
  | Dispatch => dispatch_event s
  end.

Definition hash_run (s : HashState) (l : list UserAction) : HashState :=
  fold_left hash_step l s.

(** The states of a page of router [r] loaded at any URL. *)
Inductive hash_reachable (r : VueRouter C) : HashState -> Prop :=
| hreach_init p : hash_reachable r (hash_init (HashHistory_new r (fresh_page p)))
| hreach_step s a : hash_reachable r s -> hash_reachable r (hash_step s a).

(** Dispatching queued events until none is left, with fuel. *)
Fixpoint settle (fuel : nat) (s : HashState) : HashState :=
  match fuel with
  | 0 => s
  | S fuel' => if Nat.eqb (pending (hs_browser s)) 0 then s else settle fuel' (dispatch_event s)
  end.

End HashHistory.

Arguments HashState : clear implicits.

(** ** The bounds of the session history *)

(** The current entry exists. *)
Definition browser_wf (b : Browser) : Prop := index b < length (entries b).

Lemma fresh_page_wf p : browser_wf (fresh_page p).
Proof. unfold browser_wf; simpl; lia. Qed.

Lemma length_take_push (l : list string) i p :
  i < length l -> length (take (S i) l ++ [p]) = S (S i).
Proof. intros Hi. rewrite length_app, length_take. cbn [length]. lia. Qed.

Lemma navigate_fragment_wf p b : browser_wf b -> browser_wf (navigate_fragment p b).
Proof.
  unfold browser_wf, navigate_fragment. intros Hb.
  destruct (String.eqb _ _); simpl; [done|]. rewrite length_take_push; lia.
Qed.

Lemma replace_fragment_wf p b : browser_wf b -> browser_wf (replace_fragment p b).
Proof.
  unfold browser_wf, replace_fragment. intros Hb.
  destruct (String.eqb _ _); simpl; [done|]. by rewrite length_insert.
Qed.

Lemma pushState_wf p b : browser_wf b -> browser_wf (pushState p b).
Proof. unfold browser_wf, pushState. simpl. intros Hb. rewrite length_take_push; lia. Qed.

Lemma replaceState_wf p b : browser_wf b -> browser_wf (replaceState p b).
Proof. unfold browser_wf, replaceState. simpl. by rewrite length_insert. Qed.

Lemma with_pending_wf n b : browser_wf b -> browser_wf (with_pending n b).
Proof. done. Qed.

Lemma setupListeners_wf b : browser_wf b -> browser_wf (setupListeners b).
Proof. done. Qed.

Lemma history_go_wf sps n b : browser_wf b -> browser_wf (history_go sps n b).
Proof.
  unfold history_go. intros Hb.
  destruct (bool_decide (n = 0%Z) || _ || _) eqn:E; [done|].
  apply orb_false_iff in E as [E E3]. apply orb_false_iff in E as [_ E2].
  apply bool_decide_eq_false in E2, E3.
  assert (browser_wf (mkBrowser (entries b) (Z.to_nat (Z.of_nat (index b) + n)) (pending b) (listening b)))
    by (unfold browser_wf; simpl; lia).
  by destruct (_ || _).
Qed.

#[export] Hint Resolve fresh_page_wf navigate_fragment_wf replace_fragment_wf pushState_wf
  replaceState_wf with_pending_wf setupListeners_wf history_go_wf : router.

Section Wf.
Context {C : Type} (sps : bool).

Lemma pushHash_wf p b : browser_wf b -> browser_wf (pushHash sps p b).
Proof. unfold pushHash. destruct sps; auto with router. Qed.

Lemma replaceHash_wf p b : browser_wf b -> browser_wf (replaceHash sps p b).
Proof. unfold replaceHash. destruct sps; auto with router. Qed.

Hint Resolve pushHash_wf replaceHash_wf : router.

Lemma ensureSlash_wf b : browser_wf b -> browser_wf (snd (ensureSlash sps b)).
Proof. unfold ensureSlash. destruct (starts_with_slash _); simpl; auto with router. Qed.

Lemma ensureURL_wf (h : History C) b : browser_wf b -> browser_wf (ensureURL sps h b).
Proof. unfold ensureURL. destruct (String.eqb _ _); auto with router. Qed.

Hint Resolve ensureSlash_wf ensureURL_wf : router.

(** A transition keeps the bounds when its callbacks do. *)
Lemma hash_transitionTo_wf (s : HashState C) raw oc oa :
  browser_wf (hs_browser s) ->
  (forall route b, browser_wf b -> browser_wf (oc route b)) ->
  (forall b, browser_wf b -> browser_wf (oa b)) ->
  browser_wf (hs_browser (snd (hash_transitionTo sps s raw oc oa))).
Proof.
  intros Hb Hoc Hoa. unfold hash_transitionTo.
  destruct (transitionTo _ _); simpl; auto with router.
Qed.

Hint Resolve hash_transitionTo_wf : router.

Lemma handleRoutingEvent_wf (s : HashState C) :
  browser_wf (hs_browser s) -> browser_wf (hs_browser (handleRoutingEvent sps s)).
Proof.
  intros Hb. unfold handleRoutingEvent.
  pose proof (ensureSlash_wf _ Hb) as He. destruct (ensureSlash sps _) as [[|] b]; simpl in *;
    [|done]. apply hash_transitionTo_wf; [done| |done].
  intros route b' Hb'. destruct sps; auto with router.
Qed.

Lemma hash_step_wf (s : HashState C) a :
  browser_wf (hs_browser s) -> browser_wf (hs_browser (hash_step sps s a)).
Proof.
  intros Hb. destruct a; simpl; unfold hash_push, hash_replace; auto with router.
  unfold dispatch_event. destruct (pending _); [done|].
  destruct (listening _); [apply handleRoutingEvent_wf|]; done.
Qed.

Lemma hash_init_wf (r : VueRouter C) p :
  browser_wf (hs_browser (hash_init sps (HashHistory_new sps r (fresh_page p)))).
Proof.
  unfold hash_init, HashHistory_new.
  apply hash_transitionTo_wf; simpl; auto with router.
Qed.

(** Every reachable page has a current entry. *)
Lemma hash_reachable_wf (r : VueRouter C) s :
  hash_reachable sps r s -> browser_wf (hs_browser s).
Proof. induction 1; auto using hash_init_wf, hash_step_wf. Qed.

End Wf.

(** ** The listener stays registered *)

Lemma navigate_fragment_listening p b : listening (navigate_fragment p b) = listening b.
Proof. unfold navigate_fragment. by destruct (String.eqb _ _). Qed.

Lemma replace_fragment_listening p b : listening (replace_fragment p b) = listening b.
Proof. unfold replace_fragment. by destruct (String.eqb _ _). Qed.

Lemma history_go_listening sps n b : listening (history_go sps n b) = listening b.
Proof. unfold history_go. by repeat case_match. Qed.

Section Listening.
Context {C : Type} (sps : bool).

Lemma pushHash_listening p b : listening (pushHash sps p b) = listening b.
Proof. unfold pushHash. destruct sps; [done|apply navigate_fragment_listening]. Qed.

Lemma replaceHash_listening p b : listening (replaceHash sps p b) = listening b.
Proof. unfold replaceHash. destruct sps; [done|apply replace_fragment_listening]. Qed.

Lemma ensureURL_listening (h : History C) b : listening (ensureURL sps h b) = listening b.
Proof. unfold ensureURL. destruct (String.eqb _ _); [done|apply replaceHash_listening]. Qed.

Lemma ensureSlash_listening b : listening (snd (ensureSlash sps b)) = listening b.
Proof. unfold ensureSlash. destruct (starts_with_slash _); [done|apply replaceHash_listening]. Qed.


Lemma hash_transitionTo_listening_eq (s : HashState C) raw oc oa :
  (forall route b, listening (oc route b) = listening b) ->
  (forall b, listening (oa b) = listening b) ->
  listening (hs_browser (snd (hash_transitionTo sps s raw oc oa))) = listening (hs_browser s).
Proof.
  intros Hoc Hoa. unfold hash_transitionTo.
  destruct (transitionTo _ _); cbn [snd hs_browser]; by rewrite ?Hoa, ensureURL_listening, ?Hoc.
Qed.

Lemma handleRoutingEvent_listening (s : HashState C) :
  listening (hs_browser (handleRoutingEvent sps s)) = listening (hs_browser s).
Proof.
  unfold handleRoutingEvent. pose proof (ensureSlash_listening (hs_browser s)) as He.
  destruct (ensureSlash sps _) as [[|] b]; cbn [negb hs_browser fst snd] in *; [|done].
  rewrite hash_transitionTo_listening_eq; [done| |done].
  intros route b'. pose proof (replaceHash_listening (fullPath route) b'). destruct sps; congruence.
Qed.

(** No user action registers or removes the routing listener. *)
Lemma hash_step_listening_eq (s : HashState C) a :
  listening (hs_browser (hash_step sps s a)) = listening (hs_browser s).
Proof.
  destruct a; cbn [hash_step].
  - apply hash_transitionTo_listening_eq; [intros; apply pushHash_listening|done].
  - apply hash_transitionTo_listening_eq; [intros; apply replaceHash_listening|done].
  - apply history_go_listening.
  - apply navigate_fragment_listening.
  - unfold dispatch_event. destruct (pending _); [done|].
    destruct (listening (hs_browser s)) eqn:E; cbv zeta beta iota; [rewrite handleRoutingEvent_listening|]; exact E.
Qed.

Lemma hash_step_listening (s : HashState C) a :
  listening (hs_browser s) = true -> listening (hs_browser (hash_step sps s a)) = true.
Proof. intros Hb. by rewrite hash_step_listening_eq. Qed.

(** After [router.init], the routing listener is registered for good. *)
Lemma hash_reachable_listening (r : VueRouter C) s :
  hash_reachable sps r s -> listening (hs_browser s) = true.
Proof.
  induction 1 as [p|s a _ IH]; [|by apply hash_step_listening].
  unfold hash_init, hash_transitionTo. case_match; cbn [hs_browser snd]; [done|by rewrite ensureURL_listening].
Qed.

(** ** The hash-mode router refines the navigation machine *)

(** A transition either keeps the history or takes one step of
    [transitionTo]. *)
Lemma hash_transitionTo_history (s : HashState C) raw oc oa :
  hs_history (snd (hash_transitionTo sps s raw oc oa)) = hs_history s \/
  transitionTo (hs_history s) raw = inr (hs_history (snd (hash_transitionTo sps s raw oc oa))).
Proof. unfold hash_transitionTo. destruct (transitionTo _ _); simpl; auto. Qed.

Lemma hash_step_history (s : HashState C) a :
  hs_history (hash_step sps s a) = hs_history s \/
  exists raw, transitionTo (hs_history s) raw = inr (hs_history (hash_step sps s a)).
Proof.
  destruct a as [raw|raw|n|p|]; simpl; unfold hash_push, hash_replace; [..|auto|auto|].
  - destruct (hash_transitionTo_history s raw (fun route => pushHash sps (fullPath route)) id)
      as [->|?]; eauto.
  - destruct (hash_transitionTo_history s raw (fun route => replaceHash sps (fullPath route)) id)
      as [->|?]; eauto.
  - unfold dispatch_event. destruct (pending _); [auto|]. destruct (listening _); [|auto].
    unfold handleRoutingEvent. destruct (ensureSlash _ _) as [[|] b]; simpl; [|auto].
    destruct (hash_transitionTo_history (mkHashState (hs_history s) b) (getHash b)
               (fun route b => if sps then b else replaceHash sps (fullPath route) b) id)
      as [->|?]; eauto.
Qed.

(** Every history a hash-mode page reaches is reachable in the
    navigation machine of [History.v]. *)
Lemma hash_reachable_refines (r : VueRouter C) s :
  hash_reachable sps r s -> reachable r (hs_history s).
Proof.
  induction 1 as [p|s a _ IH].
  - destruct (hash_transitionTo_history (HashHistory_new sps r (fresh_page p))
                (getHash (hs_browser (HashHistory_new sps r (fresh_page p))))
                (fun _ => setupListeners) setupListeners) as [He|He];
      unfold hash_init; rewrite ?He; [constructor|].
    eapply reach_step; [constructor|exact He].
  - destruct (hash_step_history s a) as [->|[raw Ht]]; [done|].
    eapply reach_step; [exact IH|exact Ht].
Qed.

(** After [router.init], the page always has a current route: the first
    navigation from [START] cannot be a duplicate. *)
Lemma hash_reachable_started (r : VueRouter C) s :
  hash_reachable sps r s -> current (hs_history s) <> None.
Proof.
  induction 1 as [p|s a _ IH].
  - unfold hash_init, hash_transitionTo, transitionTo. cbn [HashHistory_new hs_history current].
    simpl. discriminate.
  - destruct (hash_step_history s a) as [->|[raw Ht]]; [done|].
    by rewrite (transitionTo_current _ _ _ Ht).
Qed.

End Listening.

(** ** Growth of the session history: one entry per action at most *)

Definition entry_count (b : Browser) : nat := length (entries b).

Lemma navigate_fragment_count p b :
  browser_wf b -> entry_count (navigate_fragment p b) <= S (entry_count b).
Proof.
  unfold browser_wf, entry_count, navigate_fragment. intros Hb.
  destruct (String.eqb _ _); simpl; [lia|]. rewrite length_take_push; lia.
Qed.

Lemma pushState_count p b : browser_wf b -> entry_count (pushState p b) <= S (entry_count b).
Proof. unfold browser_wf, entry_count. simpl. intros Hb. rewrite length_take_push; lia. Qed.

Lemma replace_fragment_count p b : entry_count (replace_fragment p b) = entry_count b.
Proof. unfold entry_count, replace_fragment. destruct (String.eqb _ _); [done|apply length_insert]. Qed.

Lemma replaceState_count p b : entry_count (replaceState p b) = entry_count b.
Proof. apply length_insert. Qed.

Lemma history_go_count sps n b : entry_count (history_go sps n b) = entry_count b.
Proof. unfold history_go. by repeat case_match. Qed.

Section Growth.
Context {C : Type} (sps : bool).

Lemma pushHash_count p b : browser_wf b -> entry_count (pushHash sps p b) <= S (entry_count b).
Proof. unfold pushHash. destruct sps; auto using pushState_count, navigate_fragment_count. Qed.

Lemma replaceHash_count p b : entry_count (replaceHash sps p b) = entry_count b.
Proof. unfold replaceHash. destruct sps; auto using replaceState_count, replace_fragment_count. Qed.

Lemma ensureURL_count (h : History C) b : entry_count (ensureURL sps h b) = entry_count b.
Proof. unfold ensureURL. destruct (String.eqb _ _); [done|apply replaceHash_count]. Qed.

Lemma ensureSlash_count b : entry_count (snd (ensureSlash sps b)) = entry_count b.
Proof. unfold ensureSlash. destruct (starts_with_slash _); [done|apply replaceHash_count]. Qed.

(** A transition adds at most the entries its completion callback adds. *)
Lemma hash_transitionTo_count (s : HashState C) raw oc oa k :
  browser_wf (hs_browser s) ->
  (forall route b, browser_wf b -> entry_count (oc route b) <= entry_count b + k) ->
  (forall b, entry_count (oa b) = entry_count b) ->
  entry_count (hs_browser (snd (hash_transitionTo sps s raw oc oa))) <= entry_count (hs_browser s) + k.
Proof.
  intros Hb Hoc Hoa. unfold hash_transitionTo.
  destruct (transitionTo _ _); cbn [snd hs_browser]; rewrite ?Hoa, ensureURL_count; [lia|].
  by apply Hoc.
Qed.

Lemma hash_step_count (s : HashState C) a :
  browser_wf (hs_browser s) -> entry_count (hs_browser (hash_step sps s a)) <= S (entry_count (hs_browser s)).
Proof.
  intros Hb. rewrite <- Nat.add_1_r. destruct a as [raw|raw|n|p|]; cbn [hash_step].
  - apply hash_transitionTo_count; [done| |done]. intros route b' Hb'.
    rewrite Nat.add_1_r. by apply pushHash_count.
  - apply hash_transitionTo_count; [done| |done]. intros route b' Hb'. rewrite replaceHash_count. lia.
  - unfold hash_go. cbn [hs_browser]. rewrite history_go_count. lia.
  - cbn [hs_browser]. rewrite Nat.add_1_r. by apply navigate_fragment_count.
  - unfold dispatch_event. destruct (pending _); [lia|].
    destruct (listening _); [|unfold entry_count; simpl; lia].
    unfold handleRoutingEvent.
    assert (entry_count (snd (ensureSlash sps (with_pending n (hs_browser s))))
            = entry_count (hs_browser s)) as Hc by (rewrite ensureSlash_count; done).
    pose proof (ensureSlash_wf sps (with_pending n (hs_browser s)) ltac:(by apply with_pending_wf)) as Hw.
    destruct (ensureSlash sps _) as [[|] b']; cbn [negb hs_browser snd] in *; [|lia].
    etransitivity; [apply (hash_transitionTo_count (mkHashState (hs_history s) b') _ _ _ 0)|];
      cbn [hs_browser]; [done| |done|lia].
    intros route b'' Hb''. pose proof (replaceHash_count (fullPath route) b''). destruct sps; lia.
Qed.

End Growth.

Section RunBounds.
Context {C : Type} (sps : bool).

Lemma hash_init_count (r : VueRouter C) p :
  entry_count (hs_browser (hash_init sps (HashHistory_new sps r (fresh_page p)))) <= 1.
Proof.
  unfold hash_init. etransitivity; [apply (hash_transitionTo_count sps _ _ _ _ 0)|].
  - unfold HashHistory_new; cbn [hs_browser]. apply ensureSlash_wf, fresh_page_wf.
  - intros. unfold setupListeners, entry_count; simpl. lia.
  - done.
  - unfold HashHistory_new; cbn [hs_browser]. rewrite ensureSlash_count. done.
Qed.

(** A run of [n] actions from a page with a current entry leaves it with
    a current entry and at most [n] entries more. *)
Lemma hash_run_bounds (s : HashState C) l :
  browser_wf (hs_browser s) ->
  browser_wf (hs_browser (hash_run sps s l)) /\
  entry_count (hs_browser (hash_run sps s l)) <= entry_count (hs_browser s) + length l.
Proof.
  revert s. induction l as [|a l IH]; intros s Hb; simpl; [split; [done|lia]|].
  destruct (IH (hash_step sps s a)) as [Hw Hc]; [by apply hash_step_wf|].
  split; [done|]. pose proof (hash_step_count sps s a Hb). lia.
Qed.

End RunBounds.
