(* ===== verification/HashSync.v ===== *)
(** * The URL and the route agree: hash mode in sync

    The routes [router.match] builds from location strings are well
    formed ([route_wf]: an absolute path without [?] or [#], a query
    without [#], a hash that is empty or starts with [#]); such a route
    is recovered from its [fullPath] ([router_match_fullPath]), and a
    route that matched is a fixed point of matching its own full path
    ([router_match_fixed]).  A name leads to a well-formed route when
    the named records have absolute paths ([named_paths_ok]), and a
    route reached by name is matched again from its full path when each
    named record is the record its path matches ([named_self_match]).

    On a reachable hash-mode page whose browser lacks [pushState], once
    no routing event is queued the fragment is the current route's full
    path ([hash_reachable_in_sync]); with [pushState] the same holds as
    long as the user never types a fragment without a leading slash
    ([slashed_run_in_sync]).  Dispatching the queued events terminates:
    [settle] with [pending + 2] rounds of fuel empties the queue
    ([settle_quiescent]), by a measure that decreases at each dispatch
    ([dispatch_measure]). *)

From S2P Require Import Prelude Path RouteMap Matcher VueRouter History HashHistory.
Local Open Scope list_scope.

(** A path the matcher may be given as the current one. *)
Definition path_ok (p : string) : bool :=
  (String.eqb p "" || starts_with_slash p)
  && negb (char_in "?"%char p) && negb (char_in "#"%char p).

Section RouteWf.
Context {C : Type}.

Definition route_wf (r : Route C) : bool :=
  starts_with_slash (route_path r)
  && parsed_wf (mkParsedPath (route_path r) (route_query r) (route_hash r)).

End RouteWf.

(** ** Lemmas *)

Lemma path_ok_slash p : starts_with_slash p = true -> negb (char_in "?"%char p) = true ->
  negb (char_in "#"%char p) = true -> path_ok p = true.
Proof. intros H1 H2 H3. unfold path_ok. by rewrite H1, H2, H3, orb_true_r. Qed.

Lemma normalizeLocation_ok (raw : string) cur :
  path_ok cur = true ->
  path_ok (loc_path (normalizeLocation raw cur)) = true /\
  parsed_wf (mkParsedPath (loc_path (normalizeLocation raw cur))
                          (loc_query (normalizeLocation raw cur))
                          (loc_hash (normalizeLocation raw cur))) = true.
Proof.
  intros Hcur. destruct (parsePath_split raw) as [Hwf _].
  unfold normalizeLocation, string_location. destruct (parsePath raw) as [p q h]. simpl.
  unfold parsed_wf in *; simpl in *. bool_to_prop.
  set (base := if String.eqb cur "" then "/" else cur).
  assert (path_ok base = true) as Hb
    by (unfold base; destruct (String.eqb_spec cur ""); [reflexivity|done]).
  assert (path_ok (if String.eqb p "" then base else resolvePath p base false) = true) as Hp.
  { destruct (String.eqb p ""); [done|].
    unfold path_ok in Hb. bool_to_prop.
    pose proof (resolvePath_lacks "?"%char ltac:(done) p base false) as Hlq.
    pose proof (resolvePath_lacks "#"%char ltac:(done) p base false) as Hlh.
    unfold lacks in *. unfold path_ok. rewrite Hlq, Hlh by done.
    destruct (resolvePath_absolute p base false ltac:(assumption) ltac:(assumption)) as [He|He];
      rewrite He; [done|].
    by rewrite orb_true_r. }
  split; [done|]. unfold path_ok in Hp. bool_to_prop.
  repeat (apply andb_true_intro; split); rewrite ?negb_true_iff; done.
Qed.

Section Sync.
Context {C : Type}.

Lemma START_wf : route_wf (C:=C) START = true.
Proof. reflexivity. Qed.

Lemma route_wf_path_ok (r : Route C) : route_wf r = true -> path_ok (route_path r) = true.
Proof.
  unfold route_wf, parsed_wf; simpl. intros H. bool_to_prop.
  apply path_ok_slash; [done|by apply negb_true_iff..].
Qed.

(** Every route matched from a location string is well formed. *)
Lemma router_match_wf (rt : VueRouter C) (raw : string) cur :
  path_ok cur = true -> route_wf (router_match rt raw cur) = true.
Proof.
  intros Hcur. destruct (normalizeLocation_ok raw cur Hcur) as [Hp Hw].
  pose proof (normalizeLocation_unnamed raw cur) as Hu. unfold router_match.
  remember (normalizeLocation raw cur) as loc eqn:Hloc. clear Hloc.
  destruct loc as [n p q h]; simpl in *. injection Hu as ->.
  destruct (String.eqb_spec p "") as [->|Hne].
  - exact Hw.
  - rewrite matcher_match_unnamed by done. unfold createRoute, route_wf; simpl.
    rewrite (proj2 (String.eqb_neq _ _) Hne), Hw, andb_true_r.
    unfold path_ok in Hp. apply andb_prop in Hp as [[Hp _]%andb_prop _].
    apply orb_true_iff in Hp as [Hp|Hp]; [|done]. by apply String.eqb_eq in Hp.
Qed.

(** The records a name leads to have paths that are empty or absolute,
    without [?] or [#]. *)
Definition named_paths_ok (rm : RouteMap C) : Prop :=
  forall n r, nameMap rm !! n = Some r -> path_ok (record_path r) = true.
(** The history side of the invariant: a well-formed current route and
    a router whose named records have well-formed paths. *)
Definition history_ok (h : History C) : Prop :=
  route_wf (current_route h) = true /\ named_paths_ok (matcher (history_router h)).

Lemma createRoute_named_wf (record : option (RouteRecord C)) n pth :
  path_ok pth = true -> route_wf (createRoute record (mkLocation (Some n) pth "" "")) = true.
Proof.
  unfold path_ok, createRoute, route_wf, parsed_wf; simpl. intros H. bool_to_prop.
  destruct (String.eqb_spec pth "") as [_|Hne]; [reflexivity|].
  apply orb_true_iff in H as [H|H]; [discriminate|]. rewrite H.
  by repeat (apply andb_true_intro; split); rewrite ?negb_true_iff.
Qed.

(** A named location leads to a well-formed route. *)
Lemma router_match_named_wf (rt : VueRouter C) n cur :
  named_paths_ok (matcher rt) -> path_ok cur = true -> route_wf (router_match rt (LocNamed n) cur) = true.
Proof.
  intros Hn Hcur. unfold router_match, normalizeLocation.
  destruct (String.eqb_spec n "") as [->|Hne]; [by apply (router_match_wf rt "")|].
  unfold matcher_match. cbn [loc_name truthy_name]. rewrite (proj2 (String.eqb_neq _ _) Hne).
  destruct (nameMap (matcher rt) !! n) as [r|] eqn:E; apply createRoute_named_wf; [|done].
  exact (Hn _ _ E).
Qed.

Lemma router_match_any_wf (rt : VueRouter C) (raw : RawLocation) cur :
  named_paths_ok (matcher rt) -> path_ok cur = true -> route_wf (router_match rt raw cur) = true.
Proof. intros Hn Hcur. destruct raw; [by apply router_match_wf|by apply router_match_named_wf]. Qed.

Lemma fullPath_parse (r : Route C) :
  route_wf r = true -> parsePath (fullPath r) = mkParsedPath (route_path r) (route_query r) (route_hash r).
Proof. unfold route_wf. intros H. bool_to_prop. by apply parsePath_print. Qed.

Lemma starts_with_slash_nonempty p : starts_with_slash p = true -> p <> "".
Proof. by destruct p. Qed.

Lemma route_wf_slash (r : Route C) : route_wf r = true -> starts_with_slash (route_path r) = true.
Proof. unfold route_wf. intros H. by bool_to_prop. Qed.

(** The full path of a well-formed route is ["/"] exactly for the root
    path without query or hash. *)
Lemma fullPath_root (r : Route C) :
  route_wf r = true ->
  fullPath r = "/" <-> route_path r = "/" /\ route_query r = "" /\ route_hash r = "".
Proof.
  intros Hwf. split.
  - intros H. pose proof (fullPath_parse r Hwf) as Hp. rewrite H in Hp.
    change (parsePath "/") with (mkParsedPath "/" "" "") in Hp. by injection Hp as <- <- <-.
  - intros (Hp & Hq & Hh). unfold fullPath. by rewrite Hp, Hq, Hh.
Qed.

(** The full path of a well-formed route normalises back to the route's
    own path, query and hash, from every current path. *)
Lemma normalizeLocation_fullPath (r : Route C) cur :
  route_wf r = true ->
  normalizeLocation (fullPath r) cur = mkLocation None (route_path r) (route_query r) (route_hash r).
Proof.
  intros Hr. unfold normalizeLocation, string_location. rewrite fullPath_parse by done. simpl.
  assert (starts_with_slash (route_path r) = true) as Hs
    by (unfold route_wf in Hr; bool_to_prop; tauto).
  rewrite (proj2 (String.eqb_neq _ _) (starts_with_slash_nonempty _ Hs)).
  unfold resolvePath. destruct (route_path r) as [|a p]; [done|].
  simpl in Hs. apply Ascii.eqb_eq in Hs as ->. by rewrite bool_decide_true.
Qed.

(** Navigating to a route's full path gives a route with the same
    path, query and hash. *)
Lemma router_match_fullPath_fields (rt : VueRouter C) (r : Route C) cur :
  route_wf r = true ->
  route_path (router_match rt (fullPath r) cur) = route_path r /\
  route_query (router_match rt (fullPath r) cur) = route_query r /\
  route_hash (router_match rt (fullPath r) cur) = route_hash r.
Proof.
  intros Hr. unfold router_match. rewrite normalizeLocation_fullPath by done.
  assert (route_path r <> "") as Hne
    by (apply starts_with_slash_nonempty; unfold route_wf in Hr; bool_to_prop; tauto).
  rewrite matcher_match_unnamed by done. unfold createRoute; simpl.
  by rewrite (proj2 (String.eqb_neq _ _) Hne).
Qed.

(** Navigating to a route's full path reproduces that full path. *)
Lemma router_match_fullPath (rt : VueRouter C) (r : Route C) cur :
  route_wf r = true -> fullPath (router_match rt (fullPath r) cur) = fullPath r.
Proof.
  intros Hr. destruct (router_match_fullPath_fields rt r cur Hr) as (Hp & Hq & Hh).
  unfold fullPath at 1. by rewrite Hp, Hq, Hh.
Qed.

(** A route whose location had a path is the route its full path
    matches. *)
Lemma router_match_fixed (rt : VueRouter C) (raw : string) cur cur' :
  path_ok cur = true -> loc_path (normalizeLocation raw cur) <> "" ->
  router_match rt (fullPath (router_match rt raw cur)) cur' = router_match rt raw cur.
Proof.
  intros Hcur Hne. pose proof (router_match_wf rt raw cur Hcur) as Hwf.
  unfold router_match at 1. rewrite normalizeLocation_fullPath by done.
  unfold router_match in *. pose proof (normalizeLocation_unnamed raw cur) as Hu.
  remember (normalizeLocation raw cur) as loc eqn:Hloc. clear Hloc.
  destruct loc as [n p q h]; simpl in *. injection Hu as ->.
  rewrite (matcher_match_unnamed _ p q h Hne).
  cbn [createRoute route_path route_query route_hash loc_path loc_query loc_hash].
  rewrite (proj2 (String.eqb_neq _ _) Hne). by rewrite (matcher_match_unnamed _ p q h Hne).
Qed.

End Sync.

(** ** The fragment after each operation *)

Lemma getHash_push_entry (b : Browser) p :
  browser_wf b -> (take (S (index b)) (entries b) ++ [p]) !! S (index b) = Some p.
Proof.
  intros Hb. apply list_lookup_middle. rewrite length_take. unfold browser_wf in Hb. lia.
Qed.

Lemma getHash_navigate_fragment p b : browser_wf b -> getHash (navigate_fragment p b) = p.
Proof.
  intros Hb. unfold navigate_fragment. destruct (String.eqb_spec p (getHash b)) as [->|]; [done|].
  unfold getHash at 1; simpl. by rewrite getHash_push_entry.
Qed.

Lemma getHash_replace_fragment p b : browser_wf b -> getHash (replace_fragment p b) = p.
Proof.
  intros Hb. unfold replace_fragment. destruct (String.eqb_spec p (getHash b)) as [->|]; [done|].
  unfold getHash at 1; simpl. by rewrite list_lookup_insert_eq.
Qed.

Lemma getHash_pushState p b : browser_wf b -> getHash (pushState p b) = p.
Proof. intros Hb. unfold getHash, pushState; simpl. by rewrite getHash_push_entry. Qed.

Lemma getHash_replaceState p b : browser_wf b -> getHash (replaceState p b) = p.
Proof. intros Hb. unfold getHash, replaceState; simpl. by rewrite list_lookup_insert_eq. Qed.

(** A fragment operation that leaves no event queued did nothing. *)
Lemma navigate_fragment_quiet p b :
  pending (navigate_fragment p b) = 0 -> navigate_fragment p b = b.
Proof. unfold navigate_fragment. by destruct (String.eqb _ _). Qed.

Lemma replace_fragment_quiet p b :
  pending (replace_fragment p b) = 0 -> replace_fragment p b = b.
Proof. unfold replace_fragment. by destruct (String.eqb _ _). Qed.

Lemma history_go_quiet sps n b :
  pending (history_go sps n b) = 0 ->
  pending b = 0 /\ getHash (history_go sps n b) = getHash b.
Proof.
  unfold history_go. destruct (_ || _ || _); [done|].
  destruct (sps || _) eqn:E; [done|]. simpl.
  apply orb_false_iff in E as [_ E]. apply negb_false_iff, String.eqb_eq in E. done.
Qed.

Section Fragment.
Context {C : Type} (sps : bool).

Lemma getHash_pushHash p b : browser_wf b -> getHash (pushHash sps p b) = p.
Proof. unfold pushHash. destruct sps; auto using getHash_pushState, getHash_navigate_fragment. Qed.

Lemma getHash_replaceHash p b : browser_wf b -> getHash (replaceHash sps p b) = p.
Proof. unfold replaceHash. destruct sps; auto using getHash_replaceState, getHash_replace_fragment. Qed.

Lemma getHash_ensureURL (h : History C) b :
  browser_wf b -> getHash (ensureURL sps h b) = fullPath (current_route h).
Proof.
  intros Hb. unfold ensureURL. destruct (String.eqb_spec (getHash b) (fullPath (current_route h)));
    [done|by apply getHash_replaceHash].
Qed.

Lemma ensureURL_synced (h : History C) b :
  getHash b = fullPath (current_route h) -> ensureURL sps h b = b.
Proof. intros H. unfold ensureURL. by rewrite H, String.eqb_refl. Qed.

(** After a transition whose abort callback leaves the fragment alone,
    the fragment is the current route's full path. *)
Lemma hash_transitionTo_synced (s : HashState C) raw oc oa :
  browser_wf (hs_browser s) ->
  (forall route b, browser_wf b -> browser_wf (oc route b)) ->
  (forall b, getHash (oa b) = getHash b) ->
  getHash (hs_browser (snd (hash_transitionTo sps s raw oc oa)))
  = fullPath (current_route (hs_history (snd (hash_transitionTo sps s raw oc oa)))).
Proof.
  intros Hb Hoc Hoa. unfold hash_transitionTo.
  destruct (transitionTo _ _); simpl; rewrite ?Hoa; apply getHash_ensureURL; auto.
Qed.

(** A transition keeps the current route well formed. *)
Lemma hash_transitionTo_history_ok (s : HashState C) raw oc oa :
  history_ok (hs_history s) -> history_ok (hs_history (snd (hash_transitionTo sps s raw oc oa))).
Proof.
  intros [Hr Hn]. unfold hash_transitionTo.
  destruct (transitionTo _ _) as [|h'] eqn:Ht; cbn [snd hs_history]; [by split|].
  split; [|by rewrite (transitionTo_router _ _ _ Ht)].
  unfold current_route at 1. rewrite (transitionTo_current _ _ _ Ht). simpl.
  apply router_match_any_wf; [done|]. by apply route_wf_path_ok.
Qed.

(** The history after [push]: the new one, or the old one when the
    navigation is rejected. *)
Lemma hash_push_history (s : HashState C) raw :
  hs_history (snd (hash_push sps s raw)) =
  match transitionTo (hs_history s) raw with inl _ => hs_history s | inr h' => h' end.
Proof. unfold hash_push, hash_transitionTo. by destruct (transitionTo _ _). Qed.

(** The two outcomes of [push]: the route the location matches from
    the current route becomes current and its full path is in the
    address bar, or the navigation is a duplicate and the history is
    unchanged. *)
Lemma hash_push_outcome (s : HashState C) raw :
  browser_wf (hs_browser s) ->
  let route := router_match (history_router (hs_history s)) raw (route_path (current_route (hs_history s))) in
  (fst (hash_push sps s raw) = inr route /\ current_route (hs_history (snd (hash_push sps s raw))) = route /\
   getHash (hs_browser (snd (hash_push sps s raw))) = fullPath route) \/
  (fst (hash_push sps s raw) = inl (NavigationDuplicated route) /\
   hs_history (snd (hash_push sps s raw)) = hs_history s).
Proof.
  intros Hb route. unfold hash_push, hash_transitionTo, transitionTo, confirmTransition. fold route.
  destruct (isSameRoute route _ && _ && _); [right|left]; cbn [fst snd hs_history hs_browser id]; [done|].
  split_and!; [done|done|]. rewrite getHash_ensureURL by auto using pushHash_wf. done.
Qed.

End Fragment.

(** ** The invariant of a hash-mode page *)

Definition slashed (p : string) : Prop := starts_with_slash p = true.

(** The browser side: the current entry exists and, when [pushState] is
    used, every entry starts with a slash. *)
Definition browser_ok (sps : bool) (b : Browser) : Prop :=
  browser_wf b /\ (sps = true -> Forall slashed (entries b)).

(** An action the user may take: with [pushState], a fragment the user
    types starts with a slash. *)
Definition slashed_action (a : UserAction) : bool :=
  match a with EditUrl p => starts_with_slash p | _ => true end.

Section Invariant.
Context {C : Type} (sps : bool).

(** The invariant: the browser's and the history's shape, and once no
    event is queued, the fragment is the current route's full path. *)
Definition hash_inv (s : HashState C) : Prop :=
  browser_ok sps (hs_browser s) /\ history_ok (hs_history s) /\
  (pending (hs_browser s) = 0 -> getHash (hs_browser s) = fullPath (current_route (hs_history s))).

End Invariant.

Lemma starts_with_slash_app s t : starts_with_slash s = true -> starts_with_slash (s +:+ t) = true.
Proof. by destruct s. Qed.

Lemma fullPath_slashed {C} (r : Route C) : route_wf r = true -> slashed (fullPath r).
Proof.
  unfold route_wf, fullPath, print_path, slashed; simpl. intros H. bool_to_prop.
  by apply starts_with_slash_app.
Qed.

Lemma getHash_slashed b : browser_wf b -> Forall slashed (entries b) -> slashed (getHash b).
Proof.
  unfold browser_wf, getHash. intros Hb Hs.
  destruct (lookup_lt_is_Some_2 (entries b) (index b) Hb) as [p Hp]. rewrite Hp.
  exact (Forall_lookup_1 _ _ _ _ Hs Hp).
Qed.

Lemma push_entry_slashed (l : list string) i p :
  Forall slashed l -> slashed p -> Forall slashed (take (S i) l ++ [p]).
Proof. intros Hl Hp. apply Forall_app. split; [by apply Forall_take|by constructor]. Qed.

Section BrowserOk.
Context (sps : bool).

Lemma pushHash_ok p b : browser_ok sps b -> slashed p -> browser_ok sps (pushHash sps p b).
Proof.
  intros [Hb Hs] Hp. split; [by apply pushHash_wf|]. intros ->. specialize (Hs eq_refl).
  by apply push_entry_slashed.
Qed.

Lemma replaceHash_ok p b : browser_ok sps b -> slashed p -> browser_ok sps (replaceHash sps p b).
Proof.
  intros [Hb Hs] Hp. split; [by apply replaceHash_wf|]. intros ->. specialize (Hs eq_refl).
  by apply Forall_insert.
Qed.

Lemma ensureURL_ok {C} (h : History C) b :
  browser_ok sps b -> route_wf (current_route h) = true -> browser_ok sps (ensureURL sps h b).
Proof.
  intros Hb Hr. unfold ensureURL. destruct (String.eqb _ _); [done|].
  by apply replaceHash_ok, fullPath_slashed.
Qed.

Lemma history_go_ok n b : browser_ok sps b -> browser_ok sps (history_go sps n b).
Proof.
  intros [Hb Hs]. split; [by apply history_go_wf|]. unfold history_go.
  by repeat case_match.
Qed.

Lemma navigate_fragment_ok p b :
  browser_ok sps b -> (sps = true -> slashed p) -> browser_ok sps (navigate_fragment p b).
Proof.
  intros [Hb Hs] Hp. split; [by apply navigate_fragment_wf|]. intros Hsps.
  unfold navigate_fragment. destruct (String.eqb _ _); [by apply Hs|].
  apply push_entry_slashed; auto.
Qed.

Lemma with_pending_ok n b : browser_ok sps b -> browser_ok sps (with_pending n b).
Proof. done. Qed.

Lemma setupListeners_ok b : browser_ok sps b -> browser_ok sps (setupListeners b).
Proof. done. Qed.

End BrowserOk.

#[export] Hint Resolve pushHash_ok replaceHash_ok ensureURL_ok history_go_ok with_pending_ok
  setupListeners_ok fullPath_slashed : router.

Section Preservation.
Context {C : Type} (sps : bool).

(** The shape part of the invariant. *)
Definition state_ok (s : HashState C) : Prop :=
  browser_ok sps (hs_browser s) /\ history_ok (hs_history s).

Lemma hash_inv_state_ok (s : HashState C) : hash_inv sps s -> state_ok s.
Proof. by intros (? & ? & _). Qed.

(** A transition establishes the invariant when its callbacks keep the
    browser's shape and the abort callback keeps the fragment. *)
Lemma hash_transitionTo_inv (s : HashState C) raw oc oa :
  state_ok s ->
  (forall route b, browser_wf b -> browser_wf (oc route b)) ->
  (forall route b, route_wf route = true -> browser_ok sps b -> browser_ok sps (oc route b)) ->
  (forall b, browser_ok sps b -> browser_ok sps (oa b)) ->
  (forall b, getHash (oa b) = getHash b) ->
  hash_inv sps (snd (hash_transitionTo sps s raw oc oa)).
Proof.
  intros (Hb & Hr) Hwf Hoc Hoa Hoa'.
  pose proof (hash_transitionTo_history_ok sps s raw oc oa Hr) as Hr'.
  split_and!; [|done|intros _; apply hash_transitionTo_synced; auto; apply Hb].
  revert Hr'. unfold hash_transitionTo.
  destruct (transitionTo _ _); simpl; intros [Hr' _]; [|apply ensureURL_ok]; auto with router.
Qed.

(** The routing listener establishes the invariant. *)
Lemma handleRoutingEvent_inv (s : HashState C) :
  state_ok s -> hash_inv sps (handleRoutingEvent sps s).
Proof.
  intros Hs. unfold handleRoutingEvent, ensureSlash.
  destruct (starts_with_slash (getHash (hs_browser s))) eqn:E; cbn [negb fst snd].
  - destruct s as [h b]. apply hash_transitionTo_inv; [done| | |done|done].
    + intros route b' Hb'. destruct sps; auto with router.
    + intros route b' Hr Hb'. destruct sps; auto with router.
  - destruct Hs as ([Hwf Hsl] & Hr). split_and!; [by apply replaceHash_ok|done|]. simpl.
    destruct sps eqn:Hsps.
    + exfalso. pose proof (getHash_slashed _ Hwf (Hsl eq_refl)) as Hh. unfold slashed in Hh. congruence.
    + unfold replaceHash, replace_fragment.
      destruct (String.eqb_spec ("/" +:+ getHash (hs_browser s)) (getHash (hs_browser s))) as [He|];
        [|done].
      rewrite <- He in E. discriminate.
Qed.

(** Every step the user may take keeps the invariant, once the
    listener is registered. *)
Lemma hash_step_inv (s : HashState C) a :
  hash_inv sps s -> listening (hs_browser s) = true -> (sps = true -> slashed_action a = true) ->
  hash_inv sps (hash_step sps s a).
Proof.
  intros Hs Hl Ha. pose proof (hash_inv_state_ok _ Hs) as Hok.
  destruct a as [raw|raw|n|p|]; cbn [hash_step].
  - apply hash_transitionTo_inv; auto using pushHash_wf with router.
  - apply hash_transitionTo_inv; auto using replaceHash_wf with router.
  - destruct Hs as (Hb & Hr & Hq). unfold hash_go. split_and!; [by apply history_go_ok|done|].
    cbn [hs_browser hs_history]. intros Hp. destruct (history_go_quiet sps n _ Hp) as [Hp' ->]. auto.
  - destruct Hs as (Hb & Hr & Hq). split_and!; [|done|]; cbn [hs_browser hs_history].
    + apply navigate_fragment_ok; [done|]. intros Hsps. by apply Ha.
    + intros Hp. rewrite (navigate_fragment_quiet _ _ Hp) in Hp |- *. auto.
  - unfold dispatch_event. destruct (pending (hs_browser s)) as [|k] eqn:Hk; [done|].
    rewrite Hl. apply handleRoutingEvent_inv. destruct Hok as [Hb Hr].
    split; [by apply with_pending_ok|done].
Qed.

(** The page right after [router.init]. *)
Lemma hash_init_inv (r : VueRouter C) p :
  named_paths_ok (matcher r) ->
  hash_inv sps (hash_init sps (HashHistory_new sps r (fresh_page p))).
Proof.
  intros Hn. unfold hash_init. apply hash_transitionTo_inv; auto with router.
  split; [|done]. unfold HashHistory_new, ensureSlash; cbn [hs_browser].
  destruct (starts_with_slash (getHash (fresh_page p))) eqn:E; cbn [negb fst snd].
  - split; [apply fresh_page_wf|]. intros _. by repeat constructor.
  - split; [apply replaceHash_wf, fresh_page_wf|]. intros ->. by repeat constructor.
Qed.

End Preservation.

Section Reachable.
Context {C : Type}.

Lemma hash_run_reachable sps (r : VueRouter C) s l :
  hash_reachable sps r s -> hash_reachable sps r (hash_run sps s l).
Proof.
  revert s. induction l as [|a l IH]; intros s Hs; [done|]. simpl. apply IH. by constructor.
Qed.

Lemma hash_run_inv sps (r : VueRouter C) s l :
  hash_reachable sps r s -> hash_inv sps s ->
  Forall (fun a => sps = true -> slashed_action a = true) l ->
  hash_inv sps (hash_run sps s l).
Proof.
  intros Hr Hs Hl. revert s Hr Hs. induction Hl as [|a l Ha Hl IH]; intros s Hr Hs; [done|].
  simpl. apply IH; [by constructor|].
  apply hash_step_inv; [done|by eapply hash_reachable_listening|done].
Qed.

(** Without [pushState], every reachable page satisfies the invariant:
    when no routing event is queued, the address bar shows the current
    route's full path. *)
Lemma hash_reachable_in_sync (r : VueRouter C) s :
  named_paths_ok (matcher r) -> hash_reachable false r s -> hash_inv false s.
Proof.
  intros Hn. induction 1 as [p|s a Hr IH]; [by apply hash_init_inv|].
  apply hash_step_inv; [done|by eapply hash_reachable_listening|discriminate].
Qed.

(** With or without [pushState], a page loaded at any URL on which the
    user types only fragments that start with a slash stays in sync. *)
Lemma slashed_run_in_sync sps (r : VueRouter C) p l :
  named_paths_ok (matcher r) -> Forall (fun a => slashed_action a = true) l ->
  hash_inv sps (hash_run sps (hash_init sps (HashHistory_new sps r (fresh_page p))) l).
Proof.
  intros Hn Hl. apply (hash_run_inv sps r); [constructor|by apply hash_init_inv|].
  eapply Forall_impl; [|exact Hl]. auto.
Qed.

End Reachable.

(** ** Pushing the current URL *)

Lemma router_match_blank {C} (rt : VueRouter C) (raw : string) cur :
  loc_path (normalizeLocation raw cur) = "" -> matched (router_match rt raw cur) = [].
Proof.
  intros He. unfold router_match. rewrite normalizeLocation_unnamed.
  unfold matcher_match. cbn [loc_name truthy_name]. by rewrite He.
Qed.

(** The named location [{ name: "" }] is the empty location string. *)
Lemma router_match_named_empty {C} (rt : VueRouter C) cur :
  router_match rt (LocNamed "") cur = router_match rt "" cur.
Proof. reflexivity. Qed.

(** The current route of a reachable history was matched from a
    well-formed current path. *)
Lemma reachable_current_ok {C} (r : VueRouter C) h :
  named_paths_ok (matcher r) -> reachable r h ->
  current h = None \/ exists raw cur, path_ok cur = true /\ current h = Some (router_match r raw cur).
Proof.
  intros Hnp. induction 1 as [|h raw h' Hr IH Ht]; [by left|]. right.
  exists raw, (route_path (current_route h)). split.
  - apply route_wf_path_ok. destruct IH as [Hn|(raw0 & cur0 & Hok & Hs)].
    + unfold current_route. by rewrite Hn.
    + unfold current_route. rewrite Hs. by apply router_match_any_wf.
  - rewrite (transitionTo_current _ _ _ Ht). by rewrite (reachable_router _ _ Hr).
Qed.

(** What [match] returns for [{ name: n }]. *)
Lemma router_match_named {C} (rt : VueRouter C) n cur :
  n <> "" ->
  router_match rt (LocNamed n) cur =
  match nameMap (matcher rt) !! n with
  | None => createRoute None (mkLocation (Some n) "" "" "")
  | Some rec => createRoute (Some rec) (mkLocation (Some n) (record_path rec) "" "")
  end.
Proof.
  intros Hne. unfold router_match, normalizeLocation, matcher_match.
  rewrite (proj2 (String.eqb_neq _ _) Hne). cbn [loc_name truthy_name].
  by rewrite (proj2 (String.eqb_neq _ _) Hne).
Qed.

Section Duplicate.
Context {C : Type}.

(** Each named record is the record its path matches: no earlier route
    shadows it. *)
Definition named_self_match (rm : RouteMap C) : Prop :=
  forall n rec, nameMap rm !! n = Some rec ->
  match_path_list (pathMap rm) (pathList rm)
    (if String.eqb (record_path rec) "" then "/" else record_path rec) = Some rec.

Lemma transitionTo_duplicate (h : History C) raw :
  let route := router_match (history_router h) raw (route_path (current_route h)) in
  isSameRoute route (current h) = true ->
  length (matched route) = length (matched (current_route h)) ->
  last_record_path route = last_record_path (current_route h) ->
  transitionTo h raw = inl (NavigationDuplicated route).
Proof.
  intros route H1 H2 H3. unfold transitionTo, confirmTransition. fold route.
  by rewrite H1, H2, Nat.eqb_refl, bool_decide_true.
Qed.

Lemma same_shape_refl (r : Route C) : same_shape r r.
Proof. by repeat split. Qed.

(** A location string either has an empty path, and matches nothing at
    ["/"], or its route is matched again from its full path. *)
Lemma router_match_string_refix (rt : VueRouter C) (raw : string) cur cur' :
  path_ok cur = true ->
  let r := router_match rt raw cur in
  (route_path r = "/" /\ matched r = []) \/ same_shape (router_match rt (fullPath r) cur') r.
Proof.
  intros Hok r. destruct (String.eqb_spec (loc_path (normalizeLocation raw cur)) "") as [He|Hne].
  - left. split; [|by apply router_match_blank].
    unfold r, router_match. rewrite normalizeLocation_unnamed, He. reflexivity.
  - right. unfold r. rewrite router_match_fixed by done. apply same_shape_refl.
Qed.

(** Every matched route is matched again, with the same path, query,
    hash and records, from its full path, unless it is a route at ["/"]
    that matched nothing (an empty path, or an unknown name). *)
Lemma router_match_refix (rt : VueRouter C) raw cur cur' :
  named_paths_ok (matcher rt) -> named_self_match (matcher rt) -> path_ok cur = true ->
  let r := router_match rt raw cur in
  (route_path r = "/" /\ matched r = []) \/ same_shape (router_match rt (fullPath r) cur') r.
Proof.
  intros Hnp Hself Hok. destruct raw as [str|n]; [by apply router_match_string_refix|].
  destruct (String.eqb_spec n "") as [->|Hne];
    [rewrite router_match_named_empty; by apply router_match_string_refix|].
  pose proof (router_match_named_wf rt n cur Hnp Hok) as Hwf. revert Hwf. cbv zeta.
  rewrite router_match_named by done.
  destruct (nameMap (matcher rt) !! n) as [rec|] eqn:E; intros Hwf; [right|by left].
  unfold router_match. rewrite normalizeLocation_fullPath by done.
  cbn [createRoute route_path route_query route_hash loc_path loc_query loc_hash].
  set (P := if String.eqb (record_path rec) "" then "/" else record_path rec).
  assert (P <> "") as HPne by (unfold P; destruct (String.eqb_spec (record_path rec) ""); done).
  pose proof (Hself n rec E) as Hm. fold P in Hm.
  rewrite matcher_match_unnamed, Hm by done.
  unfold same_shape; cbn. by rewrite (proj2 (String.eqb_neq _ _) HPne).
Qed.

(** The current route of a reachable history that matched a record is
    matched again, as the same route up to its name, from its own full
    path: navigating there is a duplicate. *)
Lemma transitionTo_fullPath_duplicate (r : VueRouter C) h :
  named_paths_ok (matcher r) -> named_self_match (matcher r) -> reachable r h ->
  matched (current_route h) <> [] ->
  exists route, transitionTo h (fullPath (current_route h)) = inl (NavigationDuplicated route).
Proof.
  intros Hnp Hself Hr Hm. pose proof (reachable_router _ _ Hr) as Hrt.
  destruct (reachable_current_ok r h Hnp Hr) as [Hn|(raw & cur & Hok & Hc)].
  { exfalso. apply Hm. unfold current_route. by rewrite Hn. }
  assert (current_route h = router_match r raw cur) as Hcr by (unfold current_route; by rewrite Hc).
  destruct (router_match_refix r raw cur (route_path (current_route h)) Hnp Hself Hok)
    as [[_ Hmt]|Hs]; [by rewrite Hcr in Hm|].
  rewrite (transitionTo_Some h _ _ Hc), Hrt, <- Hcr. rewrite <- Hcr in Hs. cbv zeta.
  rewrite (duplicate_of_shape _ (current_route h) (current_route h) (current_route h));
    auto using router_match_path_nonempty, same_shape_refl.
  - rewrite duplicate_of_refl by (rewrite Hcr; apply router_match_path_nonempty). by eexists.
  - rewrite Hcr. apply router_match_path_nonempty.
Qed.

End Duplicate.

(** On a page in sync whose current route matched a record, pushing the
    URL in the address bar is a duplicate navigation: [router.push]
    rejects with [NavigationDuplicated] and nothing changes. *)
Lemma hash_push_duplicate {C} sps (r : VueRouter C) s :
  named_paths_ok (matcher r) -> named_self_match (matcher r) ->
  hash_reachable sps r s ->
  getHash (hs_browser s) = fullPath (current_route (hs_history s)) ->
  matched (current_route (hs_history s)) <> [] ->
  exists route, hash_push sps s (getHash (hs_browser s)) = (inl (NavigationDuplicated route), s).
Proof.
  intros Hnp Hself Hs Hsync Hm. pose proof (hash_reachable_refines sps r s Hs) as Hr.
  destruct (transitionTo_fullPath_duplicate r _ Hnp Hself Hr Hm) as [route Ht].
  exists route. destruct s as [h b]; cbn [hs_history hs_browser] in *.
  unfold hash_push, hash_transitionTo. cbn [hs_history hs_browser]. rewrite Hsync, Ht. cbn [id].
  by rewrite ensureURL_synced.
Qed.
