(* ===== verification/HashSettle.v ===== *)
(** * Queued routing events are dispatched in finitely many rounds

    Without [pushState], the listener of a hash-mode page writes the URL
    with [location.replace], which queues one more [hashchange] event
    when the fragment changes; a dispatch may therefore queue an event.
    The loop still ends: [dispatch_measure] (the queued events, plus the
    distance of the fragment from the current route's full path: 0 when
    equal, 1 when it starts with a slash, 2 otherwise) decreases at every
    dispatch ([dispatch_event_measure]), so [settle] with
    [pending + 2] rounds empties the queue ([settle_quiescent]), and the
    page it reaches is in sync. *)

From S2P Require Import Prelude Path RouteMap Matcher VueRouter History HashHistory HashSync.
Local Open Scope list_scope.

Section Settle.
Context {C : Type}.

Definition sync_gap (s : HashState C) : nat :=
  if String.eqb (getHash (hs_browser s)) (fullPath (current_route (hs_history s))) then 0
  else if starts_with_slash (getHash (hs_browser s)) then 1 else 2.

Definition dispatch_measure (s : HashState C) : nat :=
  match pending (hs_browser s) with 0 => 0 | S _ => pending (hs_browser s) + sync_gap s end.

(** ** Lemmas *)

Lemma replace_fragment_pending p b :
  pending (replace_fragment p b) = if String.eqb p (getHash b) then pending b else S (pending b).
Proof. unfold replace_fragment. by destruct (String.eqb _ _). Qed.

(** The transition of the listener without [pushState]: the fragment
    ends as the new route's full path, and one more event is queued only
    if the fragment was not already the current route's full path. *)
Lemma listener_transition_outcome (s : HashState C) :
  state_ok false s -> starts_with_slash (getHash (hs_browser s)) = true ->
  let s' := handleRoutingEvent false s in
  getHash (hs_browser s') = fullPath (current_route (hs_history s')) /\
  (pending (hs_browser s') = pending (hs_browser s) \/
   (pending (hs_browser s') = S (pending (hs_browser s)) /\
    getHash (hs_browser s) <> fullPath (current_route (hs_history s)))).
Proof.
  intros [[Hb _] [Hr _]] E. unfold handleRoutingEvent, ensureSlash. rewrite E.
  cbn [negb fst snd]. split.
  { apply (hash_transitionTo_synced false); [done| |done]. intros. by apply replace_fragment_wf. }
  unfold hash_transitionTo. destruct (transitionTo _ _) as [|h'] eqn:Ht; cbn [snd hs_browser hs_history id].
  - unfold ensureURL, replaceHash.
    destruct (String.eqb_spec (getHash (hs_browser s)) (fullPath (current_route (hs_history s))))
      as [|Hne]; [by left|]. rewrite replace_fragment_pending.
    destruct (String.eqb_spec (fullPath (current_route (hs_history s))) (getHash (hs_browser s)));
      [by left|by right].
  - rewrite ensureURL_synced by (rewrite getHash_replace_fragment; auto).
    rewrite replace_fragment_pending.
    destruct (String.eqb_spec (fullPath (current_route h')) (getHash (hs_browser s))) as [|Hne];
      [by left|right; split; [done|]].
    intros Heq. apply Hne. unfold current_route at 1. rewrite (transitionTo_current _ _ _ Ht). simpl.
    rewrite Heq. by apply router_match_fullPath.
Qed.

(** Each dispatch decreases the measure. *)
Lemma dispatch_event_measure (s : HashState C) :
  state_ok false s -> listening (hs_browser s) = true -> pending (hs_browser s) <> 0 ->
  dispatch_measure (dispatch_event false s) < dispatch_measure s.
Proof.
  intros Hok Hl Hp. unfold dispatch_event, dispatch_measure at 2.
  destruct (pending (hs_browser s)) as [|k] eqn:Hk; [done|]. rewrite Hl.
  set (s1 := mkHashState (hs_history s) (with_pending k (hs_browser s))).
  assert (state_ok false s1) as Hok1 by (destruct Hok; split; [by apply with_pending_ok|done]).
  assert (sync_gap s1 = sync_gap s) as Hg by reflexivity. rewrite <- Hg.
  destruct (starts_with_slash (getHash (hs_browser s1))) eqn:E.
  - destruct (listener_transition_outcome s1 Hok1 E) as [Hs' [Hp'|[Hp' Hne]]];
      unfold dispatch_measure, sync_gap; rewrite Hs', String.eqb_refl, ?Hp'; simpl; [destruct k; lia|].
    change (with_pending k (hs_browser s)) with (hs_browser s1).
    change (hs_history s) with (hs_history s1).
    rewrite (proj2 (String.eqb_neq _ _) Hne), E. lia.
  - unfold handleRoutingEvent, ensureSlash. rewrite E. cbn [negb fst snd].
    destruct Hok1 as [[Hb1 _] [Hr1 _]].
    assert (getHash (hs_browser s1) <> fullPath (current_route (hs_history s1))) as Hne.
    { intros Heq. pose proof (fullPath_slashed _ Hr1) as Hs. unfold slashed in Hs. congruence. }
    assert ("/" +:+ getHash (hs_browser s1) <> getHash (hs_browser s1)) as Hq
      by (intros He; rewrite <- He in E; discriminate).
    unfold replaceHash, dispatch_measure at 1, sync_gap. cbn [hs_browser hs_history].
    rewrite replace_fragment_pending, (proj2 (String.eqb_neq _ _) Hq).
    rewrite getHash_replace_fragment, (starts_with_slash_app "/") by done.
    change (pending (hs_browser s1)) with k. rewrite (proj2 (String.eqb_neq _ _) Hne), E.
    destruct (String.eqb _ _); lia.
Qed.

Lemma dispatch_event_state_ok (s : HashState C) :
  state_ok false s -> state_ok false (dispatch_event false s).
Proof.
  intros Hok. unfold dispatch_event. destruct (pending _); [done|].
  assert (state_ok false (mkHashState (hs_history s) (with_pending n (hs_browser s)))) as Hok1
    by (destruct Hok; split; [by apply with_pending_ok|done]).
  destruct (listening _); [|done]. by apply hash_inv_state_ok, handleRoutingEvent_inv.
Qed.

Lemma dispatch_event_listening sps (s : HashState C) :
  listening (hs_browser s) = true -> listening (hs_browser (dispatch_event sps s)) = true.
Proof. apply (hash_step_listening sps s Dispatch). Qed.

Lemma sync_gap_le (s : HashState C) : sync_gap s <= 2.
Proof. unfold sync_gap. repeat case_match; lia. Qed.

(** Enough fuel empties the queue. *)
Lemma settle_empties fuel (s : HashState C) :
  state_ok false s -> listening (hs_browser s) = true -> dispatch_measure s <= fuel ->
  pending (hs_browser (settle false fuel s)) = 0.
Proof.
  revert s. induction fuel as [|fuel IH]; intros s Hok Hl Hm; simpl.
  - unfold dispatch_measure in Hm. destruct (pending _) eqn:E; [done|lia].
  - destruct (Nat.eqb_spec (pending (hs_browser s)) 0) as [|Hp]; [done|].
    apply IH; [by apply dispatch_event_state_ok|by apply dispatch_event_listening|].
    pose proof (dispatch_event_measure s Hok Hl Hp). lia.
Qed.

Lemma settle_reachable sps (r : VueRouter C) fuel s :
  hash_reachable sps r s -> hash_reachable sps r (settle sps fuel s).
Proof.
  revert s. induction fuel as [|fuel IH]; intros s Hs; simpl; [done|].
  destruct (Nat.eqb _ 0); [done|]. apply IH. exact (hreach_step sps r s Dispatch Hs).
Qed.

(** From every reachable page without [pushState] of a router whose
    named records have absolute paths, dispatching the
    queued events ends within [pending + 2] rounds, on a page whose
    address bar shows the current route's full path. *)
Theorem settle_quiescent (r : VueRouter C) s :
  named_paths_ok (matcher r) -> hash_reachable false r s ->
  let s' := settle false (pending (hs_browser s) + 2) s in
  pending (hs_browser s') = 0 /\
  getHash (hs_browser s') = fullPath (current_route (hs_history s')).
Proof.
  intros Hn Hr s'. assert (pending (hs_browser s') = 0) as Hp.
  { apply settle_empties; [by apply hash_inv_state_ok, (hash_reachable_in_sync r)
                          |by eapply hash_reachable_listening|].
    unfold dispatch_measure. pose proof (sync_gap_le s). case_match; lia. }
  split; [done|]. apply (hash_reachable_in_sync r); [done|by apply settle_reachable|done].
Qed.

End Settle.
