(* ===== verification/HashBack.v ===== *)
(** * The back button undoes a navigation

    A page in sync whose route matched a record, on which [router.push]
    changes the URL: once the browser has handled the push's routing
    event, the back button ([history.go(-1)]) and the event it queues
    bring back the URL shown before and a route with the same path,
    query, hash and records ([hash_back_after_push]).

    The proof follows the session history entry by entry: [pushHash]
    adds the new fragment after the current entry ([pushHash_new]), the
    listener finds the new fragment already shown ([dispatch_fixed]),
    [history.go(-1)] returns to the entry below ([history_go_back]), and
    the transition it triggers is not a duplicate, because the push was
    not one ([duplicate_of_sym], [router_match_refix]). *)

From S2P Require Import Prelude Path RouteMap Matcher VueRouter History HashHistory HashSync.
Local Open Scope list_scope.

Section Back.
Context {C : Type} (sps : bool).

(** ** The session history *)

Lemma replaceHash_same b : browser_wf b -> replaceHash sps (getHash b) b = b.
Proof.
  intros Hb. unfold replaceHash. destruct sps.
  - unfold replaceState, getHash. destruct (lookup_lt_is_Some_2 _ _ Hb) as [p Hp].
    rewrite Hp, list_insert_id by done. by destruct b.
  - unfold replace_fragment. by rewrite String.eqb_refl.
Qed.

(** A new fragment pushed after the current entry. *)
Lemma pushHash_new p b :
  p <> getHash b ->
  pushHash sps p b = mkBrowser (take (S (index b)) (entries b) ++ [p]) (S (index b))
                               (if sps then pending b else S (pending b)) (listening b).
Proof.
  intros Hp. unfold pushHash, navigate_fragment. destruct sps; [done|].
  by rewrite (proj2 (String.eqb_neq _ _) Hp).
Qed.

Lemma getHash_pushed p b n l :
  browser_wf b -> getHash (mkBrowser (take (S (index b)) (entries b) ++ [p]) (S (index b)) n l) = p.
Proof.
  intros Hb. unfold getHash; cbn [entries index]. unfold browser_wf in Hb.
  rewrite lookup_app_r, length_take by (rewrite length_take; lia).
  by replace (S (index b) - _) with 0 by lia.
Qed.

Lemma getHash_below p b n l :
  browser_wf b -> getHash (mkBrowser (take (S (index b)) (entries b) ++ [p]) (index b) n l) = getHash b.
Proof.
  intros Hb. unfold getHash; cbn [entries index]. unfold browser_wf in Hb.
  rewrite lookup_app_l by (rewrite length_take; lia). by rewrite lookup_take_lt by lia.
Qed.

(** [history.go(-1)] from the entry pushed after the current one: the
    current entry again, and one routing event. *)
Lemma history_go_back p b :
  browser_wf b -> p <> getHash b ->
  history_go sps (-1) (mkBrowser (take (S (index b)) (entries b) ++ [p]) (S (index b)) 0 true) =
  mkBrowser (take (S (index b)) (entries b) ++ [p]) (index b) 1 true.
Proof.
  intros Hb Hp. unfold history_go. cbn [index entries pending listening].
  rewrite length_app, length_take. cbn [length].
  replace (Z.to_nat (Z.of_nat (S (index b)) + -1)) with (index b) by lia.
  rewrite !bool_decide_false by (unfold browser_wf in Hb; lia). cbn [orb].
  rewrite getHash_below, getHash_pushed by done.
  by rewrite (proj2 (String.eqb_neq _ _) (not_eq_sym Hp)), orb_true_r.
Qed.

(** ** The listener *)

Lemma getHash_with_pending k b : getHash (with_pending k b) = getHash b.
Proof. reflexivity. Qed.

(** The listener on a fragment with a slash whose navigation, when it
    goes through, shows that fragment: the browser is left as it is. *)
Lemma dispatch_fixed (s : HashState C) k :
  browser_wf (hs_browser s) -> listening (hs_browser s) = true -> pending (hs_browser s) = S k ->
  starts_with_slash (getHash (hs_browser s)) = true ->
  (forall h', transitionTo (hs_history s) (getHash (hs_browser s)) = inr h' ->
              fullPath (current_route h') = getHash (hs_browser s)) ->
  dispatch_event sps s =
  match transitionTo (hs_history s) (getHash (hs_browser s)) with
  | inl _ => mkHashState (hs_history s) (ensureURL sps (hs_history s) (with_pending k (hs_browser s)))
  | inr h' => mkHashState h' (with_pending k (hs_browser s))
  end.
Proof.
  intros Hb Hl Hp Hs Hf. unfold dispatch_event. rewrite Hp, Hl.
  unfold handleRoutingEvent, ensureSlash. cbn [hs_browser hs_history]. rewrite getHash_with_pending, Hs. cbn [negb fst snd].
  unfold hash_transitionTo. cbn [hs_history hs_browser]. rewrite getHash_with_pending.
  destruct (transitionTo _ _) as [e|h'] eqn:Ht; [done|]. cbn [snd]. f_equal.
  assert (browser_wf (with_pending k (hs_browser s))) as Hb' by by apply with_pending_wf.
  pose proof (Hf h' eq_refl) as Hf'. rewrite Hf', <- (getHash_with_pending k).
  pose proof (replaceHash_same _ Hb') as Hr.
  replace (if sps then _ else _) with (with_pending k (hs_browser s)) by (destruct sps; done).
  apply ensureURL_synced. by rewrite Hf'.
Qed.

(** ** Routes *)

(** A route that is not a duplicate of [c] and has another full path
    stays so when it is matched again from its full path. *)
Lemma refix_not_duplicate (rn rn' c : Route C) :
  route_path c <> "" -> route_path rn <> "" ->
  duplicate_of rn c = false -> fullPath rn <> fullPath c ->
  route_path rn' = route_path rn -> route_query rn' = route_query rn -> route_hash rn' = route_hash rn ->
  (route_path rn = "/" /\ matched rn = []) \/ same_shape rn' rn ->
  duplicate_of rn' c = false.
Proof.
  intros Hc Hn Hd Hf Hp Hq Hh [[Hslash _]|Hs].
  - destruct (duplicate_of rn' c) eqn:E; [exfalso|done].
    destruct (duplicate_of_fields rn' c) as (Hsp & Hsq & Hsh); [congruence|done|done|].
    rewrite Hp, Hslash in Hsp. symmetry in Hsp.
    destruct (strip_trailing_slash_empty _ Hsp) as [|Hc']; [done|].
    apply Hf. unfold fullPath. congruence.
  - rewrite <- Hd. apply duplicate_of_shape; [congruence|done| |apply same_shape_refl].
    done.
Qed.

(** The outcome of a navigation that writes the new route's full path
    with [write] ([pushHash] for [push], [replaceHash] for [replace]),
    on a page in sync, when it changes the URL: it went through and its
    full path is new. *)
Lemma hash_write_new (write : string -> Browser -> Browser) (s : HashState C) raw c :
  (forall p b, browser_wf b -> getHash (write p b) = p) ->
  browser_wf (hs_browser s) -> current (hs_history s) = Some c ->
  getHash (hs_browser s) = fullPath c ->
  getHash (hs_browser (snd (hash_transitionTo sps s raw (fun route => write (fullPath route)) id)))
    <> getHash (hs_browser s) ->
  let rn := router_match (history_router (hs_history s)) raw (route_path c) in
  duplicate_of rn c = false /\ fullPath rn <> getHash (hs_browser s) /\
  hash_transitionTo sps s raw (fun route => write (fullPath route)) id =
    (inr rn, mkHashState (mkHistory (history_router (hs_history s)) (Some rn))
                         (write (fullPath rn) (hs_browser s))).
Proof.
  intros Hw Hb Hc Hsync Hch rn. revert Hch.
  unfold hash_transitionTo. rewrite (transitionTo_Some _ _ _ Hc). cbv zeta. fold rn.
  destruct (duplicate_of rn c) eqn:E; cbn [snd hs_browser id];
    change (current_route (mkHistory (history_router (hs_history s)) (Some rn))) with rn.
  - rewrite ensureURL_synced; [done|]. unfold current_route. by rewrite Hc.
  - assert (ensureURL sps (mkHistory (history_router (hs_history s)) (Some rn))
              (write (fullPath rn) (hs_browser s)) = write (fullPath rn) (hs_browser s))
      as He by (apply ensureURL_synced; by rewrite Hw).
    rewrite He, Hw by done. intros Hch. by split_and!.
Qed.

(** A new fragment replacing the current entry. *)
Lemma replaceHash_new p b :
  p <> getHash b ->
  replaceHash sps p b = mkBrowser (<[index b := p]> (entries b)) (index b)
                                  (if sps then pending b else S (pending b)) (listening b).
Proof.
  intros Hp. unfold replaceHash, replace_fragment. destruct sps; [done|].
  by rewrite (proj2 (String.eqb_neq _ _) Hp).
Qed.

(** [history.go(1)] from the entry below the pushed one: the pushed
    entry again, and one routing event. *)
Lemma history_go_forward p b :
  browser_wf b -> p <> getHash b ->
  history_go sps 1 (mkBrowser (take (S (index b)) (entries b) ++ [p]) (index b) 0 true) =
  mkBrowser (take (S (index b)) (entries b) ++ [p]) (S (index b)) 1 true.
Proof.
  intros Hb Hp. unfold history_go. cbn [index entries pending listening].
  rewrite length_app, length_take. cbn [length].
  replace (Z.to_nat (Z.of_nat (index b) + 1)) with (S (index b)) by lia.
  rewrite !bool_decide_false by (unfold browser_wf in Hb; lia). cbn [orb].
  rewrite getHash_below, getHash_pushed by done.
  by rewrite (proj2 (String.eqb_neq _ _) Hp), orb_true_r.
Qed.

(** The listener after a navigation that wrote the new route's full
    path: without [pushState] it navigates to the new fragment; with
    [pushState] no event was queued.  The route shown is the new one or
    the one its full path matches, and the entries stay as written. *)
Lemma written_dispatch (r : VueRouter C) rn E j :
  route_wf rn = true -> browser_wf (mkBrowser E j 1 true) -> getHash (mkBrowser E j 1 true) = fullPath rn ->
  exists rc,
    dispatch_event sps (mkHashState (mkHistory r (Some rn)) (mkBrowser E j (if sps then 0 else 1) true)) =
    mkHashState (mkHistory r (Some rc)) (mkBrowser E j 0 true) /\
    (rc = rn \/ rc = router_match r (fullPath rn) (route_path rn)).
Proof.
  intros Hwf HB Hg. destruct (bool_dec sps true) as [Et|Ef].
  - replace (if sps then 0 else 1) with 0 by (by rewrite Et). exists rn. by split; [|left].
  - replace (if sps then 0 else 1) with 1 by (by destruct sps).
    rewrite (dispatch_fixed _ 0); cbn [hs_browser hs_history]; [| done..| |].
    2:{ rewrite Hg. apply fullPath_slashed, Hwf. }
    2:{ intros h' Ht. unfold current_route at 1. rewrite (transitionTo_current _ _ _ Ht), Hg.
        by apply router_match_fullPath. }
    rewrite Hg. destruct (transitionTo _ _) as [e|h'] eqn:Ht.
    + exists rn. rewrite ensureURL_synced by done. by split; [|left].
    + pose proof (transitionTo_current _ _ _ Ht) as Hc. pose proof (transitionTo_router _ _ _ Ht) as Hr.
      destruct h' as [rt' cur']; cbn in Hc, Hr; subst.
      exists (router_match r (fullPath rn) (route_path rn)). by split; [|right].
Qed.

(** A move in the session history to an entry that shows the full path
    of a well-formed route [y], and the dispatch of its event: when the
    navigation is not a duplicate, the route [y]'s full path matches
    becomes current and the browser is left as the move left it. *)
Lemma go_dispatch (r : VueRouter C) (x : Route C) n B B' (y : Route C) :
  history_go sps n B = B' -> browser_wf B' -> listening B' = true -> pending B' = 1 ->
  getHash B' = fullPath y -> route_wf y = true ->
  duplicate_of (router_match r (fullPath y) (route_path x)) x = false ->
  hash_run sps (mkHashState (mkHistory r (Some x)) B) [Go n; Dispatch] =
  mkHashState (mkHistory r (Some (router_match r (fullPath y) (route_path x)))) (with_pending 0 B').
Proof.
  intros Hgo Hb Hl Hp Hg Hwf Hnd. unfold hash_run. cbn [fold_left hash_step]. unfold hash_go.
  cbn [hs_history hs_browser]. rewrite Hgo.
  rewrite (dispatch_fixed _ 0); cbn [hs_browser hs_history]; [|done..| |].
  - rewrite Hg, (transitionTo_Some _ x) by done. cbv zeta. cbn [history_router]. by rewrite Hnd.
  - rewrite Hg. apply fullPath_slashed, Hwf.
  - intros h' Ht. unfold current_route at 1. rewrite (transitionTo_current _ _ _ Ht), Hg.
    by apply router_match_fullPath.
Qed.

Lemma hash_run_app (s : HashState C) l1 l2 : hash_run sps s (l1 ++ l2) = hash_run sps (hash_run sps s l1) l2.
Proof. apply fold_left_app. Qed.

(** ** Back and forward after a push *)

Section BackForward.
Variables (r : VueRouter C) (s : HashState C) (raw : RawLocation).
Hypothesis Hnp : named_paths_ok (matcher r).
Hypothesis Hself : named_self_match (matcher r).
Hypothesis Hs : hash_reachable sps r s.
Hypothesis Hinv : hash_inv sps s.
Hypothesis Hp : pending (hs_browser s) = 0.
Hypothesis Hm : matched (current_route (hs_history s)) <> [].
Hypothesis Hch : getHash (hs_browser (hash_step sps s (Push raw))) <> getHash (hs_browser s).

(** The session history after the push: the entries up to the current
    one, then the pushed route's full path. *)
Let c := current_route (hs_history s).
Let rn := router_match r raw (route_path c).
Let E := take (S (index (hs_browser s))) (entries (hs_browser s)) ++ [fullPath rn].

(** The three pages: after the push and its event, after the back
    button and its event, after the forward button and its event.  Back
    shows a route of the same shape as before the push; forward shows
    one of the same shape as after the push when that route matched a
    record. *)
Lemma hash_push_back_forward :
  exists rc r0 rf,
    hash_run sps s [Push raw; Dispatch] = mkHashState (mkHistory r (Some rc)) (mkBrowser E (S (index (hs_browser s))) 0 true) /\
    hash_run sps s [Push raw; Dispatch; Go (-1); Dispatch] =
      mkHashState (mkHistory r (Some r0)) (mkBrowser E (index (hs_browser s)) 0 true) /\
    hash_run sps s [Push raw; Dispatch; Go (-1); Dispatch; Go 1; Dispatch] =
      mkHashState (mkHistory r (Some rf)) (mkBrowser E (S (index (hs_browser s))) 0 true) /\
    same_shape r0 c /\ (matched rc <> [] -> same_shape rf rc) /\
    fullPath rn <> getHash (hs_browser s) /\ getHash (hs_browser s) = fullPath c.
Proof.
  destruct Hinv as ([Hb _] & _ & Hq).
  assert (listening (hs_browser s) = true) as Hl by (eapply hash_reachable_listening, Hs).
  pose proof (hash_reachable_refines sps r s Hs) as Hr. pose proof (reachable_router _ _ Hr) as Hrt.
  destruct (reachable_current_ok r _ Hnp Hr) as [Hn|(raw0 & cur0 & Hok0 & Hc0)].
  { exfalso. apply Hm. unfold current_route. by rewrite Hn. }
  assert (c = router_match r raw0 cur0) as Hcr by (unfold c, current_route; by rewrite Hc0).
  rewrite <- Hcr in Hc0.
  assert (route_wf c = true) as Hwfc by (rewrite Hcr; by apply router_match_any_wf).
  assert (getHash (hs_browser s) = fullPath c) as Hsync by (by apply Hq).
  assert (forall cur', same_shape (router_match r (fullPath c) cur') c) as Hfixc.
  { intros cur'. rewrite Hcr. destruct (router_match_refix r raw0 cur0 cur' Hnp Hself Hok0) as [[_ He]|Hsh];
      [|done]. exfalso. apply Hm. fold c. by rewrite Hcr. }
  destruct (hash_write_new (pushHash sps) s raw c (getHash_pushHash sps) Hb Hc0 Hsync Hch)
    as (Hnd & Hfn & Hpush).
  rewrite Hrt in Hnd, Hfn, Hpush. fold rn in Hnd, Hfn, Hpush.
  assert (route_wf rn = true) as Hwfn by (apply router_match_any_wf; [done|by apply route_wf_path_ok]).
  assert (forall cur', (route_path rn = "/" /\ matched rn = []) \/
                       same_shape (router_match r (fullPath rn) cur') rn) as Hfixn
    by (intros cur'; apply (router_match_refix r raw (route_path c)); [done|done|by apply route_wf_path_ok]).
  assert (browser_wf (mkBrowser E (S (index (hs_browser s))) 1 true)) as HB1.
  { unfold browser_wf, E; cbn [entries index]. rewrite length_app, length_take.
    unfold browser_wf in Hb. cbn [length]. lia. }
  destruct (written_dispatch r rn E (S (index (hs_browser s))) Hwfn HB1) as (rc & Hd & Hrc).
  { unfold E. by apply getHash_pushed. }
  assert (hash_run sps s [Push raw; Dispatch] =
          mkHashState (mkHistory r (Some rc)) (mkBrowser E (S (index (hs_browser s))) 0 true)) as H1.
  { unfold hash_run. cbn [fold_left hash_step]. unfold hash_push. rewrite Hpush. cbn [snd].
    rewrite pushHash_new, Hp, Hl by done. exact Hd. }
  assert (route_path rc = route_path rn /\ route_query rc = route_query rn /\ route_hash rc = route_hash rn)
    as (Hrp & Hrq & Hrh).
  { destruct Hrc as [Hrc|Hrc]; rewrite Hrc; [done|by apply router_match_fullPath_fields]. }
  set (r0 := router_match r (fullPath c) (route_path rc)).
  set (rf := router_match r (fullPath rn) (route_path r0)).
  assert (route_path c <> "") as Hcne by (rewrite Hcr; apply router_match_path_nonempty).
  assert (route_path rn <> "") as Hnne by apply router_match_path_nonempty.
  assert (fullPath rn <> fullPath c) as Hfn' by (by rewrite <- Hsync).
  assert (duplicate_of r0 rc = false) as Hnd0.
  { rewrite (duplicate_of_shape _ c rc rc), duplicate_of_sym;
      [|done|congruence|apply router_match_path_nonempty|congruence|apply Hfixc|apply same_shape_refl].
    apply (refix_not_duplicate rn); [done..|].
    destruct Hrc as [Hrc|Hrc]; rewrite Hrc; [right; apply same_shape_refl|apply Hfixn]. }
  assert (duplicate_of rf r0 = false) as Hndf.
  { destruct (router_match_fullPath_fields r rn (route_path r0) Hwfn) as (Hfp & Hfq & Hfh).
    rewrite (duplicate_of_shape _ rf r0 c);
      [|apply router_match_path_nonempty|apply router_match_path_nonempty|apply same_shape_refl|apply Hfixc].
    apply (refix_not_duplicate rn); [done..|apply Hfixn]. }
  assert (browser_wf (mkBrowser E (index (hs_browser s)) 1 true)) as HB0.
  { unfold browser_wf, E; cbn [entries index]. rewrite length_app, length_take.
    unfold browser_wf in Hb. cbn [length]. lia. }
  assert (hash_run sps s [Push raw; Dispatch; Go (-1); Dispatch] =
          mkHashState (mkHistory r (Some r0)) (mkBrowser E (index (hs_browser s)) 0 true)) as H2.
  { change [Push raw; Dispatch; Go (-1); Dispatch] with ([Push raw; Dispatch] ++ [Go (-1); Dispatch]).
    rewrite hash_run_app, H1. apply (go_dispatch r rc (-1) _ (mkBrowser E (index (hs_browser s)) 1 true) c); [|done|done|done| |done|done].
    - by apply history_go_back.
    - unfold E. by rewrite getHash_below. }
  exists rc, r0, rf. split_and!; [done|done| |apply Hfixc| |done|done].
  - change [Push raw; Dispatch; Go (-1); Dispatch; Go 1; Dispatch]
      with ([Push raw; Dispatch; Go (-1); Dispatch] ++ [Go 1; Dispatch]).
    rewrite hash_run_app, H2. apply (go_dispatch r r0 1 _ (mkBrowser E (S (index (hs_browser s))) 1 true) rn); [|done|done|done| |done|done].
    + by apply history_go_forward.
    + unfold E. by rewrite getHash_pushed.
  - intros Hmc. destruct Hrc as [-> | ->].
    + destruct (Hfixn (route_path r0)) as [[_ He]|Hsh]; [done|exact Hsh].
    + unfold rf. rewrite (router_match_absolute _ _ _ (route_path rn)); [apply same_shape_refl|].
      rewrite fullPath_parse by done. by apply route_wf_slash.
Qed.

End BackForward.

(** ** The back button *)

(** On a reachable page in sync whose route matched a record, a push
    that changes the URL, the dispatch of its event, the back button and
    the dispatch of its event bring back the URL shown before the push,
    with no event queued, and a route with the same path, query, hash
    and records as before. *)
Theorem hash_back_after_push (r : VueRouter C) s raw :
  named_paths_ok (matcher r) -> named_self_match (matcher r) ->
  hash_reachable sps r s -> hash_inv sps s -> pending (hs_browser s) = 0 ->
  matched (current_route (hs_history s)) <> [] ->
  getHash (hs_browser (hash_step sps s (Push raw))) <> getHash (hs_browser s) ->
  let s2 := hash_run sps s [Push raw; Dispatch; Go (-1); Dispatch] in
  getHash (hs_browser s2) = getHash (hs_browser s) /\ pending (hs_browser s2) = 0 /\
  same_shape (current_route (hs_history s2)) (current_route (hs_history s)).
Proof.
  intros Hnp Hself Hs Hinv Hp Hm Hch s2.
  destruct (hash_push_back_forward r s raw Hnp Hself Hs Hinv Hp Hm Hch)
    as (rc & r0 & rf & _ & H2 & _ & Hsh & _ & _ & _).
  unfold s2. rewrite H2. split_and!; [|done|done].
  cbn [hs_browser]. apply getHash_below. by destruct Hinv as ([? _] & _).
Qed.

(** ... and the forward button then brings back the URL the push wrote
    and, when the pushed route matched a record, a route of its shape. *)
Theorem hash_forward_after_back (r : VueRouter C) s raw :
  named_paths_ok (matcher r) -> named_self_match (matcher r) ->
  hash_reachable sps r s -> hash_inv sps s -> pending (hs_browser s) = 0 ->
  matched (current_route (hs_history s)) <> [] ->
  getHash (hs_browser (hash_step sps s (Push raw))) <> getHash (hs_browser s) ->
  matched (current_route (hs_history (hash_run sps s [Push raw; Dispatch]))) <> [] ->
  let s1 := hash_run sps s [Push raw; Dispatch] in
  let s3 := hash_run sps s [Push raw; Dispatch; Go (-1); Dispatch; Go 1; Dispatch] in
  getHash (hs_browser s3) = getHash (hs_browser s1) /\ pending (hs_browser s3) = 0 /\
  same_shape (current_route (hs_history s3)) (current_route (hs_history s1)).
Proof.
  intros Hnp Hself Hs Hinv Hp Hm Hch Hm1 s1 s3.
  destruct (hash_push_back_forward r s raw Hnp Hself Hs Hinv Hp Hm Hch)
    as (rc & r0 & rf & H1 & _ & H3 & _ & Hsh & _ & _).
  unfold s1, s3 in *. rewrite H1 in Hm1 |- *. rewrite H3. split_and!; [|done|by apply Hsh].
  cbn [hs_browser]. destruct Hinv as ([? _] & _). by rewrite !getHash_pushed.
Qed.

(** ** [router.replace] *)

(** On a reachable page in sync, a [router.replace] that changes the
    URL, and the dispatch of its event, rewrite the current entry of the
    session history with the new URL and touch no other entry: the
    entries keep their number, the current index stays, and no event is
    left queued. *)
Theorem hash_replace_in_place (r : VueRouter C) s raw :
  hash_reachable sps r s -> hash_inv sps s -> pending (hs_browser s) = 0 ->
  getHash (hs_browser (hash_step sps s (Replace raw))) <> getHash (hs_browser s) ->
  let s1 := hash_run sps s [Replace raw; Dispatch] in
  entries (hs_browser s1) = <[index (hs_browser s) := getHash (hs_browser s1)]> (entries (hs_browser s)) /\
  index (hs_browser s1) = index (hs_browser s) /\ pending (hs_browser s1) = 0.
Proof.
  intros Hs ([Hb _] & [Hwf Hnp] & Hq) Hp Hch s1.
  assert (listening (hs_browser s) = true) as Hl by (eapply hash_reachable_listening, Hs).
  destruct (current (hs_history s)) as [c|] eqn:Hc;
    [|by destruct (hash_reachable_started sps r s Hs)].
  assert (current_route (hs_history s) = c) as Hcr by (unfold current_route; by rewrite Hc).
  rewrite Hcr in Hwf, Hq.
  destruct (hash_write_new (replaceHash sps) s raw c (getHash_replaceHash sps) Hb Hc (Hq Hp) Hch)
    as (_ & Hfn & Hrep).
  set (rn := router_match (history_router (hs_history s)) raw (route_path c)) in *.
  assert (route_wf rn = true) as Hwfn by (apply router_match_any_wf; [exact Hnp|by apply route_wf_path_ok]).
  set (E := <[index (hs_browser s) := fullPath rn]> (entries (hs_browser s))).
  assert (browser_wf (mkBrowser E (index (hs_browser s)) 1 true)) as HB1
    by (unfold browser_wf, E; cbn [entries index]; by rewrite length_insert).
  assert (getHash (mkBrowser E (index (hs_browser s)) 1 true) = fullPath rn) as Hg
    by (unfold getHash, E; cbn [entries index]; by rewrite list_lookup_insert_eq).
  destruct (written_dispatch (history_router (hs_history s)) rn E _ Hwfn HB1 Hg) as (rc & Hd & _).
  assert (s1 = mkHashState (mkHistory (history_router (hs_history s)) (Some rc))
                           (mkBrowser E (index (hs_browser s)) 0 true)) as ->.
  { unfold s1, hash_run. cbn [fold_left hash_step]. unfold hash_replace. rewrite Hrep. cbn [snd].
    rewrite replaceHash_new, Hp, Hl by done. exact Hd. }
  cbn [hs_browser entries index pending]. split_and!; [|done|done].
  unfold E. f_equal. symmetry. exact Hg.
Qed.

End Back.
