(* ===== verification/RouterApp.v ===== *)
(** * Root apps of a hash-mode router: [router.init] and the app's destruction

    The plugin's global mixin calls [router.init(app)] in the
    [beforeCreate] hook of every root instance created with a [router]
    option.  [init] (vue-router's [index.js]):
    - asserts that the plugin is installed, then [this.apps.push(app)];
    - registers [app.$once('hook:destroyed', handler)];
    - returns if a main app is already set ([if (this.app) return]);
    - otherwise makes [app] the main app, runs the first navigation
      ([transitionTo(getCurrentLocation(), setupListeners,
      setupListeners)], [hash_init]) and sets [history.listen], which
      copies every new current route into each app's [_route].
    The [hook:destroyed] handler removes the app from [this.apps]
    ([indexOf], [splice]); if it was the main app, [this.apps[0] || null]
    becomes the main app; with no main app left the history is torn down
    ([history.teardown()]: the listeners are removed, [this.current =
    START]).

    [AppState] is the router's state shared by its apps and the page:
    the global [Vue], the router (whose [router_apps] is [this.apps]),
    [this.app], the next instance to be created and the hash-mode page.
    Instances are objects, compared by identity: each [new Vue] is a
    fresh number ([as_next]).  A failed assertion in [init] is reported
    by Vue's handler of hook errors and the instance is created without
    the router's navigation ([app_mount], the [inl] case).

    Every app renders the router's current route: [listen] copies it
    into every [_route], and an app created later reads it in
    [defineReactive(this, '_route', this._router.history.current)].

    Lemmas: [init], the [hook:destroyed] handler and every user action
    preserve the invariant [app_inv]: the main app is [this.apps[0]]
    (so there is none exactly when there is no app), the apps are
    distinct instances already created, and the listener is registered
    exactly when there is a main app ([app_step_inv], [app_run_inv]).
    The history stays reachable in the navigation machine of
    [History.v], teardown returning it to [START] ([app_run_reachable]),
    and with no app the browser's own actions change neither the route
    nor the listener ([app_run_detached]).  [IndexLife.v] applies them
    to the exported router. *)

From stdpp Require Import sets.
From S2P Require Import Prelude Path RouteMap Matcher VueRouter History HashHistory.
Local Open Scope list_scope.

(** [a.splice(a.indexOf(x), 1)] after [a.indexOf(x) > -1]. *)
Fixpoint remove_first (x : nat) (l : list nat) : list nat :=
  match l with
  | [] => []
  | y :: l' => if Nat.eqb x y then l' else y :: remove_first x l'
  end.

Section RouterApp.
Context {C : Type}.
Variable supportsPushState : bool.

(** ** State *)

Record AppState := mkAppState {
  as_global : VueGlobal;
  as_router : VueRouter C;
  as_app : option nat;
  as_next : nat;
  as_page : HashState C
}.

(** ** Operations *)

(** [history.teardown()]: the [popstate] or [hashchange] listener is
    removed and the current route reset to [START]. *)
Definition hash_teardown (s : HashState C) : HashState C :=
  let b := hs_browser s in
  mkHashState (mkHistory (history_router (hs_history s)) None)
              (mkBrowser (entries b) (index b) (pending b) false).

(** A new root instance with the [router] option: its [beforeCreate]
    calls [router.init(app)]. *)
Definition app_mount (st : AppState) : AppState :=
  let app := as_next st in
  match router_init (as_global st) (as_router st) app with
  | inl NotInstalled => mkAppState (as_global st) (as_router st) (as_app st) (S app) (as_page st)
  | inr r' =>
      match as_app st with
      | Some _ => mkAppState (as_global st) r' (as_app st) (S app) (as_page st)
      | None => mkAppState (as_global st) r' (Some app) (S app) (hash_init supportsPushState (as_page st))
      end
  end.

(** The [hook:destroyed] handler [init] registered for [app], run when
    the instance is destroyed; an instance [init] did not register has
    no handler. *)
Definition app_destroy (app : nat) (st : AppState) : AppState :=
  let r := as_router st in
  if bool_decide (app ∈ router_apps r) then
    let apps := remove_first app (router_apps r) in
    let r' := mkVueRouter (router_options_of r) (matcher r) (router_mode r) apps in
    let main := if bool_decide (as_app st = Some app) then head apps else as_app st in
    let page := match main with None => hash_teardown (as_page st) | Some _ => as_page st end in
    mkAppState (as_global st) r' main (as_next st) page
  else st.

(** ** Executions *)

(** Root instances created and destroyed, interleaved with the user's
    actions on the page. *)
Inductive AppAction :=
| Mount
| Destroy (app : nat)
| User (u : UserAction).

Definition app_step (st : AppState) (act : AppAction) : AppState :=
  match act with
  | Mount => app_mount st
  | Destroy app => app_destroy app st
  | User u => mkAppState (as_global st) (as_router st) (as_app st) (as_next st)
                (hash_step supportsPushState (as_page st) u)
  end.

Definition app_run (st : AppState) (l : list AppAction) : AppState :=
  fold_left app_step l st.

(** What every app renders. *)
Definition app_displayed (st : AppState) : option C :=
  view (current_route (hs_history (as_page st))).

(** The user's actions on the browser alone: the back and forward
    buttons, editing the fragment, the browser running a queued event. *)
Definition browser_action (act : AppAction) : bool :=
  match act with User (Go _ | EditUrl _ | Dispatch) => true | _ => false end.

(** ** The invariant *)

Definition app_inv (st : AppState) : Prop :=
  let apps := router_apps (as_router st) in
  as_app st = head apps /\
  NoDup apps /\ Forall (fun a => a < as_next st) apps /\
  listening (hs_browser (as_page st)) = bool_decide (is_Some (as_app st)).

End RouterApp.

Arguments AppState : clear implicits.

(** ** Lemmas *)

Lemma remove_first_subset x l y : y ∈ remove_first x l -> y ∈ l.
Proof.
  induction l as [|z l IH]; cbn; [done|]. destruct (Nat.eqb x z); [set_solver|].
  rewrite !elem_of_cons. naive_solver.
Qed.

Lemma remove_first_NoDup x l : NoDup l -> NoDup (remove_first x l).
Proof.
  induction l as [|z l IH]; cbn; [done|]. intros [Hz Hl]%list.NoDup_cons.
  destruct (Nat.eqb x z); [done|]. constructor; [|auto]. by intros ?%remove_first_subset.
Qed.

Lemma Forall_lt_S (l : list nat) n : Forall (fun a => a < n) l -> Forall (fun a => a < S n) l.
Proof. intros H. eapply Forall_impl; [|exact H]. cbn. lia. Qed.

Lemma head_elem_of (l : list nat) a : head l = Some a -> a ∈ l.
Proof. destruct l; cbn; [done|]. intros [= ->]. left. Qed.

Section AppLemmas.
Context {C : Type} (sps : bool).
Implicit Types (st : AppState C).

Lemma hash_teardown_listening (s : HashState C) : listening (hs_browser (hash_teardown s)) = false.
Proof. done. Qed.

(** The first navigation of [init] registers the listener, whether it
    goes through or is aborted. *)
Lemma hash_init_listening (s : HashState C) : listening (hs_browser (hash_init sps s)) = true.
Proof.
  unfold hash_init, hash_transitionTo. case_match; cbn [hs_browser snd]; [done|by rewrite ensureURL_listening].
Qed.

Lemma router_init_apps g (r r' : VueRouter C) app :
  router_init g r app = inr r' -> router_apps r' = router_apps r ++ [app].
Proof. unfold router_init. destruct (routerInstalled g); [|done]. by intros [= <-]. Qed.

Lemma app_mount_inv st : app_inv st -> app_inv (app_mount sps st).
Proof.
  intros (Hmain & Hnd & Hlt & Hl). unfold app_mount.
  destruct (router_init _ _ _) as [[]|r'] eqn:Hi.
  { split_and!; cbn [as_app as_router as_next as_page]; auto. by apply Forall_lt_S. }
  pose proof (router_init_apps _ _ _ _ Hi) as Ha.
  assert (Hfresh : as_next st ∉ router_apps (as_router st)).
  { intros Hx. apply (list.Forall_forall _ _) with (x := as_next st) in Hlt; [lia|done]. }
  destruct (as_app st) as [m|] eqn:Em.
  - split_and!; cbn [as_app as_router as_next as_page]; rewrite ?Ha;
      [by destruct (router_apps (as_router st))| | |done].
    + apply list.NoDup_app. split_and!; [done| |apply list.NoDup_singleton]. set_solver.
    + apply Forall_app. split; [by apply Forall_lt_S|]. constructor; [lia|done].
  - destruct (router_apps (as_router st)) eqn:E0; [|done]. cbn [app] in Ha.
    split_and!; cbn [as_app as_router as_next as_page]; rewrite ?Ha;
      [done|apply list.NoDup_singleton|constructor; [lia|done]|by rewrite hash_init_listening].
Qed.

Lemma app_destroy_inv app st : app_inv st -> app_inv (app_destroy app st).
Proof.
  intros Hinv. pose proof Hinv as (Hmain & Hnd & Hlt & Hl). unfold app_destroy.
  destruct (decide (app ∈ router_apps (as_router st))) as [Hin|Hin];
    [rewrite bool_decide_true by done|by rewrite bool_decide_false]. cbv zeta.
  destruct (router_apps (as_router st)) as [|m rest] eqn:Ea; [set_solver|].
  cbn [head] in Hmain. rewrite Hmain in Hl |- *.
  apply list.NoDup_cons in Hnd as [Hm Hnd]. apply Forall_cons_iff in Hlt as [Hm' Hlt].
  destruct (decide (Some m = Some app)) as [[= ->]|Hne];
    [rewrite bool_decide_true by done|rewrite bool_decide_false by done].
  - cbn [remove_first]. rewrite Nat.eqb_refl.
    destruct (head rest) eqn:Eh; split_and!; cbn [as_app as_router as_next as_page router_apps]; auto.
  - cbn [remove_first]. destruct (Nat.eqb_spec app m) as [->|_]; [done|].
    split_and!; cbn [as_app as_router as_next as_page router_apps head]; auto.
    + constructor; [by intros ?%remove_first_subset|by apply remove_first_NoDup].
    + constructor; [done|].
      apply list.Forall_forall. intros x Hx%remove_first_subset. by eapply list.Forall_forall in Hlt.
Qed.

Lemma app_step_inv st act : app_inv st -> app_inv (app_step sps st act).
Proof.
  destruct act as [|app|u]; cbn [app_step]; [apply app_mount_inv|apply app_destroy_inv|].
  intros (Hmain & Hnd & Hlt & Hl). split_and!; cbn [as_app as_router as_next as_page]; auto.
  by rewrite hash_step_listening_eq.
Qed.

(** What an app's creation and destruction do to the page. *)
Lemma app_mount_page st :
  as_page (app_mount sps st) = as_page st \/ as_page (app_mount sps st) = hash_init sps (as_page st).
Proof. unfold app_mount. repeat case_match; auto. Qed.

Lemma app_destroy_page app st :
  as_page (app_destroy app st) = as_page st \/ as_page (app_destroy app st) = hash_teardown (as_page st).
Proof. unfold app_destroy. repeat case_match; auto. Qed.

Lemma app_step_global st act : as_global (app_step sps st act) = as_global st.
Proof. destruct act; cbn [app_step]; [unfold app_mount|unfold app_destroy|]; by repeat case_match. Qed.

Lemma app_run_global st l : as_global (app_run sps st l) = as_global st.
Proof.
  unfold app_run. revert st. induction l as [|act l IH]; intros st; [done|].
  cbn [fold_left]. by rewrite IH, app_step_global.
Qed.

(** The router's history stays one the navigation machine of
    [History.v] reaches: teardown returns it to [START]. *)
Lemma app_step_reachable r st act :
  reachable r (hs_history (as_page st)) -> reachable r (hs_history (as_page (app_step sps st act))).
Proof.
  intros Hr. destruct act as [|app|u]; cbn [app_step].
  - destruct (app_mount_page st) as [->| ->]; [done|]. unfold hash_init.
    destruct (hash_transitionTo_history sps (as_page st) (getHash (hs_browser (as_page st)))
                (fun _ => setupListeners) setupListeners) as [->|Ht]; [done|].
    by eapply reach_step.
  - destruct (app_destroy_page app st) as [->| ->]; [done|]. cbn.
    rewrite (reachable_router _ _ Hr). constructor.
  - cbn [as_page]. destruct (hash_step_history sps (as_page st) u) as [->|[raw Ht]]; [done|].
    by eapply reach_step.
Qed.

Lemma app_run_reachable r st l :
  reachable r (hs_history (as_page st)) -> reachable r (hs_history (as_page (app_run sps st l))).
Proof.
  unfold app_run. revert st. induction l as [|act l IH]; intros st Hst; [done|].
  apply IH, app_step_reachable, Hst.
Qed.

(** With no app left, the browser's own actions neither navigate nor
    register a listener. *)
Lemma app_step_detached st act :
  browser_action act = true -> listening (hs_browser (as_page st)) = false ->
  let st' := app_step sps st act in
  as_app st' = as_app st /\ as_router st' = as_router st /\
  hs_history (as_page st') = hs_history (as_page st) /\ listening (hs_browser (as_page st')) = false.
Proof.
  intros Ha Hl. destruct act as [| |[| |n|p|]]; try done; cbn [app_step as_app as_page].
  - split_and!; [done..|]. cbn [hash_step hash_go hs_browser]. by rewrite history_go_listening.
  - split_and!; [done..|]. cbn [hash_step hs_browser]. by rewrite navigate_fragment_listening.
  - cbn [hash_step]. unfold dispatch_event. destruct (pending _); [done|]. by rewrite Hl.
Qed.

Lemma app_run_detached st l :
  Forall (fun act => browser_action act = true) l -> listening (hs_browser (as_page st)) = false ->
  let st' := app_run sps st l in
  as_app st' = as_app st /\ as_router st' = as_router st /\
  hs_history (as_page st') = hs_history (as_page st) /\ listening (hs_browser (as_page st')) = false.
Proof.
  unfold app_run. revert st. induction l as [|act l IH]; intros st Hl0 Hst; [done|].
  apply Forall_cons_iff in Hl0 as [Ha Hl0]. cbn [fold_left].
  destruct (app_step_detached st act Ha Hst) as (H1 & H2 & H3 & H4).
  destruct (IH _ Hl0 H4) as (H1' & H2' & H3' & H4'). by rewrite H1', H2', H3', H1, H2, H3.
Qed.

(** The invariant holds along every run. *)
Lemma app_run_inv st l : app_inv st -> app_inv (app_run sps st l).
Proof.
  unfold app_run. revert st. induction l as [|act l IH]; intros st Hst; [done|].
  apply IH, app_step_inv, Hst.
Qed.

End AppLemmas.
