(* ===== verification/AbstractHistory.v ===== *)
(** * Abstract mode: vue-router's [history/abstract.js]

    Outside a browser ([inBrowser] false: server-side rendering, a test
    runner without a DOM) [new VueRouter] runs in [abstract] mode.  The
    history keeps no URL: it is a stack of the routes navigated to and
    an index into it, [this.stack = []] and [this.index = -1] at first.
    - [push(location)]: [transitionTo], then
      [this.stack = this.stack.slice(0, this.index + 1).concat(route)]
      and [this.index++];
    - [replace(location)]: [transitionTo], then
      [this.stack = this.stack.slice(0, this.index).concat(route)];
    - [go(n)]: the target [this.index + n] out of [0 .. stack.length - 1]
      is ignored; otherwise [confirmTransition] of the stored route, and
      the index moves to the target when it goes through or is rejected
      as a duplicate;
    - [getCurrentLocation()]: the full path of the last route of the
      stack, or ['/'] on an empty stack;
    - [router.init(app)] navigates only in the [history] and [hash]
      modes ([initial_navigation]): in abstract mode the current route
      stays [START] until the first [push].

    The index is an integer ([Z]) because it starts at [-1], and
    [slice] is JavaScript's ([js_slice]): [slice(0, -1)] drops the last
    element, which is what [replace] does while the index is [-1].

    Theorems: the invariant [abstract_inv] (the index within
    [-1 .. stack.length - 1], the entry at a non-negative index a
    duplicate of the current route, every stored route a route the
    router matched) holds on every reachable state; back after a push
    that went through restores a duplicate of the route shown before;
    a push leaves its route on top of the stack, so forward has no
    target;
    a replace while the index is [-1] leaves the index there, so the
    next push drops the replaced entry. *)

From S2P Require Import Prelude Path RouteMap Matcher VueRouter History HashHistory.
Local Open Scope list_scope.
Local Open Scope Z_scope.

(** [router.init(app)] runs [transitionTo(getCurrentLocation())] when
    [history instanceof HTML5History || history instanceof HashHistory]. *)
Definition initial_navigation (m : RouterMode) : bool :=
  match m with ModeHistory | ModeHash => true | ModeAbstract => false end.

Section Abstract.
Context {C : Type}.

(** ** State *)

(** [this.current] (the base history), [this.stack] and [this.index]. *)
Record AbstractHistory := mkAbstractHistory {
  ah_history : History C;
  stack : list (Route C);
  index : Z
}.

(** [new AbstractHistory(router, base)]. *)
Definition AbstractHistory_new (r : VueRouter C) : AbstractHistory :=
  mkAbstractHistory (mkHistory r None) [] (-1).

(** ** Operations *)

(** [push(location)]: the stack above the index is dropped and the
    confirmed route pushed. *)
Definition abstract_push (a : AbstractHistory) (raw : RawLocation)
    : (NavigationFailure C + Route C) * AbstractHistory :=
  match transitionTo (ah_history a) raw with
  | inl err => (inl err, a)
  | inr h' =>
      let route := current_route h' in
      (inr route, mkAbstractHistory h' (js_slice (stack a) 0 (index a + 1) ++ [route]) (index a + 1))
  end.

(** [replace(location)]: the entry at the index is replaced; the index
    is unchanged. *)
Definition abstract_replace (a : AbstractHistory) (raw : RawLocation)
    : (NavigationFailure C + Route C) * AbstractHistory :=
  match transitionTo (ah_history a) raw with
  | inl err => (inl err, a)
  | inr h' =>
      let route := current_route h' in
      (inr route, mkAbstractHistory h' (js_slice (stack a) 0 (index a) ++ [route]) (index a))
  end.

(** [go(n)]: out of range, nothing; otherwise the stored route is
    confirmed against the current one; a duplicate still moves the
    index ([isNavigationFailure(err, duplicated)]), the only failure
    without navigation guards. *)
Definition abstract_go (n : Z) (a : AbstractHistory) : AbstractHistory :=
  let targetIndex := index a + n in
  if (targetIndex <? 0) || (Z.of_nat (length (stack a)) <=? targetIndex) then a
  else
    match stack a !! Z.to_nat targetIndex with
    | None => a
    | Some route =>
        match confirmTransition (ah_history a) route with
        | inr h' => mkAbstractHistory h' (stack a) targetIndex
        | inl _ => mkAbstractHistory (ah_history a) (stack a) targetIndex
        end
    end.

(** [getCurrentLocation()]. *)
Definition abstract_getCurrentLocation (a : AbstractHistory) : string :=
  match list.last (stack a) with Some r => fullPath r | None => "/" end.

(** ** Executions *)

(** The calls of the router API in abstract mode: [router.push],
    [router.replace] and [router.go] ([back] is [go(-1)], [forward]
    is [go(1)]). *)
Inductive AbstractAction :=
| APush (raw : RawLocation)
| AReplace (raw : RawLocation)
| AGo (n : Z).

Definition abstract_step (a : AbstractHistory) (act : AbstractAction) : AbstractHistory :=
  match act with
  | APush raw => snd (abstract_push a raw)
  | AReplace raw => snd (abstract_replace a raw)
  | AGo n => abstract_go n a
  end.

Definition abstract_run (a : AbstractHistory) (l : list AbstractAction) : AbstractHistory :=
  fold_left abstract_step l a.

(** The states an abstract-mode router reaches from its construction. *)
Inductive abstract_reachable (r : VueRouter C) : AbstractHistory -> Prop :=
| areach_new : abstract_reachable r (AbstractHistory_new r)
| areach_step a act : abstract_reachable r a -> abstract_reachable r (abstract_step a act).

(** ** The invariant *)

(** A route the router matched from some location and current path. *)
Definition matched_by (r : VueRouter C) (route : Route C) : Prop :=
  exists raw cur, route = router_match r raw cur.

(** The index within [-1 .. stack.length - 1]; at a non-negative index,
    the stored route is a duplicate of the current route (which is not
    [START]); the current route and every stored route were matched by
    the router. *)
Definition abstract_inv (r : VueRouter C) (a : AbstractHistory) : Prop :=
  -1 <= index a < Z.of_nat (length (stack a)) /\
  (0 <= index a -> exists c e, current (ah_history a) = Some c /\
     stack a !! Z.to_nat (index a) = Some e /\ duplicate_of e c = true) /\
  history_router (ah_history a) = r /\
  (forall c, current (ah_history a) = Some c -> matched_by r c) /\
  Forall (matched_by r) (stack a).

End Abstract.

Arguments AbstractHistory : clear implicits.

(** ** Lemmas *)

Lemma take_snoc_lookup {A} (l : list A) (k : nat) (x : A) :
  (k <= length l)%nat ->
  length (take k l ++ [x]) = S k /\ (take k l ++ [x]) !! k = Some x.
Proof.
  intros Hk. rewrite length_app, length_take. cbn [length]. split; [lia|].
  rewrite lookup_app_r by (rewrite length_take; lia). rewrite length_take.
  by replace (k - k `min` length l)%nat with 0%nat by lia.
Qed.

Section AbstractLemmas.
Context {C : Type}.
Implicit Types (r : VueRouter C) (a : AbstractHistory C).

Lemma matched_by_path r route : matched_by r route -> route_path route <> "".
Proof. intros (raw & cur & ->). auto with router. Qed.

Lemma abstract_new_inv r : abstract_inv r (AbstractHistory_new r).
Proof. split_and!; cbn; [lia|lia|lia|done|done|constructor]. Qed.

(** A route [transitionTo] makes current: matched by the router, and
    a duplicate of itself. *)
Lemma transitionTo_matched_by r (h h' : History C) raw :
  history_router h = r -> transitionTo h raw = inr h' ->
  history_router h' = r /\ current h' = Some (current_route h') /\ matched_by r (current_route h').
Proof.
  intros Hr Ht. rewrite (transitionTo_router _ _ _ Ht), Hr.
  unfold current_route. rewrite (transitionTo_current _ _ _ Ht), Hr. cbn [default].
  split_and!; [done|done|]. by do 2 eexists.
Qed.

(** The new top of the stack after the confirmed route is stored at
    index [k]. *)
Lemma abstract_store_inv r a h' (k : nat) :
  (k <= length (stack a))%nat -> Forall (matched_by r) (stack a) ->
  history_router h' = r -> current h' = Some (current_route h') -> matched_by r (current_route h') ->
  abstract_inv r (mkAbstractHistory h' (take k (stack a) ++ [current_route h']) (Z.of_nat k)).
Proof.
  intros Hk Hall Hr Hc Hm. destruct (take_snoc_lookup (stack a) k (current_route h') Hk) as [Hl Hx].
  split_and!; cbn [index stack ah_history]; rewrite ?Hl; [lia|lia| |done| |].
  - intros _. exists (current_route h'), (current_route h'). rewrite Nat2Z.id, Hx.
    split_and!; [done|done|]. apply duplicate_of_refl, (matched_by_path r), Hm.
  - intros c. rewrite Hc. by intros [= <-].
  - apply Forall_app; split; [by apply Forall_take|by constructor].
Qed.

Lemma abstract_push_inv r a raw : abstract_inv r a -> abstract_inv r (snd (abstract_push a raw)).
Proof.
  intros Hinv. pose proof Hinv as (Hb & Hidx & Hr & Hcur & Hall). unfold abstract_push.
  destruct (transitionTo _ _) as [e|h'] eqn:Ht; [exact Hinv|]. cbn [snd].
  destruct (transitionTo_matched_by r _ _ _ Hr Ht) as (Hr' & Hc' & Hm').
  rewrite js_slice_prefix by lia.
  replace (index a + 1) with (Z.of_nat (Z.to_nat (index a + 1))) at 2 by lia.
  apply abstract_store_inv; auto. lia.
Qed.

Lemma abstract_replace_inv r a raw : abstract_inv r a -> abstract_inv r (snd (abstract_replace a raw)).
Proof.
  intros Hinv. pose proof Hinv as (Hb & Hidx & Hr & Hcur & Hall). unfold abstract_replace.
  destruct (transitionTo _ _) as [e|h'] eqn:Ht; [exact Hinv|]. cbn [snd].
  destruct (transitionTo_matched_by r _ _ _ Hr Ht) as (Hr' & Hc' & Hm').
  destruct (Z.eq_dec (index a) (-1)) as [Hm1|Hm1].
  - rewrite Hm1, js_slice_init. split_and!; cbn [index stack ah_history];
      rewrite ?length_app, ?length_take; cbn [length]; [lia|lia|lia|done| |].
    + intros c. rewrite Hc'. by intros [= <-].
    + apply Forall_app; split; [by apply Forall_take|by constructor].
  - rewrite js_slice_prefix by lia.
    replace (index a) with (Z.of_nat (Z.to_nat (index a))) at 2 by lia.
    apply abstract_store_inv; auto. lia.
Qed.

Lemma abstract_go_inv r a n : abstract_inv r a -> abstract_inv r (abstract_go n a).
Proof.
  intros Hinv. unfold abstract_go. cbv zeta.
  destruct (_ || _) eqn:Hg; [exact Hinv|]. apply orb_false_elim in Hg as [Hlo Hhi].
  apply Z.ltb_ge in Hlo. apply Z.leb_gt in Hhi.
  destruct (stack a !! _) as [route|] eqn:Hl; [|exact Hinv].
  pose proof Hinv as (Hb & Hidx & Hr & Hcur & Hall).
  assert (matched_by r route) as Hm by (eapply Forall_lookup_1; eauto).
  destruct (confirmTransition _ _) as [e|h'] eqn:Hct.
  - destruct (confirmTransition_inl _ _ _ Hct) as (_ & c & Hc & Hd).
    split_and!; cbn [index stack ah_history]; [lia|lia| |done|done|done].
    intros _. by exists c, route.
  - apply confirmTransition_inr in Hct as ->.
    split_and!; cbn [index stack ah_history current history_router]; [lia|lia| |done| |done].
    + intros _. exists route, route. split_and!; [done|done|]. apply duplicate_of_refl, (matched_by_path r), Hm.
    + by intros c [= <-].
Qed.

Lemma abstract_step_inv r a act : abstract_inv r a -> abstract_inv r (abstract_step a act).
Proof. destruct act; simpl; auto using abstract_push_inv, abstract_replace_inv, abstract_go_inv. Qed.

(** The invariant holds on every reachable state, by rule induction. *)
Lemma abstract_reachable_inv r a : abstract_reachable r a -> abstract_inv r a.
Proof. induction 1; auto using abstract_new_inv, abstract_step_inv. Qed.

Lemma abstract_run_reachable r l : abstract_reachable r (abstract_run (AbstractHistory_new r) l).
Proof.
  unfold abstract_run. generalize (areach_new r).
  generalize (AbstractHistory_new r). induction l as [|act l IH]; intros a Ha; [done|].
  apply IH. by constructor.
Qed.

(** Back after a push that went through, from a non-negative index:
    the stored entry under the pushed one is confirmed again and becomes
    current, and the index and stack are those after the push but one
    step down.  That entry is a duplicate of the route shown before the
    push. *)
Lemma abstract_push_back r a raw route a' :
  abstract_inv r a -> 0 <= index a -> abstract_push a raw = (inr route, a') ->
  exists c e, current (ah_history a) = Some c /\ stack a !! Z.to_nat (index a) = Some e /\
    duplicate_of e c = true /\
    let b := abstract_go (-1) a' in
    current (ah_history b) = Some e /\ index b = index a /\ stack b = stack a'.
Proof.
  intros Hinv Hi Hp. pose proof Hinv as (Hb & Hidx & Hr & Hcur & Hall).
  destruct (Hidx Hi) as (c & e & Hc & He & Hd). exists c, e. split_and!; [done..|].
  revert Hp. unfold abstract_push. rewrite (transitionTo_Some _ _ _ Hc). cbv zeta.
  set (q := router_match _ raw _). destruct (duplicate_of q c) eqn:Hqc; [done|].
  intros [= <- <-]. unfold current_route. cbn [current default id].
  rewrite js_slice_prefix by lia.
  assert (Hk : (Z.to_nat (index a + 1) <= length (stack a))%nat) by lia.
  destruct (take_snoc_lookup (stack a) _ q Hk) as [Hl _].
  unfold abstract_go. cbn [index stack ah_history]. rewrite Hl.
  replace (index a + 1 + -1) with (index a) by lia.
  rewrite (proj2 (Z.ltb_ge _ _) Hi).
  replace (Z.of_nat (S (Z.to_nat (index a + 1))) <=? index a) with false by (symmetry; apply Z.leb_gt; lia).
  cbn [orb].
  rewrite lookup_app_l, lookup_take_lt, He by (rewrite ?length_take; lia). cbn iota.
  assert (He' : matched_by r e) by (eapply Forall_lookup_1; eauto).
  assert (Hc' : matched_by r c) by auto.
  rewrite (confirmTransition_Some _ q) by done.
  destruct (duplicate_of e q) eqn:Heq; [|done].
  exfalso. apply matched_by_path in He', Hc'.
  assert (route_path q <> "") by (unfold q; auto with router).
  rewrite duplicate_of_sym in Heq by done.
  rewrite (duplicate_of_trans q e c) in Hqc by done. discriminate.
Qed.

(** [replace] on a fresh history: the route is stored but the index
    stays at [-1] ([slice(0, -1)] of the empty stack is empty). *)
Lemma abstract_replace_new r raw :
  let route := router_match r raw "/" in
  abstract_replace (AbstractHistory_new r) raw =
  (inr route, mkAbstractHistory (mkHistory r (Some route)) [route] (-1)).
Proof. reflexivity. Qed.


(** The first [push] on a fresh history always goes through: [START]
    is a duplicate of nothing. *)
Lemma abstract_push_new r raw :
  let route := router_match r raw "/" in
  abstract_push (AbstractHistory_new r) raw =
  (inr route, mkAbstractHistory (mkHistory r (Some route)) [route] 0).
Proof. reflexivity. Qed.

(** A push that goes through drops the entries above the index: the
    stack is the entries up to the old index and the pushed route, which
    is current and on top, so [go(1)] has no target. *)
Lemma abstract_push_top r a raw route a' :
  abstract_inv r a -> abstract_push a raw = (inr route, a') ->
  stack a' = take (Z.to_nat (index a + 1)) (stack a) ++ [route] /\ index a' = index a + 1 /\
  current (ah_history a') = Some route /\ abstract_go 1 a' = a'.
Proof.
  intros Hinv Hp. pose proof Hinv as (Hb & _ & Hr & _ & _). revert Hp. unfold abstract_push.
  destruct (transitionTo _ _) as [e|h'] eqn:Ht; [done|]. intros [= <- <-].
  destruct (transitionTo_matched_by r _ _ _ Hr Ht) as (_ & Hc' & _).
  rewrite js_slice_prefix by lia. cbn [stack index ah_history]. split_and!; [done|done|done|].
  assert (Hk : (Z.to_nat (index a + 1) <= length (stack a))%nat) by lia.
  destruct (take_snoc_lookup (stack a) _ (current_route h') Hk) as [Hl _].
  unfold abstract_go. cbn [index stack]. rewrite Hl.
  replace (Z.of_nat (S (Z.to_nat (index a + 1))) <=? index a + 1 + 1) with true
    by (symmetry; apply Z.leb_le; lia).
  by rewrite orb_true_r.
Qed.

End AbstractLemmas.
