(* ===== verification/RouterLink.v ===== *)
(** * [<router-link>]: vue-router's [components/link.js]

    [Vue.use(Router)] registers the component [RouterLink].  Its
    [render] resolves the [to] prop against the current route with
    [router.resolve] ([router_resolve]: the location, the route it
    matches, and the [href] [createHref] builds from the history's base
    and the router's mode), then computes the classes of the link: the
    exact-active class when the current route [isSameRoute] as the
    target, the active class when the current route includes it
    ([isIncludedRoute]), or, with the [exact] prop, the exact-active
    test again.  The class names come from the props, then from the
    router options [linkActiveClass] and [linkExactActiveClass], then
    from the defaults; the classes are a JavaScript object, so when both
    names are equal the active test overwrites the exact one
    ([link_classes], a [gmap]).  A click passes [guardEvent] (no
    modifier key, not prevented, the main button, no [_blank] target)
    and calls [router.push] or, with the [replace] prop,
    [router.replace] ([link_click]).

    The query of a route is its text here (see [History.v]);
    [queryIncludes] compares the keys [parseQuery] gives, without the
    percent-decoding of keys.  The props [tag], [custom], [event],
    [append] and [exactPath] are not modelled (their defaults: an [<a>],
    rendered, on [click], no appending, full comparison). *)

From stdpp Require Import gmap.
From S2P Require Import Prelude Path RouteMap Matcher VueRouter History HashHistory HashSync.
Local Open Scope list_scope.

(** ** The base and the [href] *)

(** JavaScript's [\s] on the code units 0-255. *)
Definition js_space (a : ascii) : bool :=
  let n := nat_of_ascii a in (Nat.leb 9 n && Nat.leb n 13) || Nat.eqb n 32 || Nat.eqb n 160.

(** [cleanPath(path)]: [path.replace(/\/(?:\s*\/)+/g, '/')].  After a
    slash, blanks followed by a slash are dropped with that slash;
    blanks followed by anything else are kept. *)
Fixpoint clean_after (ws : string) (s : string) : string :=
  match s with
  | EmptyString => ws
  | String a r =>
      if Ascii.eqb a "/" then clean_after "" r
      else if js_space a then clean_after (ws +:+ String a "") r
      else ws +:+ String a (clean_normal r)
  end
with clean_normal (s : string) : string :=
  match s with
  | EmptyString => ""
  | String a r => if Ascii.eqb a "/" then String a (clean_after "" r) else String a (clean_normal r)
  end.

Definition cleanPath (p : string) : string := clean_normal p.

Fixpoint drop_until_slash (s : string) : string :=
  match s with
  | EmptyString => ""
  | String a r => if Ascii.eqb a "/" then s else drop_until_slash r
  end.

(** [base.replace(/^https?:\/\/[^\/]+/, '')]. *)
Definition strip_origin (base : string) : string :=
  let host := if String.prefix "https://" base then Some (substring 8 (String.length base) base)
              else if String.prefix "http://" base then Some (substring 7 (String.length base) base)
              else None in
  match host with
  | Some (String a r) => if Ascii.eqb a "/" then base else drop_until_slash r
  | _ => base
  end.

(** [normalizeBase(options.base)] without a [base] option, in a
    browser: the [href] of the page's [<base>] element, or ['/'], without
    its origin, with a leading slash and without a final one. *)
Definition normalizeBase (base_href : option string) : string :=
  let base := match base_href with Some (String a r) => String a r | _ => "/" end in
  let base := strip_origin base in
  let base := if starts_with_slash base then base else "/" +:+ base in
  strip_trailing_slash base.

(** [createHref(base, fullPath, mode)]. *)
Definition createHref (base fullPath : string) (m : RouterMode) : string :=
  let path := match m with ModeHash => "#" +:+ fullPath | _ => fullPath end in
  if String.eqb base "" then path else cleanPath (base +:+ "/" +:+ path).

Section Link.
Context {C : Type}.

(** [router.resolve(to, current)]: the route [match] gives and its
    [href]; [base] is [this.history.base]. *)
Definition router_resolve (r : VueRouter C) (base : string) (to : RawLocation) (current : Route C)
    : Route C * string :=
  let route := router_match r to (route_path current) in
  (route, createHref base (fullPath route) (router_mode r)).

(** ** Active links *)

(** [p.replace(/\/?$/, '/')]: exactly one final slash. *)
Definition with_final_slash (p : string) : string := strip_trailing_slash p +:+ "/".

(** JavaScript's [s.trim()] on the code units 0-255 (the line
    terminators [\n] and [\r] are blanks too). *)
Fixpoint trim_start (s : string) : string :=
  match s with
  | String a r => if js_space a then trim_start r else s
  | EmptyString => ""
  end.

Definition trim (s : string) : string :=
  string_of_list_ascii (rev (list_ascii_of_string (trim_start
    (string_of_list_ascii (rev (list_ascii_of_string (trim_start s))))))).

Fixpoint split_on (c : ascii) (s : string) : list string :=
  match s with
  | EmptyString => [""]
  | String a r =>
      if Ascii.eqb a c then "" :: split_on c r
      else match split_on c r with
           | w :: ws => String a w :: ws
           | [] => [String a ""]
           end
  end.

(** [param.replace(/\+/g, ' ')]. *)
Fixpoint plus_to_space (s : string) : string :=
  match s with
  | EmptyString => ""
  | String a r => String (if Ascii.eqb a "+" then " "%char else a) (plus_to_space r)
  end.

(** The keys of [parseQuery(query)]: the text is trimmed and loses one
    leading [?], [#] or [&]; each [&]-separated parameter contributes the
    part before its first [=], with [+] read as a space. *)
Definition query_keys (query : string) : list string :=
  let q := trim query in
  let q := match q with
           | String a r => if Ascii.eqb a "?" || Ascii.eqb a "#" || Ascii.eqb a "&" then r else q
           | EmptyString => q
           end in
  match q with
  | EmptyString => []
  | _ => map (fun param => default "" (head (split_on "=" (plus_to_space param)))) (split_on "&" q)
  end.

(** [queryIncludes(current, target)]: every key of the target is a key
    of the current query. *)
Definition queryIncludes (current target : string) : bool :=
  forallb (fun k => bool_decide (k ∈ query_keys current)) (query_keys target).

(** [isIncludedRoute(current, target)]. *)
Definition isIncludedRoute (current target : Route C) : bool :=
  String.prefix (with_final_slash (route_path target)) (with_final_slash (route_path current))
  && (String.eqb (route_hash target) "" || String.eqb (route_hash current) (route_hash target))
  && queryIncludes (route_query current) (route_query target).

(** The props of [<router-link>] the model keeps. *)
Record LinkProps := mkLinkProps {
  link_to : RawLocation;
  link_exact : bool;
  link_replace : bool;
  link_activeClass : option string;
  link_exactActiveClass : option string;
  link_ariaCurrentValue : string
}.

(** [<router-link :to="to">] with every other prop at its default. *)
Definition link_props (to : RawLocation) : LinkProps := mkLinkProps to false false None None "page".

Record LinkRender := mkLinkRender {
  link_href : string;
  link_class : gmap string bool;
  link_aria_current : option string
}.

(** The [classes] object of [render]. *)
Definition link_classes (r : VueRouter C) (props : LinkProps) (current target : Route C)
    : gmap string bool :=
  let activeClassFallback := default "router-link-active" (linkActiveClass (router_options_of r)) in
  let exactActiveClassFallback :=
    default "router-link-exact-active" (linkExactActiveClass (router_options_of r)) in
  let activeClass := default activeClassFallback (link_activeClass props) in
  let exactActiveClass := default exactActiveClassFallback (link_exactActiveClass props) in
  let exact := isSameRoute current (Some target) in
  let active := if link_exact props then exact else isIncludedRoute current target in
  <[activeClass := active]> (<[exactActiveClass := exact]> ∅).

(** [render()]: the [href], the classes and [aria-current]. *)
Definition link_render (r : VueRouter C) (base : string) (props : LinkProps) (current : Route C)
    : LinkRender :=
  let '(route, href) := router_resolve r base (link_to props) current in
  let classes := link_classes r props current route in
  let exactActiveClass := default (default "router-link-exact-active"
                                     (linkExactActiveClass (router_options_of r)))
                                  (link_exactActiveClass props) in
  mkLinkRender href classes
    (if bool_decide (classes !! exactActiveClass = Some true) then Some (link_ariaCurrentValue props)
     else None).

(** Vue renders the classes whose value is true. *)
Definition has_class (lr : LinkRender) (c : string) : bool :=
  bool_decide (link_class lr !! c = Some true).

(** ** Clicks *)

Record MouseEvent := mkMouseEvent {
  metaKey : bool;
  altKey : bool;
  ctrlKey : bool;
  shiftKey : bool;
  defaultPrevented : bool;
  button : option nat;
  target_blank : bool   (** the link's [target] attribute names [_blank] *)
}.

(** A left click without modifier keys. *)
Definition plain_click : MouseEvent := mkMouseEvent false false false false false (Some 0) false.

(** [guardEvent(e)]. *)
Definition guardEvent (e : MouseEvent) : bool :=
  negb (metaKey e || altKey e || ctrlKey e || shiftKey e)
  && negb (defaultPrevented e)
  && match button e with None => true | Some b => Nat.eqb b 0 end
  && negb (target_blank e).

(** The click [handler] on a hash-mode page: [router.push(location,
    noop)] or [router.replace(location, noop)]; the outcome is
    dropped. *)
Definition link_click (sps : bool) (props : LinkProps) (e : MouseEvent) (s : HashState C)
    : HashState C :=
  if guardEvent e then
    if link_replace props then snd (hash_replace sps s (link_to props))
    else snd (hash_push sps s (link_to props))
  else s.

End Link.

(** ** Lemmas *)

Section LinkLemmas.
Context {C : Type}.

(** With the default class names, the two classes are the two tests. *)
Lemma link_classes_default (r : VueRouter C) to (current target : Route C) :
  linkActiveClass (router_options_of r) = None -> linkExactActiveClass (router_options_of r) = None ->
  link_classes r (link_props to) current target !! "router-link-active" =
    Some (isIncludedRoute current target) /\
  link_classes r (link_props to) current target !! "router-link-exact-active" =
    Some (isSameRoute current (Some target)).
Proof.
  intros Ha He. unfold link_classes. rewrite Ha, He. cbn [default link_activeClass link_exactActiveClass link_props].
  split; [by rewrite lookup_insert_eq|]. by rewrite lookup_insert_ne, lookup_insert_eq.
Qed.

Lemma has_class_default (r : VueRouter C) base to (current : Route C) :
  linkActiveClass (router_options_of r) = None -> linkExactActiveClass (router_options_of r) = None ->
  let target := router_match r to (route_path current) in
  has_class (link_render r base (link_props to) current) "router-link-active" = isIncludedRoute current target /\
  has_class (link_render r base (link_props to) current) "router-link-exact-active" =
    isSameRoute current (Some target).
Proof.
  intros Ha He target. destruct (link_classes_default r to current target Ha He) as [H1 H2].
  unfold has_class, link_render, router_resolve. cbn [link_class]. fold target.
  change (link_to (link_props to)) with to. fold target. rewrite H1, H2.
  split; [destruct (isIncludedRoute _ _)|destruct (isSameRoute _ _)]; done.
Qed.

Lemma with_final_slash_slash p : starts_with_slash p = true -> String.prefix "/" (with_final_slash p) = true.
Proof.
  intros H. destruct p as [|a p]; [discriminate|]. apply Ascii.eqb_eq in H as ->.
  destruct p as [|b p]; simpl; [done|]. by destruct (_ +:+ "/").
Qed.

(** A link to the root path without query or hash is included in every
    route with an absolute path. *)
Lemma isIncludedRoute_root (current target : Route C) :
  route_path target = "/" -> route_hash target = "" -> route_query target = "" ->
  starts_with_slash (route_path current) = true -> isIncludedRoute current target = true.
Proof.
  intros Hp Hh Hq Hc. unfold isIncludedRoute, queryIncludes. rewrite Hp, Hh, Hq.
  rewrite with_final_slash_slash by done. reflexivity.
Qed.

(** The exact test against the root without query or hash: the full
    path of the current route is ["/"]. *)
Lemma isSameRoute_root (current target : Route C) :
  route_wf current = true ->
  route_path target = "/" -> route_query target = "" -> route_hash target = "" ->
  isSameRoute current (Some target) = String.eqb (fullPath current) "/".
Proof.
  intros Hwf Hp Hq Hh. apply eq_true_iff_eq. rewrite String.eqb_eq, fullPath_root by done.
  pose proof (starts_with_slash_nonempty _ (route_wf_slash _ Hwf)) as Hne.
  unfold isSameRoute. rewrite Hp, Hq, Hh, (proj2 (String.eqb_neq _ _) Hne). simpl. split.
  - intros H. bool_to_prop. split_and!; [|done|done].
    destruct (strip_trailing_slash_empty (route_path current)) as [|]; done.
  - intros (-> & -> & ->). reflexivity.
Qed.

Lemma link_click_plain sps to (s : HashState C) :
  link_click sps (link_props to) plain_click s = snd (hash_push sps s to).
Proof. reflexivity. Qed.

End LinkLemmas.
