(* ===== verification/RouterIndex.v ===== *)
(** * The route table of [src/vue-frontend/src/router/index.js]

    The file imports the router plugin (line 2) and three view
    components (lines 3-5), installs the plugin (line 7) and exports a
    router built from a table of three route descriptors (lines 9-27).
    [Router] is the imported plugin, [Component] stands for the imported
    component references, [route_Home], [route_Counter] and [route_Show]
    for the three object literals, [routes] for the array, [router_options]
    for the options object and [index_js] for the evaluation of the module
    from a global Vue state, in a browser or not; [exported_router] is
    the router it exports in a browser.

    Theorems: the table's paths and names are distinct and all three
    routes reach the path list and the name map; the complete description
    of the view each URL renders, proved against the resolver contract of
    [Matcher.v] and so for vue-router's matcher; name to path round trips;
    the router the module exports passes [init]; the navigation histories
    it reaches display the table's views, and each view stays reachable.  The names of
    the table lead to its three records, which have absolute paths and
    are the records their paths match ([index_named_paths_ok],
    [index_named_self_match]); a declared path or name leads to its
    route from every current path ([leads_to], [index_path_leads],
    [index_name_leads]). *)

From stdpp Require Import gmap.
From S2P Require Import Prelude Path RouteMap Matcher VueRouter History HashHistory HashSync.
Local Open Scope list_scope.

(** ** The program *)

(** [import Home from "@/components/Home"] and the two other imports. *)
Inductive Component := Home | Counter | Show.

#[export] Instance Component_eq_dec : EqDecision Component.
Proof. solve_decision. Defined.

(** [{ path: "/", name: "Home", component: Home }] *)
Definition route_Home : RouteConfig Component :=
  mkRouteConfig "/" (Some "Home") Home None None.

(** [{ path: "/Counter", name: "Counter", component: Counter }] *)
Definition route_Counter : RouteConfig Component :=
  mkRouteConfig "/Counter" (Some "Counter") Counter None None.

(** [{ path: "/Show", name: "Show", component: Show }] *)
Definition route_Show : RouteConfig Component :=
  mkRouteConfig "/Show" (Some "Show") Show None None.

(** [routes: [ ... ]] *)
Definition routes : list (RouteConfig Component) := [route_Home; route_Counter; route_Show].

(** [{ routes: [ ... ] }]: no [mode], so hash mode. *)
Definition router_options : RouterOptions Component := mkRouterOptions routes None None None.

(** Line 2: [import Router from "vue-router"], the plugin object. *)
Definition Router : Plugin := VueRouterPlugin.

(** Line 7: [Vue.use(Router)]. *)
Definition use_router (g : VueGlobal) : VueGlobal := Vue_use g Router.

(** The module body: line 7, then [export default new Router({ routes })],
    in a browser that may or may not support [pushState], or outside a
    browser ([inBrowser] false: server-side rendering, a test runner
    without a DOM). *)
Definition index_js (g : VueGlobal) (inBrowser supportsPushState : bool)
    : VueGlobal * VueRouter Component :=
  let g := use_router g in
  (g, VueRouter_new router_options inBrowser supportsPushState).

(** The router [index.js] exports in a browser, whatever its [pushState]. *)
Definition exported_router (g : VueGlobal) (sps : bool) : VueRouter Component :=
  snd (index_js g true sps).

(** ** The views, as the specification lists them *)

(** The view rendered at a non-empty path: ["/"] renders [Home], and
    ["/Counter"] and ["/Show"] render their views up to ASCII and Latin-1
    case and an optional final slash; every other path renders nothing. *)
Definition index_view (url : string) : option Component :=
  if ci_eqb "/" url then Some Home
  else if ci_eqb "/Counter" url || ci_eqb "/Counter/" url then Some Counter
  else if ci_eqb "/Show" url || ci_eqb "/Show/" url then Some Show
  else None.

(** The path a named route resolves to, as [createRoute] reports it. *)
Definition shown_path (r : RouteRecord Component) : string :=
  if String.eqb (record_path r) "" then "/" else record_path r.

(** ** Lemmas *)

Lemma routes_paths_distinct_dec : paths_distinct routes.
Proof. unfold paths_distinct. vm_compute. repeat constructor; set_solver. Qed.

Lemma routes_insensitive : all_insensitive routes.
Proof. repeat constructor. Qed.

Lemma routes_match_order : match_order (first_per_path [] routes) = routes.
Proof. reflexivity. Qed.

(** What each route's compiled path accepts. *)
Lemma accepts_Home url : accepts url route_Home = ci_eqb "" url || ci_eqb "/" url.
Proof. reflexivity. Qed.

Lemma accepts_Counter url : accepts url route_Counter = ci_eqb "/Counter" url || ci_eqb "/Counter/" url.
Proof. reflexivity. Qed.

Lemma accepts_Show url : accepts url route_Show = ci_eqb "/Show" url || ci_eqb "/Show/" url.
Proof. reflexivity. Qed.

Lemma ci_eqb_empty_l url : url <> "" -> ci_eqb "" url = false.
Proof. by destruct url. Qed.

Lemma index_spec_resolve url :
  url <> "" -> component <$> spec_resolve routes url = index_view url.
Proof.
  intros Hurl. unfold spec_resolve, index_view. rewrite routes_match_order. cbn [find routes].
  rewrite accepts_Home, accepts_Counter, accepts_Show, ci_eqb_empty_l, orb_false_l by done.
  destruct (ci_eqb "/" url); [done|].
  destruct (ci_eqb "/Counter" url || ci_eqb "/Counter/" url); [done|].
  by destruct (ci_eqb "/Show" url || ci_eqb "/Show/" url).
Qed.

Lemma routes_nameMap n :
  nameMap (createRouteMap routes) !! n =
  make_record <$> first_with_name n routes.
Proof. apply (foldl_nameMap empty_route_map). Qed.

Lemma exported_router_matcher g sps : matcher (exported_router g sps) = createRouteMap routes.
Proof. reflexivity. Qed.

(** What the exported router's [match] returns for a location string. *)
Lemma index_router_match g sps (raw : string) cur :
  router_match (exported_router g sps) raw cur =
  createRoute (if String.eqb (loc_path (normalizeLocation raw cur)) "" then None
               else make_record <$> spec_resolve routes (loc_path (normalizeLocation raw cur)))
              (normalizeLocation raw cur).
Proof.
  unfold router_match. rewrite exported_router_matcher, normalizeLocation_unnamed.
  unfold matcher_match at 1. cbn [loc_name truthy_name loc_path].
  destruct (String.eqb_spec (loc_path (normalizeLocation raw cur)) "") as [E|E]; [done|].
  rewrite match_path_walk. done.
Qed.

Lemma route_path_createRoute (record : option (RouteRecord Component)) loc :
  loc_path loc <> "" -> route_path (createRoute record loc) = loc_path loc.
Proof. intros H. unfold createRoute; simpl. by rewrite (proj2 (String.eqb_neq _ _) H). Qed.

Lemma view_createRoute (o : option (RouteConfig Component)) loc :
  view (createRoute (make_record <$> o) loc) = component <$> o.
Proof. by destruct o. Qed.

(** An absolute location matched by the exported router does not depend
    on the global state, the browser or the current route. *)
Lemma exported_router_match_abs g sps (raw : string) cur :
  starts_with_slash (pp_path (parsePath raw)) = true ->
  router_match (exported_router g sps) raw cur = router_match (exported_router fresh_vue true) raw "/".
Proof.
  intros Habs. unfold router_match. rewrite !exported_router_matcher.
  by rewrite (normalizeLocation_absolute raw cur "/").
Qed.

(** A property of the three records holds of every record the name map
    of the exported router files. *)
Lemma index_named_cases g sps (P : RouteRecord Component -> Prop) :
  P (make_record route_Home) -> P (make_record route_Counter) -> P (make_record route_Show) ->
  forall n rec, nameMap (matcher (exported_router g sps)) !! n = Some rec -> P rec.
Proof.
  intros HH HC HS n rec. rewrite exported_router_matcher, routes_nameMap.
  unfold first_with_name, routes. cbn [find].
  repeat case_bool_decide; intros Hr; [..|discriminate]; injection Hr as <-; done.
Qed.

(** The named records of the exported router have absolute paths. *)
Lemma index_named_paths_ok g sps : named_paths_ok (matcher (exported_router g sps)).
Proof. intros n rec Hn. pattern rec. refine (index_named_cases g sps _ _ _ _ n rec Hn); reflexivity. Qed.

(** Each named record of the exported router is the record its path
    matches. *)
Lemma index_named_self_match g sps : named_self_match (matcher (exported_router g sps)).
Proof.
  intros n rec Hn. rewrite exported_router_matcher. pattern rec.
  refine (index_named_cases g sps _ _ _ _ n rec Hn); vm_compute; reflexivity.
Qed.

(** A view the exported router displays for a location string is the
    one the table assigns to the route's path. *)
Lemma exported_router_string_view_sound g sps (raw : string) cur c :
  view (router_match (exported_router g sps) raw cur) = Some c ->
  index_view (route_path (router_match (exported_router g sps) raw cur)) = Some c.
Proof.
  rewrite index_router_match.
  destruct (String.eqb_spec (loc_path (normalizeLocation raw cur)) "") as [E|E]; [done|].
  rewrite route_path_createRoute, view_createRoute by done. intros Hv.
  by rewrite <- index_spec_resolve.
Qed.

(** The same for every location, by string or by name. *)
Lemma exported_router_view_sound g sps raw cur c :
  view (router_match (exported_router g sps) raw cur) = Some c ->
  index_view (route_path (router_match (exported_router g sps) raw cur)) = Some c.
Proof.
  destruct raw as [raw|n]; [apply exported_router_string_view_sound|].
  destruct (String.eqb_spec n "") as [->|Hne].
  { rewrite router_match_named_empty. apply exported_router_string_view_sound. }
  rewrite router_match_named by done.
  destruct (_ !! n) as [rec|] eqn:E; [|done]. pattern rec.
  refine (index_named_cases g sps _ _ _ _ n rec E); vm_compute; congruence.
Qed.

(** A location leads to a declared route when, from every current path,
    [match] gives that route's record and view at its declared path, with
    no query and no hash. *)
Definition leads_to (g : VueGlobal) (sps : bool) (raw : RawLocation) (rc : RouteConfig Component) : Prop :=
  forall cur,
  let route := router_match (exported_router g sps) raw cur in
  view route = Some (component rc) /\ route_path route = path rc /\ route_query route = "" /\
  route_hash route = "" /\ matched route = [make_record rc].

(** A declared path leads to its route. *)
Lemma index_path_leads g sps rc : rc ∈ routes -> leads_to g sps (path rc) rc.
Proof.
  intros Hin cur. cbv zeta. unfold router_match. rewrite exported_router_matcher.
  unfold routes in Hin. rewrite !elem_of_cons, elem_of_nil in Hin.
  destruct Hin as [->|[->|[->|[]]]];
    rewrite (normalizeLocation_absolute _ cur "/") by reflexivity; vm_compute; by split_and!.
Qed.

(** A declared name leads to its route. *)
Lemma index_name_leads g sps rc n : rc ∈ routes -> name rc = Some n -> leads_to g sps (LocNamed n) rc.
Proof.
  intros Hin Hn cur. cbv zeta. unfold routes in Hin. rewrite !elem_of_cons, elem_of_nil in Hin.
  destruct Hin as [->|[->|[->|[]]]]; injection Hn as <-;
    rewrite router_match_named, exported_router_matcher by discriminate;
    vm_compute; by split_and!.
Qed.

Lemma leads_to_fullPath g sps raw rc cur :
  leads_to g sps raw rc -> fullPath (router_match (exported_router g sps) raw cur) = path rc.
Proof.
  intros H. destruct (H cur) as (_ & Hp & Hq & Hh & _).
  unfold fullPath, print_path. cbn [pp_path pp_query pp_hash]. rewrite Hp, Hq, Hh. simpl.
  apply append_nil_r.
Qed.

Ltac in_routes := apply list_elem_of_In; unfold routes; simpl; tauto.

Lemma index_matched_records_string g sps (raw : string) cur :
  matched (router_match (exported_router g sps) raw cur) = [] \/
  exists rc, rc ∈ routes /\ matched (router_match (exported_router g sps) raw cur) = [make_record rc].
Proof.
  rewrite index_router_match. destruct (String.eqb _ ""); [by left|].
  unfold spec_resolve. rewrite routes_match_order.
  destruct (find _ routes) as [rc|] eqn:E; [right|by left]. exists rc. split; [|done].
  apply list_elem_of_In. by apply find_some in E as [? _].
Qed.

(** The exported router's routes hold one declared record or none. *)
Lemma index_matched_records g sps raw cur :
  matched (router_match (exported_router g sps) raw cur) = [] \/
  exists rc, rc ∈ routes /\ matched (router_match (exported_router g sps) raw cur) = [make_record rc].
Proof.
  destruct raw as [raw|n]; [apply index_matched_records_string|].
  destruct (String.eqb_spec n "") as [->|Hne];
    [rewrite router_match_named_empty; apply index_matched_records_string|].
  rewrite router_match_named by done. destruct (_ !! n) as [rec|] eqn:E; [right|by left].
  pattern rec. refine (index_named_cases g sps _ _ _ _ n rec E).
  - exists route_Home. split; [in_routes|reflexivity].
  - exists route_Counter. split; [in_routes|reflexivity].
  - exists route_Show. split; [in_routes|reflexivity].
Qed.

(** Declared routes are told apart by their records' paths. *)
Lemma index_record_path_inj rc1 rc2 :
  rc1 ∈ routes -> rc2 ∈ routes -> record_path (make_record rc1) = record_path (make_record rc2) ->
  rc1 = rc2.
Proof.
  unfold routes. rewrite !elem_of_cons, !elem_of_nil.
  intros [->|[->|[->|[]]]] [->|[->|[->|[]]]]; vm_compute; congruence.
Qed.

(** A route of the exported router that is a duplicate of another holds
    the same records. *)
Lemma index_duplicate_matched g sps raw cur raw' cur' :
  let a := router_match (exported_router g sps) raw cur in
  let b := router_match (exported_router g sps) raw' cur' in
  duplicate_of a b = true -> matched a = matched b.
Proof.
  intros a b Hd. unfold duplicate_of in Hd. apply andb_prop in Hd as [Hd Hl].
  apply andb_prop in Hd as [_ Hn]. apply Nat.eqb_eq in Hn. apply bool_decide_eq_true in Hl.
  unfold last_record_path in Hl.
  destruct (index_matched_records g sps raw cur) as [Ha|(rc1 & H1 & Ha)];
    destruct (index_matched_records g sps raw' cur') as [Hb|(rc2 & H2 & Hb)];
    fold a in Ha; fold b in Hb; rewrite Ha, Hb in *; [done|done|done|].
  cbn in Hl. injection Hl as Hl. by rewrite (index_record_path_inj rc1 rc2).
Qed.

(** A name no route declares has no record, and a location naming it
    matches the blank route: no record, path ["/"], no query or hash. *)
Lemma index_unknown_name g sps n cur :
  n <> "" -> n ∉ ["Home"; "Counter"; "Show"] ->
  nameMap (matcher (exported_router g sps)) !! n = None /\
  router_match (exported_router g sps) (LocNamed n) cur = createRoute None (mkLocation (Some n) "" "" "").
Proof.
  intros Hne Hn. assert (nameMap (matcher (exported_router g sps)) !! n = None) as Hl.
  { rewrite exported_router_matcher, routes_nameMap. unfold first_with_name, routes. cbn [find].
    repeat case_bool_decide; simplify_eq/=; [set_solver..|done]. }
  split; [done|]. by rewrite router_match_named, Hl.
Qed.

(** ** Properties of the program *)

(** C3: the table has three routes; their declared paths are absolute,
    static (no parameter or wildcard syntax) and pairwise distinct, also
    once normalised as [addRouteRecord] does; every route has a non-empty
    name and the names are pairwise distinct. *)
Theorem index_table_shape :
  length routes = 3 /\ NoDup (map path routes) /\ NoDup (map name routes) /\
  paths_distinct routes /\
  Forall (fun rc => starts_with_slash (path rc) = true /\ is_static_path (path rc) = true /\
                    exists n, name rc = Some n /\ n <> "") routes.
Proof.
  split_and!; [reflexivity| | |exact routes_paths_distinct_dec|].
  1,2: vm_compute; repeat constructor; set_solver.
  repeat constructor; eexists; (split; [reflexivity|discriminate]).
Qed.

(** C9: every imported view component is the component of exactly one
    route of the table. *)
Theorem index_components_routed_once (c : Component) :
  length (filter (fun rc => component rc = c) routes) = 1.
Proof. by destruct c. Qed.

Section AgainstTheContract.
Context `{R : RouteResolver Component} `{!RouteResolverLaws R}.

(** C1: every non-empty URL path renders the view [index_view] gives:
    ["/"] renders [Home], ["/Counter"] and ["/Show"] (in any letter case,
    with or without a final slash) render [Counter] and [Show], and any
    other path renders nothing; this holds for every resolver meeting
    the contract of [Matcher.v]. *)
Theorem index_resolve_view (url : string) :
  url <> "" -> resolve_view routes url = index_view url.
Proof.
  intros Hurl. rewrite resolve_view_first by done.
  by apply index_spec_resolve.
Qed.

(** C7: resolution ignores letter case: two paths equal up to case folding
    render the same view. *)
Theorem index_resolve_view_ci : Proper (ci_eq ==> eq) (resolve_view routes).
Proof.
  intros s t Hst. destruct (String.eqb_spec s "") as [->|Hs].
  - apply ci_eqb_length in Hst. by destruct t.
  - assert (t <> "") as Ht by (intros ->; apply ci_eqb_length in Hst; by destruct s).
    rewrite !resolve_view_first by done.
    by rewrite (spec_resolve_ci _ s t routes_insensitive Hst).
Qed.

(** C6: name to path round trip: each route of the table, looked up by
    its name, gives a record carrying that name whose path renders the
    route's own view. *)
Theorem index_name_roundtrip (rc : RouteConfig Component) (n : string) :
  rc ∈ routes -> name rc = Some n ->
  exists r, resolve_name routes n = Some r /\ record_name r = Some n /\
            resolve_view routes (shown_path r) = Some (component rc).
Proof.
  intros Hin Hn. rewrite resolve_name_first.
  apply elem_of_cons in Hin as [->|Hin];
    [|apply elem_of_cons in Hin as [->|Hin];
      [|apply elem_of_cons in Hin as [->|Hin]; [|by apply elem_of_nil in Hin]]].
  all: injection Hn as <-; eexists; split_and!; [reflexivity|reflexivity|].
  all: rewrite resolve_view_first by discriminate.
  all: reflexivity.
Qed.
(** C4: no route of the table is shadowed: each declared path renders
    its own route's view. *)
Theorem index_routes_reachable (rc : RouteConfig Component) :
  rc ∈ routes -> resolve_view routes (path rc) = Some (component rc).
Proof.
  intros Hin.
  apply elem_of_cons in Hin as [->|Hin];
    [|apply elem_of_cons in Hin as [->|Hin];
      [|apply elem_of_cons in Hin as [->|Hin]; [|by apply elem_of_nil in Hin]]].
  all: rewrite resolve_view_first by discriminate.
  all: reflexivity.
Qed.
End AgainstTheContract.

(** C2: the exported router, matching any location string from any
    current route, renders the view [index_view] gives for the path
    [normalizeLocation] yields (query and hash cut off, a relative path
    resolved against the current route's path), whenever that path is
    non-empty. *)
Theorem index_url_view (g : VueGlobal) (sps : bool) (url cur : string) :
  loc_path (normalizeLocation url cur) <> "" ->
  view (router_match (exported_router g sps) url cur) =
  index_view (loc_path (normalizeLocation url cur)).
Proof.
  intros Hp. rewrite index_router_match, (proj2 (String.eqb_neq _ _) Hp), view_createRoute.
  by apply index_spec_resolve.
Qed.

(** C5: the router the module exports registers all three routes: its path
    list is the three normalised paths in declaration order (["/"]
    normalised to [""]), its name map holds exactly the three names, the
    development build prints no warning (no unencoded path, no duplicate
    name, no top-level path without a leading slash), and it runs in
    hash mode. *)
Theorem index_router_table (g : VueGlobal) (sps : bool) :
  let m := matcher (exported_router g sps) in
  pathList m = [""; "/Counter"; "/Show"] /\
  (forall n, is_Some (nameMap m !! n) <-> n ∈ ["Home"; "Counter"; "Show"]) /\
  warnings m = [] /\ router_mode (exported_router g sps) = ModeHash.
Proof.
  split_and!; [vm_compute; reflexivity| |vm_compute; reflexivity|by destruct sps].
  intros n. unfold exported_router, index_js, VueRouter_new; simpl.
  rewrite routes_nameMap, !elem_of_cons, elem_of_nil. unfold first_with_name; simpl.
  repeat case_bool_decide; simplify_eq; split; try naive_solver.
Qed.

(** C8: evaluating the module from a consistent global Vue state, in a
    browser or not, installs the plugin before the router is used: the
    root app's [router.init] passes its assertion and registers the app. *)
Theorem index_js_init (g : VueGlobal) (inBrowser sps : bool) (app : nat) :
  vue_wf g ->
  let r := snd (index_js g inBrowser sps) in
  router_init (fst (index_js g inBrowser sps)) r app =
  inr (mkVueRouter (router_options_of r) (matcher r) (router_mode r) [app]).
Proof. intros Hwf. unfold router_init, index_js, use_router, Router; cbn [fst]. by rewrite Vue_use_router_installed. Qed.

(** C10: along every navigation history of the exported router, from its
    start by successful transitions, a view that is displayed is the view
    the table assigns to the path of the current route. *)
Theorem index_history_sound (g : VueGlobal) (sps : bool) (h : History Component) (c : Component) :
  reachable (exported_router g sps) h ->
  view (current_route h) = Some c ->
  index_view (route_path (current_route h)) = Some c.
Proof.
  intros Hr Hv. unfold current_route in *.
  destruct (reachable_current _ _ Hr) as [Hn|(raw & cur & Hs)].
  - by rewrite Hn in Hv.
  - rewrite Hs in Hv |- *. by apply exported_router_view_sound.
Qed.

(** C11: from every navigation history of the exported router reachable
    from its start, each of the three views can be displayed by one more
    navigation: to its declared path, with a hash that differs from the
    current route's so that the navigation is not a duplicate. *)
Theorem index_views_live (g : VueGlobal) (sps : bool) (h : History Component) (c : Component) :
  reachable (exported_router g sps) h ->
  exists raw h', transitionTo h raw = inr h' /\ view (current_route h') = Some c.
Proof.
  intros Hr. pose proof (reachable_current_path _ _ Hr) as Hcur.
  pose proof (reachable_router _ _ Hr) as Hrt.
  destruct (String.eqb_spec (route_hash (current_route h)) "") as [He|He];
    [exists ((match c with Home => "/" | Counter => "/Counter" | Show => "/Show" end) +:+ "#v")
    |exists (match c with Home => "/" | Counter => "/Counter" | Show => "/Show" end)];
    (eexists; split; [apply transitionTo_new_hash; [exact Hcur|]|]);
    rewrite Hrt, exported_router_match_abs by (destruct c; reflexivity);
    try rewrite He; destruct c; vm_compute; try reflexivity; try discriminate; auto.
Qed.


(** ** Behaviours at the edges *)

(** The duplicate check of [confirmTransition] compares paths with their
    case, while matching ignores it: at ["/Counter"], navigating to
    ["/counter"] is not a duplicate and renders [Counter] again, while
    ["/Counter"] is reported as [NavigationDuplicated]. *)
Example index_case_renavigation :
  let r := exported_router fresh_vue true in
  let h := mkHistory r (Some (router_match r "/Counter" "/")) in
  (exists h', transitionTo h "/counter" = inr h' /\ view (current_route h') = Some Counter) /\
  (exists rt, transitionTo h "/Counter" = inl (NavigationDuplicated rt)).
Proof. split; eexists; vm_compute; [split|]; reflexivity. Qed.

(** [".."] from the start route resolves to the empty path, which no
    record is tested against: the route has path ["/"] and no view,
    although ["/"] itself renders [Home]. *)
Example index_dotdot_blank :
  let r := exported_router fresh_vue true in
  exists h', transitionTo (mkHistory r None) ".." = inr h' /\
    route_path (current_route h') = "/" /\ view (current_route h') = None /\
    index_view "/" = Some Home.
Proof. eexists; vm_compute; split_and!; reflexivity. Qed.

(** ** Witnesses: the theorems at concrete inputs, with vue-router's
    matcher as the resolver *)

Lemma index_resolve_view_witness :
  "/Counter/" <> "" /\
  resolve_view (RouteResolver := vue_router_resolver) routes "/Counter/" = Some Counter.
Proof.
  split; [discriminate|].
  exact (@index_resolve_view vue_router_resolver vue_router_laws "/Counter/" ltac:(discriminate)).
Defined.

Lemma index_resolve_view_ci_witness :
  "/SHOW" ≈ "/show" /\
  resolve_view (RouteResolver := vue_router_resolver) routes "/SHOW" =
  resolve_view (RouteResolver := vue_router_resolver) routes "/show".
Proof.
  assert ("/SHOW" ≈ "/show") as H by reflexivity. split; [exact H|].
  exact (@index_resolve_view_ci vue_router_resolver vue_router_laws "/SHOW" "/show" H).
Defined.

Lemma index_name_roundtrip_witness :
  route_Show ∈ routes /\ name route_Show = Some "Show" /\
  exists r, resolve_name (RouteResolver := vue_router_resolver) routes "Show" = Some r /\
    record_name r = Some "Show" /\
    resolve_view (RouteResolver := vue_router_resolver) routes (shown_path r) = Some Show.
Proof.
  assert (route_Show ∈ routes) as H by (right; right; left).
  split_and!; [exact H|reflexivity|].
  exact (@index_name_roundtrip vue_router_resolver vue_router_laws route_Show "Show" H eq_refl).
Defined.

Lemma index_js_init_witness :
  vue_wf fresh_vue /\
  let r := snd (index_js fresh_vue false false) in
  router_init (fst (index_js fresh_vue false false)) r 1 =
  inr (mkVueRouter (router_options_of r) (matcher r) (router_mode r) [1]).
Proof.
  split; [exact fresh_vue_wf|]. exact (index_js_init fresh_vue false false 1 fresh_vue_wf).
Defined.

Lemma index_url_view_witness :
  loc_path (normalizeLocation "counter?tab=2#top" "/Show") <> "" /\
  view (router_match (exported_router fresh_vue true) "counter?tab=2#top" "/Show") = Some Counter.
Proof.
  assert (loc_path (normalizeLocation "counter?tab=2#top" "/Show") <> "") as H
    by (vm_compute; discriminate).
  split; [exact H|]. exact (index_url_view fresh_vue true "counter?tab=2#top" "/Show" H).
Defined.

Lemma index_routes_reachable_witness :
  route_Counter ∈ routes /\
  resolve_view (RouteResolver := vue_router_resolver) routes "/Counter" = Some Counter.
Proof.
  assert (route_Counter ∈ routes) as H by (right; left).
  split; [exact H|].
  exact (@index_routes_reachable vue_router_resolver vue_router_laws route_Counter H).
Defined.

Lemma index_history_sound_witness :
  let r := exported_router fresh_vue true in
  let h := mkHistory r (Some (router_match r "/Counter" "/")) in
  reachable r h /\ view (current_route h) = Some Counter /\
  index_view (route_path (current_route h)) = Some Counter.
Proof.
  intros r h.
  assert (reachable r h) as Hr.
  { apply (reach_step r (mkHistory r None) "/Counter" h (reach_start r)). vm_compute. reflexivity. }
  assert (view (current_route h) = Some Counter) as Hv by (vm_compute; reflexivity).
  split_and!; [exact Hr|exact Hv|].
  exact (index_history_sound fresh_vue true h Counter Hr Hv).
Defined.

Lemma index_views_live_witness :
  reachable (exported_router fresh_vue true) (mkHistory (exported_router fresh_vue true) None) /\
  exists raw h', transitionTo (mkHistory (exported_router fresh_vue true) None) raw = inr h' /\
                 view (current_route h') = Some Show.
Proof.
  assert (reachable (exported_router fresh_vue true) (mkHistory (exported_router fresh_vue true) None))
    as Hr by constructor.
  split; [exact Hr|]. exact (index_views_live fresh_vue true _ Show Hr).
Defined.

