(* ===== verification/IndexApp.v ===== *)
(** * The exported router on a browser page, in hash mode

    The repository holds no [main.js]; a Vue CLI application creates its
    root instance with [new Vue({ router, render })], whose
    [beforeCreate] hook calls [router.init(app)].  [index_page] is the
    page right after that, for a page loaded at fragment [p]: the module
    [index.js] evaluated ([exported_router]), the router's [HashHistory]
    constructed on the page ([HashHistory_new]), and the first
    navigation of [init] done ([hash_init]).  [index_run] is that page
    after any sequence of user actions: [router.push] and
    [router.replace] (a [<router-link>] click), the back and forward
    buttons, editing the fragment, and the browser dispatching queued
    routing events.

    The [HashHistory] constructor runs inside [new Router(...)] of line
    9, before [main.js] runs; nothing between the two reads or writes the
    URL, so constructing it from the router value [index_js] returns is
    the same page.

    Theorems about the program in hash mode: the view displayed is the
    one the table gives for the path in the address bar, once the queue
    of routing events is empty (C12); the queue
    empties within [pending + 2] dispatches (C13); pushing the URL shown
    is rejected as a duplicate and changes nothing (C14); the current
    route is always well formed (C15); pushing a declared route by name
    displays it at its declared path or is a duplicate of it (C16); the
    back button undoes a push that changed the URL (C17), and the forward
    button then redoes it (C20); [router.replace] rewrites the current
    entry in place (C22); pushing a name no route declares prints the
    development warning and displays nothing, under the URL ["/"]
    (C27). *)

From S2P Require Import Prelude Path RouteMap Matcher VueRouter History HashHistory HashSync HashSettle HashBack RouterIndex.
Local Open Scope list_scope.

(** [new Vue({ router })] on a page loaded at fragment [p]. *)
Definition index_page (g : VueGlobal) (sps : bool) (p : string) : HashState Component :=
  hash_init sps (HashHistory_new sps (exported_router g sps) (fresh_page p)).

Definition index_run (g : VueGlobal) (sps : bool) (p : string) (l : list (UserAction)) :
    HashState Component :=
  hash_run sps (index_page g sps p) l.

(** The view [<router-view>] renders. *)
Definition displayed (s : HashState Component) : option Component :=
  view (current_route (hs_history s)).

(** The path part of the fragment in the address bar. *)
Definition url_path (s : HashState Component) : string :=
  pp_path (parsePath (getHash (hs_browser s))).

(** ** Lemmas *)

Lemma index_run_reachable g sps p l :
  hash_reachable sps (exported_router g sps) (index_run g sps p l).
Proof. apply hash_run_reachable. constructor. Qed.

Lemma index_run_inv g sps p l :
  (sps = true -> Forall (fun a => slashed_action a = true) l) ->
  hash_inv sps (index_run g sps p l).
Proof.
  intros Hl. destruct sps.
  - apply slashed_run_in_sync; [apply index_named_paths_ok|by apply Hl].
  - apply (hash_reachable_in_sync (exported_router g false));
      [apply index_named_paths_ok|apply index_run_reachable].
Qed.

Lemma index_run_app g sps p l l' :
  index_run g sps p (l ++ l') = hash_run sps (index_run g sps p l) l'.
Proof. unfold index_run, hash_run. apply fold_left_app. Qed.

(** A displayed view is the table's view for the current route's path. *)
Lemma displayed_sound g sps s c :
  hash_reachable sps (exported_router g sps) s -> displayed s = Some c ->
  index_view (route_path (current_route (hs_history s))) = Some c.
Proof.
  intros Hs. unfold displayed, current_route.
  destruct (reachable_current _ _ (hash_reachable_refines _ _ _ Hs)) as [->|(raw & cur & ->)];
    [done|]. apply exported_router_view_sound.
Qed.

(** The route a page shows is the start or one the exported router
    matched from a well-formed current path. *)
Lemma index_run_current g sps p l :
  current (hs_history (index_run g sps p l)) = None \/
  exists raw cur, path_ok cur = true /\
    current (hs_history (index_run g sps p l)) = Some (router_match (exported_router g sps) raw cur).
Proof.
  apply (reachable_current_ok _ _ (index_named_paths_ok g sps)).
  exact (hash_reachable_refines _ _ _ (index_run_reachable g sps p l)).
Qed.

(** In sync, the address bar shows the current route's path. *)
Lemma url_path_sync sps (s : HashState Component) :
  hash_inv sps s -> pending (hs_browser s) = 0 ->
  url_path s = route_path (current_route (hs_history s)).
Proof.
  intros (_ & [Hr _] & Hq) Hp. unfold url_path. rewrite Hq by done.
  by rewrite fullPath_parse.
Qed.

(** ** Properties of the program in hash mode *)

(** C12: on the page of the exported router, whatever the user did
    (typing only fragments that start with a slash when the browser has
    [pushState]), once no routing event is queued a displayed view is the
    view the route table gives for the path in the address bar. *)
Theorem index_app_url_view (g : VueGlobal) (sps : bool) (p : string) (l : list UserAction)
    (c : Component) :
  (sps = true -> Forall (fun a => slashed_action a = true) l) ->
  pending (hs_browser (index_run g sps p l)) = 0 ->
  displayed (index_run g sps p l) = Some c ->
  index_view (url_path (index_run g sps p l)) = Some c.
Proof.
  intros Hl Hp Hc. rewrite (url_path_sync sps) by auto using index_run_inv.
  apply (displayed_sound g sps); [apply index_run_reachable|done].
Qed.


(** C13: without [pushState], from any page the user left, the browser
    dispatches the queued routing events in at most [pending + 2]
    rounds; the page it reaches shows the current route's full path in
    the address bar and a view the table gives for that path. *)
Theorem index_app_settles (g : VueGlobal) (p : string) (l : list UserAction) (c : Component) :
  let s := index_run g false p l in
  let s' := settle false (pending (hs_browser s) + 2) s in
  pending (hs_browser s') = 0 /\
  getHash (hs_browser s') = fullPath (current_route (hs_history s')) /\
  (displayed s' = Some c -> index_view (url_path s') = Some c).
Proof.
  intros s s'. assert (hash_reachable false (exported_router g false) s') as Hr
    by apply settle_reachable, index_run_reachable.
  destruct (settle_quiescent (exported_router g false) s (index_named_paths_ok g false)
              (index_run_reachable g false p l)) as [Hp Hh].
  split_and!; [done|done|]. intros Hc.
  rewrite (url_path_sync false)
    by (done || by apply (hash_reachable_in_sync (exported_router g false)); [apply index_named_paths_ok|]).
  by apply (displayed_sound g false).
Qed.

(** C14: on a quiescent page whose route matched, [router.push] of the
    URL in the address bar is rejected with [NavigationDuplicated], and
    neither the route nor the browser changes; this holds also when the
    page was reached by pushing a route by name. *)
Theorem index_push_current_duplicate (g : VueGlobal) (sps : bool) (p : string)
    (l : list UserAction) :
  (sps = true -> Forall (fun a => slashed_action a = true) l) ->
  pending (hs_browser (index_run g sps p l)) = 0 ->
  displayed (index_run g sps p l) <> None ->
  exists route,
    hash_push sps (index_run g sps p l) (getHash (hs_browser (index_run g sps p l))) =
    (inl (NavigationDuplicated route), index_run g sps p l).
Proof.
  intros Hl Hp Hd. destruct (index_run_inv g sps p l Hl) as (_ & _ & Hq).
  apply (hash_push_duplicate sps (exported_router g sps));
    [apply index_named_paths_ok|apply index_named_self_match|apply index_run_reachable|auto|].
  intros Hm. apply Hd. unfold displayed, view. by rewrite Hm.
Qed.


(** C15: the route the page shows is always well formed: its path is
    absolute and has no [?] or [#], its query has no [#], and its hash is
    empty or starts with [#]. *)
Theorem index_app_route_wf (g : VueGlobal) (sps : bool) (p : string) (l : list UserAction) :
  route_wf (current_route (hs_history (index_run g sps p l))) = true.
Proof.
  unfold current_route. destruct (index_run_current g sps p l) as [->|(raw & cur & Hok & ->)];
    [reflexivity|]. apply router_match_any_wf; [apply index_named_paths_ok|done].
Qed.

(** C16: on every page of the exported router, [router.push({ name })]
    with the name of a declared route either navigates there, displaying
    the route's view with its declared path in the address bar, or is
    rejected as a duplicate of the current route, for the route with that
    view and path, and the route shown stays the same. *)
Theorem index_push_by_name (g : VueGlobal) (sps : bool) (p : string) (l : list UserAction)
    (rc : RouteConfig Component) (n : string) :
  rc ∈ routes -> name rc = Some n ->
  let s := index_run g sps p l in
  let s' := snd (hash_push sps s (LocNamed n)) in
  (fst (hash_push sps s (LocNamed n)) = inr (current_route (hs_history s')) /\
   displayed s' = Some (component rc) /\ getHash (hs_browser s') = path rc) \/
  (exists route, fst (hash_push sps s (LocNamed n)) = inl (NavigationDuplicated route) /\
   view route = Some (component rc) /\ route_path route = path rc /\ hs_history s' = hs_history s).
Proof.
  intros Hin Hn. cbv zeta. pose proof (index_run_reachable g sps p l) as Hs.
  pose proof (reachable_router _ _ (hash_reachable_refines _ _ _ Hs)) as Hrt.
  set (cur := route_path (current_route (hs_history (index_run g sps p l)))).
  pose proof (leads_to_fullPath g sps _ rc cur (index_name_leads g sps rc n Hin Hn)) as Hfp.
  destruct (index_name_leads g sps rc n Hin Hn cur) as (Hv & Hp & _).
  destruct (hash_push_outcome sps (index_run g sps p l) (LocNamed n) (hash_reachable_wf _ _ _ Hs))
    as [(Hf & Hc & Hg)|(Hf & Hh)]; rewrite Hrt in Hf.
  - left. rewrite Hrt in Hc, Hg. unfold displayed. rewrite Hf, Hc, Hg. by split_and!.
  - right. by eexists.
Qed.

(** C17: on a quiescent page of the exported router that displays a
    view, after a [router.push] that changes the URL and the dispatch of
    its event, the back button and the dispatch of its event bring back
    the URL shown before the push and the view displayed before, with no
    event left queued. *)
Theorem index_back_after_push (g : VueGlobal) (sps : bool) (p : string) (l : list UserAction)
    (raw : RawLocation) :
  (sps = true -> Forall (fun a => slashed_action a = true) l) ->
  pending (hs_browser (index_run g sps p l)) = 0 ->
  displayed (index_run g sps p l) <> None ->
  getHash (hs_browser (index_run g sps p (l ++ [Push raw]))) <> getHash (hs_browser (index_run g sps p l)) ->
  let s2 := index_run g sps p (l ++ [Push raw; Dispatch; Go (-1); Dispatch]) in
  getHash (hs_browser s2) = getHash (hs_browser (index_run g sps p l)) /\
  pending (hs_browser s2) = 0 /\ displayed s2 = displayed (index_run g sps p l).
Proof.
  intros Hl Hp Hd Hch s2. unfold s2. rewrite index_run_app in Hch |- *.
  destruct (hash_back_after_push sps (exported_router g sps) (index_run g sps p l) raw)
    as (Hg & Hp2 & (_ & _ & _ & Hm)); auto using index_named_paths_ok, index_named_self_match,
    index_run_reachable, index_run_inv.
  - intros Hm. apply Hd. unfold displayed, view. by rewrite Hm.
  - split_and!; [done|done|]. unfold displayed, view. by rewrite Hm.
Qed.

(** C20: after that back button, the forward button and the dispatch of
    its event bring back the URL the push wrote and the view displayed
    after the push, when the push displayed one. *)
Theorem index_forward_after_back (g : VueGlobal) (sps : bool) (p : string) (l : list UserAction)
    (raw : RawLocation) :
  (sps = true -> Forall (fun a => slashed_action a = true) l) ->
  pending (hs_browser (index_run g sps p l)) = 0 ->
  displayed (index_run g sps p l) <> None ->
  getHash (hs_browser (index_run g sps p (l ++ [Push raw]))) <> getHash (hs_browser (index_run g sps p l)) ->
  displayed (index_run g sps p (l ++ [Push raw; Dispatch])) <> None ->
  let s1 := index_run g sps p (l ++ [Push raw; Dispatch]) in
  let s3 := index_run g sps p (l ++ [Push raw; Dispatch; Go (-1); Dispatch; Go 1; Dispatch]) in
  getHash (hs_browser s3) = getHash (hs_browser s1) /\
  pending (hs_browser s3) = 0 /\ displayed s3 = displayed s1.
Proof.
  intros Hl Hp Hd Hch Hd1 s1 s3. unfold s1, s3. rewrite !index_run_app in *.
  destruct (hash_forward_after_back sps (exported_router g sps) (index_run g sps p l) raw)
    as (Hg & Hp3 & (_ & _ & _ & Hm)); auto using index_named_paths_ok, index_named_self_match,
    index_run_reachable, index_run_inv.
  - intros Hm. apply Hd. unfold displayed, view. by rewrite Hm.
  - intros Hm. apply Hd1. unfold displayed, view. by rewrite Hm.
  - split_and!; [done|done|]. unfold displayed, view. by rewrite Hm.
Qed.

(** C22: on a quiescent page of the exported router, a [router.replace]
    that changes the URL, and the dispatch of its event, rewrite the
    current entry of the session history with the new URL and leave the
    other entries, the current index and the event queue as they were. *)
Theorem index_replace_in_place (g : VueGlobal) (sps : bool) (p : string) (l : list UserAction)
    (raw : RawLocation) :
  (sps = true -> Forall (fun a => slashed_action a = true) l) ->
  pending (hs_browser (index_run g sps p l)) = 0 ->
  getHash (hs_browser (index_run g sps p (l ++ [Replace raw]))) <> getHash (hs_browser (index_run g sps p l)) ->
  let s1 := index_run g sps p (l ++ [Replace raw; Dispatch]) in
  entries (hs_browser s1) =
    <[index (hs_browser (index_run g sps p l)) := getHash (hs_browser s1)]> (entries (hs_browser (index_run g sps p l))) /\
  index (hs_browser s1) = index (hs_browser (index_run g sps p l)) /\ pending (hs_browser s1) = 0.
Proof.
  intros Hl Hp Hch s1. unfold s1. rewrite index_run_app in Hch |- *.
  apply (hash_replace_in_place sps (exported_router g sps)); auto using index_run_reachable, index_run_inv.
Qed.

(** C27: on every page of the exported router, [router.push({ name })]
    with a non-empty name that no route declares makes [match] print
    the warning that the name does not exist, and the page then displays
    no view; when the navigation goes through, the address bar shows
    ["/"], the URL of [Home], under the blank route. *)
Theorem index_push_unknown_name (g : VueGlobal) (sps : bool) (p : string) (l : list UserAction)
    (n : string) :
  n <> "" -> n ∉ ["Home"; "Counter"; "Show"] ->
  let s := index_run g sps p l in
  let s' := snd (hash_push sps s (LocNamed n)) in
  match_warnings (matcher (exported_router g sps))
    (normalizeLocation (LocNamed n) (route_path (current_route (hs_history s)))) = [UnknownRouteName n] /\
  displayed s' = None /\
  (forall route, fst (hash_push sps s (LocNamed n)) = inr route -> getHash (hs_browser s') = "/").
Proof.
  intros Hne Hn. cbv zeta. pose proof (index_run_reachable g sps p l) as Hs.
  pose proof (reachable_router _ _ (hash_reachable_refines _ _ _ Hs)) as Hrt.
  set (s := index_run g sps p l) in *.
  destruct (index_unknown_name g sps n (route_path (current_route (hs_history s))) Hne Hn) as [Hl Hm].
  split.
  { unfold match_warnings, normalizeLocation. rewrite (proj2 (String.eqb_neq _ _) Hne).
    cbn [loc_name truthy_name]. by rewrite (proj2 (String.eqb_neq _ _) Hne), Hl. }
  destruct (hash_push_outcome sps s (LocNamed n) (hash_reachable_wf _ _ _ Hs))
    as [(Hf & Hc & Hg)|(Hf & Hh)]; [rewrite Hrt, Hm in Hf, Hc, Hg|rewrite Hrt, Hm in Hf].
  - unfold displayed. rewrite Hc, Hg. split; [reflexivity|]. intros _ _. reflexivity.
  - rewrite Hf. split; [|discriminate]. unfold displayed. rewrite Hh.
    revert Hf. unfold hash_push, hash_transitionTo. destruct (transitionTo _ _) as [e|h'] eqn:Ht; [|discriminate].
    intros _. destruct (transitionTo_inl _ _ _ Ht) as (c & Hc & Hd). rewrite Hrt in Hd.
    destruct (index_run_current g sps p l) as [Hn0|(raw0 & cur0 & _ & Hs0)];
      [fold s in Hn0; congruence|fold s in Hs0]. rewrite Hc in Hs0. injection Hs0 as ->.
    pose proof (index_duplicate_matched g sps _ _ _ _ Hd) as Hmd.
    unfold current_route, view. rewrite Hc. cbn [default id]. rewrite <- Hmd.
    by rewrite (proj2 (index_unknown_name g sps n _ Hne Hn)).
Qed.

(** ** Behaviours at the edges *)

(** With [pushState], a fragment typed without its leading slash is
    rewritten by [ensureSlash] with [history.replaceState], which queues
    no event: the address bar shows ["/Counter"] while [Home] stays
    displayed. *)
Example index_pushstate_edit_stale :
  let s := index_run fresh_vue true "/" [EditUrl "Counter"; Dispatch] in
  getHash (hs_browser s) = "/Counter" /\ pending (hs_browser s) = 0 /\
  displayed s = Some Home /\ index_view (url_path s) = Some Counter.
Proof. vm_compute. split_and!; reflexivity. Qed.

(** [".."] resolves to the empty path, which no record is tested
    against.  With [pushState] no event follows the navigation: the
    address bar shows ["/"], [Home]'s URL, and nothing is displayed.
    Without it, the [hashchange] event of the new fragment navigates
    again, to [Home]. *)
Example index_dotdot_url :
  let s := index_run fresh_vue true "/Show" [Push ".."] in
  let s' := index_run fresh_vue false "/Show" [Push ".."; Dispatch] in
  getHash (hs_browser s) = "/" /\ pending (hs_browser s) = 0 /\
  displayed s = None /\ index_view (url_path s) = Some Home /\
  getHash (hs_browser s') = "/" /\ pending (hs_browser s') = 0 /\ displayed s' = Some Home.
Proof. vm_compute. split_and!; reflexivity. Qed.

(** With [pushState], the route [".."] pushed from ["/Show"] displays
    nothing at ["/"]; back shows [Show] again, and forward then
    navigates to ["/"] by its [popstate] event and displays [Home]: the
    view after the push is not restored. *)
Example index_dotdot_forward :
  let s1 := index_run fresh_vue true "/Show" [Push ".."; Dispatch] in
  let s2 := index_run fresh_vue true "/Show" [Push ".."; Dispatch; Go (-1); Dispatch] in
  let s3 := index_run fresh_vue true "/Show" [Push ".."; Dispatch; Go (-1); Dispatch; Go 1; Dispatch] in
  displayed s1 = None /\ displayed s2 = Some Show /\ getHash (hs_browser s3) = "/" /\
  displayed s3 = Some Home.
Proof. vm_compute. split_and!; reflexivity. Qed.

(** From [Home], a push of an unknown name goes through to the blank
    route: the address bar keeps ["/"], the URL of [Home], but no view
    is displayed; a page loaded at that URL displays [Home]. *)
Example index_unknown_name_blank :
  let s := index_run fresh_vue true "/" [Push (LocNamed "About"); Dispatch] in
  getHash (hs_browser s) = "/" /\ displayed s = None /\
  displayed (index_run fresh_vue true "/" []) = Some Home.
Proof. vm_compute. split_and!; reflexivity. Qed.

(** ** Witnesses *)

Lemma index_app_url_view_witness :
  let l := [Push "/Counter"; Dispatch; Dispatch] in
  (false = true -> Forall (fun a => slashed_action a = true) l) /\
  pending (hs_browser (index_run fresh_vue false "" l)) = 0 /\
  displayed (index_run fresh_vue false "" l) = Some Counter /\
  index_view (url_path (index_run fresh_vue false "" l)) = Some Counter.
Proof.
  intros l.
  assert (false = true -> Forall (fun a => slashed_action a = true) l) as H1 by discriminate.
  assert (pending (hs_browser (index_run fresh_vue false "" l)) = 0) as H2 by (vm_compute; reflexivity).
  assert (displayed (index_run fresh_vue false "" l) = Some Counter) as H3 by (vm_compute; reflexivity).
  split_and!; [exact H1|exact H2|exact H3|].
  exact (index_app_url_view fresh_vue false "" l Counter H1 H2 H3).
Defined.

Lemma index_push_current_duplicate_witness :
  let l := [Push (LocNamed "Counter")] in
  (true = true -> Forall (fun a => slashed_action a = true) l) /\
  pending (hs_browser (index_run fresh_vue true "/Show" l)) = 0 /\
  displayed (index_run fresh_vue true "/Show" l) <> None /\
  exists route,
    hash_push true (index_run fresh_vue true "/Show" l) (getHash (hs_browser (index_run fresh_vue true "/Show" l))) =
    (inl (NavigationDuplicated route), index_run fresh_vue true "/Show" l).
Proof.
  intros l.
  assert (true = true -> Forall (fun a => slashed_action a = true) l) as H1
    by (intros _; repeat constructor).
  assert (pending (hs_browser (index_run fresh_vue true "/Show" l)) = 0) as H2
    by (vm_compute; reflexivity).
  assert (displayed (index_run fresh_vue true "/Show" l) <> None) as H3
    by (vm_compute; discriminate).
  split_and!; [exact H1|exact H2|exact H3|].
  exact (index_push_current_duplicate fresh_vue true "/Show" l H1 H2 H3).
Defined.

Lemma index_push_by_name_witness :
  let s := index_run fresh_vue true "/" [] in
  let s' := snd (hash_push true s (LocNamed "Counter")) in
  route_Counter ∈ routes /\ name route_Counter = Some "Counter" /\
  ((fst (hash_push true s (LocNamed "Counter")) = inr (current_route (hs_history s')) /\
    displayed s' = Some (component route_Counter) /\ getHash (hs_browser s') = path route_Counter) \/
   (exists route, fst (hash_push true s (LocNamed "Counter")) = inl (NavigationDuplicated route) /\
    view route = Some (component route_Counter) /\ route_path route = path route_Counter /\
    hs_history s' = hs_history s)).
Proof.
  assert (route_Counter ∈ routes) as H1 by (apply elem_of_cons; right; apply elem_of_cons; by left).
  assert (name route_Counter = Some "Counter") as H2 by reflexivity.
  split_and!; [exact H1|exact H2|].
  exact (index_push_by_name fresh_vue true "/" [] route_Counter "Counter" H1 H2).
Defined.

Lemma index_back_after_push_witness :
  (false = true -> Forall (fun a => slashed_action a = true) []) /\
  pending (hs_browser (index_run fresh_vue false "/" [])) = 0 /\
  displayed (index_run fresh_vue false "/" []) <> None /\
  getHash (hs_browser (index_run fresh_vue false "/" ([] ++ [Push "/Counter"])))
    <> getHash (hs_browser (index_run fresh_vue false "/" [])) /\
  let s2 := index_run fresh_vue false "/" ([] ++ [Push "/Counter"; Dispatch; Go (-1); Dispatch]) in
  getHash (hs_browser s2) = getHash (hs_browser (index_run fresh_vue false "/" [])) /\
  pending (hs_browser s2) = 0 /\ displayed s2 = displayed (index_run fresh_vue false "/" []).
Proof.
  assert (false = true -> Forall (fun a => slashed_action a = true) []) as H1 by discriminate.
  assert (pending (hs_browser (index_run fresh_vue false "/" [])) = 0) as H2 by (vm_compute; reflexivity).
  assert (displayed (index_run fresh_vue false "/" []) <> None) as H3 by (vm_compute; discriminate).
  assert (getHash (hs_browser (index_run fresh_vue false "/" ([] ++ [Push "/Counter"])))
    <> getHash (hs_browser (index_run fresh_vue false "/" []))) as H4 by (vm_compute; discriminate).
  split_and!; [exact H1|exact H2|exact H3|exact H4|].
  exact (index_back_after_push fresh_vue false "/" [] "/Counter" H1 H2 H3 H4).
Defined.

Lemma index_forward_after_back_witness :
  let l := @nil UserAction in
  (false = true -> Forall (fun a => slashed_action a = true) l) /\
  pending (hs_browser (index_run fresh_vue false "/" l)) = 0 /\
  displayed (index_run fresh_vue false "/" l) <> None /\
  getHash (hs_browser (index_run fresh_vue false "/" (l ++ [Push "/Counter"])))
    <> getHash (hs_browser (index_run fresh_vue false "/" l)) /\
  displayed (index_run fresh_vue false "/" (l ++ [Push "/Counter"; Dispatch])) <> None /\
  let s1 := index_run fresh_vue false "/" (l ++ [Push "/Counter"; Dispatch]) in
  let s3 := index_run fresh_vue false "/" (l ++ [Push "/Counter"; Dispatch; Go (-1); Dispatch; Go 1; Dispatch]) in
  getHash (hs_browser s3) = getHash (hs_browser s1) /\
  pending (hs_browser s3) = 0 /\ displayed s3 = displayed s1.
Proof.
  intros l.
  assert (false = true -> Forall (fun a => slashed_action a = true) l) as H1 by discriminate.
  assert (pending (hs_browser (index_run fresh_vue false "/" l)) = 0) as H2 by (vm_compute; reflexivity).
  assert (displayed (index_run fresh_vue false "/" l) <> None) as H3 by (vm_compute; discriminate).
  assert (getHash (hs_browser (index_run fresh_vue false "/" (l ++ [Push "/Counter"])))
    <> getHash (hs_browser (index_run fresh_vue false "/" l))) as H4 by (vm_compute; discriminate).
  assert (displayed (index_run fresh_vue false "/" (l ++ [Push "/Counter"; Dispatch])) <> None) as H5
    by (vm_compute; discriminate).
  split_and!; [exact H1|exact H2|exact H3|exact H4|exact H5|].
  exact (index_forward_after_back fresh_vue false "/" l "/Counter" H1 H2 H3 H4 H5).
Defined.

Lemma index_replace_in_place_witness :
  let l := [Push "/Counter"; Dispatch] in
  (false = true -> Forall (fun a => slashed_action a = true) l) /\
  pending (hs_browser (index_run fresh_vue false "/" l)) = 0 /\
  getHash (hs_browser (index_run fresh_vue false "/" (l ++ [Replace "/Show"])))
    <> getHash (hs_browser (index_run fresh_vue false "/" l)) /\
  let s1 := index_run fresh_vue false "/" (l ++ [Replace "/Show"; Dispatch]) in
  entries (hs_browser s1) =
    <[index (hs_browser (index_run fresh_vue false "/" l)) := getHash (hs_browser s1)]>
      (entries (hs_browser (index_run fresh_vue false "/" l))) /\
  index (hs_browser s1) = index (hs_browser (index_run fresh_vue false "/" l)) /\
  pending (hs_browser s1) = 0.
Proof.
  intros l.
  assert (false = true -> Forall (fun a => slashed_action a = true) l) as H1 by discriminate.
  assert (pending (hs_browser (index_run fresh_vue false "/" l)) = 0) as H2 by (vm_compute; reflexivity).
  assert (getHash (hs_browser (index_run fresh_vue false "/" (l ++ [Replace "/Show"])))
    <> getHash (hs_browser (index_run fresh_vue false "/" l))) as H3 by (vm_compute; discriminate).
  split_and!; [exact H1|exact H2|exact H3|].
  exact (index_replace_in_place fresh_vue false "/" l "/Show" H1 H2 H3).
Defined.

Lemma index_push_unknown_name_witness :
  ("About" <> "" /\ "About" ∉ ["Home"; "Counter"; "Show"]) /\
  let s := index_run fresh_vue true "/Counter" [] in
  let s' := snd (hash_push true s (LocNamed "About")) in
  match_warnings (matcher (exported_router fresh_vue true))
    (normalizeLocation (LocNamed "About") (route_path (current_route (hs_history s)))) =
    [UnknownRouteName "About"] /\
  displayed s' = None /\
  (forall route, fst (hash_push true s (LocNamed "About")) = inr route -> getHash (hs_browser s') = "/").
Proof.
  assert (H1 : "About" <> "") by discriminate.
  assert (H2 : "About" ∉ ["Home"; "Counter"; "Show"]) by (rewrite !not_elem_of_cons; split_and!; [discriminate..|apply not_elem_of_nil]).
  split; [split; [exact H1|exact H2]|].
  exact (index_push_unknown_name fresh_vue true "/Counter" [] "About" H1 H2).
Defined.
