(* ===== verification/IndexLink.v ===== *)
(** * The links of the application: [<router-link>] with the exported router

    [Vue.use(Router)] (line 7) registers [RouterLink]; a view that
    renders [<router-link to="...">] on a page of the exported router
    gets [page_link]: the link rendered for the page's current route, on
    a page without a [<base>] element ([normalizeBase None], the base
    [""]).  The exported router sets no [linkActiveClass] or
    [linkExactActiveClass], so the classes are [router-link-active] and
    [router-link-exact-active].

    Theorems: a link to ["/"] is active on every page, and exact-active
    only where the full path is ["/"] (C18); the link to each declared
    path points at ["#"] followed by that path and, clicked, displays the
    route's view and becomes exact-active, whether the navigation goes
    through or is a duplicate (C19), and so does the link to each
    declared name (C21). *)

From stdpp Require Import gmap.
From S2P Require Import Prelude Path RouteMap Matcher VueRouter History HashHistory HashSync RouterLink RouterIndex IndexApp.
Local Open Scope list_scope.

(** The [<router-link :to="to">] a page renders. *)
Definition page_link (g : VueGlobal) (sps : bool) (to : RawLocation) (s : HashState Component)
    : LinkRender :=
  link_render (exported_router g sps) (normalizeBase None) (link_props to) (current_route (hs_history s)).

(** ** Lemmas *)

Lemma page_link_classes g sps to s :
  let target := router_match (exported_router g sps) to (route_path (current_route (hs_history s))) in
  has_class (page_link g sps to s) "router-link-active" = isIncludedRoute (current_route (hs_history s)) target /\
  has_class (page_link g sps to s) "router-link-exact-active" =
    isSameRoute (current_route (hs_history s)) (Some target).
Proof. by apply has_class_default. Qed.

Lemma page_link_href g sps to s :
  link_href (page_link g sps to s) =
  "#" +:+ fullPath (router_match (exported_router g sps) to (route_path (current_route (hs_history s)))).
Proof. by destruct sps. Qed.

(** The route a page shows after a [router.push] of a location that
    leads to a declared route: the navigation goes through to that
    route, or is a duplicate of the current route, which then holds the
    same record. *)
Lemma index_push_leads g sps p l raw rc :
  leads_to g sps raw rc ->
  let s := index_run g sps p l in
  let c := current_route (hs_history (snd (hash_push sps s raw))) in
  matched c = [make_record rc] /\ route_path c <> "" /\
  isSameRoute c (Some (router_match (exported_router g sps) raw (route_path c))) = true.
Proof.
  intros Hlead s c. pose proof (hash_reachable_refines _ _ _ (index_run_reachable g sps p l)) as Hr.
  pose proof (reachable_router _ _ Hr) as Hrt. fold s in Hrt. unfold c. rewrite hash_push_history.
  destruct (transitionTo _ _) as [e|h'] eqn:Ht.
  - destruct (transitionTo_inl _ _ _ Ht) as (c0 & Hc0 & Hd). rewrite Hrt in Hd.
    destruct (index_run_current g sps p l) as [Hn|(raw0 & cur & _ & Hs)];
      [fold s in Hn; congruence|fold s in Hs].
    rewrite Hc0 in Hs. injection Hs as ->.
    unfold current_route. rewrite Hc0. cbn [default id].
    destruct (Hlead (route_path (router_match (exported_router g sps) raw0 cur))) as (_ & _ & _ & _ & Hm).
    pose proof (index_duplicate_matched g sps _ _ _ _ Hd) as Hsame.
    split_and!; [congruence|apply router_match_path_nonempty|].
    rewrite isSameRoute_sym by apply router_match_path_nonempty.
    unfold duplicate_of in Hd. by bool_to_prop.
  - pose proof (transitionTo_current _ _ _ Ht) as Hc'. rewrite Hrt in Hc'.
    set (route := router_match (exported_router g sps) raw (route_path (current_route (hs_history s))))
      in Hc'.
    assert (current_route h' = route) as -> by (unfold current_route; by rewrite Hc').
    destruct (Hlead (route_path (current_route (hs_history s)))) as (_ & Hp & Hq & Hh & Hm).
    destruct (Hlead (route_path route)) as (_ & Hp' & Hq' & Hh' & _).
    fold route in Hp, Hq, Hh, Hm.
    split_and!; [done|apply router_match_path_nonempty|].
    apply isSameRoute_fields; [apply router_match_path_nonempty|congruence..].
Qed.

(** A link whose target leads to a declared route: its [href], and the
    page after a plain click on it. *)
Lemma index_link_leads g sps p l raw rc :
  leads_to g sps raw rc ->
  let s := index_run g sps p l in
  let s' := link_click sps (link_props raw) plain_click s in
  link_href (page_link g sps raw s) = "#" +:+ path rc /\
  displayed s' = Some (component rc) /\
  has_class (page_link g sps raw s') "router-link-exact-active" = true.
Proof.
  intros Hlead. cbv zeta. rewrite page_link_href, link_click_plain, (leads_to_fullPath g sps raw rc) by done.
  destruct (index_push_leads g sps p l raw rc Hlead) as (Hm & _ & Hsame). split_and!; [done| |].
  - unfold displayed, view. by rewrite Hm.
  - destruct (page_link_classes g sps raw (snd (hash_push sps (index_run g sps p l) raw))) as [_ He].
    by rewrite He.
Qed.

(** ** Properties of the program's links *)

(** C18: on every page of the exported router, a [<router-link to="/">]
    carries the class [router-link-active], whatever route is shown, and
    carries [router-link-exact-active] exactly when the full path of the
    current route is ["/"]. *)
Theorem index_link_root_active (g : VueGlobal) (sps : bool) (p : string) (l : list UserAction) :
  let s := index_run g sps p l in
  has_class (page_link g sps "/" s) "router-link-active" = true /\
  has_class (page_link g sps "/" s) "router-link-exact-active" =
    String.eqb (fullPath (current_route (hs_history s))) "/".
Proof.
  cbv zeta. destruct (page_link_classes g sps "/" (index_run g sps p l)) as [Ha He]. rewrite Ha, He.
  set (s := index_run g sps p l).
  assert (route_wf (current_route (hs_history s)) = true) as Hwf.
  { unfold current_route, s. destruct (index_run_current g sps p l) as [->|(raw & cur & Hok & ->)];
      [reflexivity|]. apply router_match_any_wf; [apply index_named_paths_ok|done]. }
  destruct (index_path_leads g sps route_Home ltac:(in_routes) (route_path (current_route (hs_history s))))
    as (_ & Hp & Hq & Hh & _).
  change (path route_Home) with "/" in Hp, Hq, Hh.
  split; [apply isIncludedRoute_root; [done..|by apply route_wf_slash]|by apply isSameRoute_root].
Qed.

(** C19: on every page of the exported router, the [<router-link>] to a
    declared path points at ["#"] followed by that path, and a plain
    click on it displays the declared route's view and leaves the link
    exact-active, whether the navigation goes through or is rejected as
    a duplicate of the route already shown. *)
Theorem index_link_click (g : VueGlobal) (sps : bool) (p : string) (l : list UserAction)
    (rc : RouteConfig Component) :
  rc ∈ routes ->
  let s := index_run g sps p l in
  let s' := link_click sps (link_props (path rc)) plain_click s in
  link_href (page_link g sps (path rc) s) = "#" +:+ path rc /\
  displayed s' = Some (component rc) /\
  has_class (page_link g sps (path rc) s') "router-link-exact-active" = true.
Proof. intros Hin. apply index_link_leads, index_path_leads, Hin. Qed.

(** C21: the same for a link by name: on every page of the exported
    router, [<router-link :to="{ name }">] with the name of a declared
    route points at ["#"] followed by the route's declared path, and a
    plain click displays its view and leaves the link exact-active. *)
Theorem index_link_name_click (g : VueGlobal) (sps : bool) (p : string) (l : list UserAction)
    (rc : RouteConfig Component) (n : string) :
  rc ∈ routes -> name rc = Some n ->
  let s := index_run g sps p l in
  let s' := link_click sps (link_props (LocNamed n)) plain_click s in
  link_href (page_link g sps (LocNamed n) s) = "#" +:+ path rc /\
  displayed s' = Some (component rc) /\
  has_class (page_link g sps (LocNamed n) s') "router-link-exact-active" = true.
Proof. intros Hin Hn. by apply index_link_leads, index_name_leads. Qed.

(** ** Behaviours at the edges *)

(** At ["/Counter"], the link to ["/"] is active but not exact-active;
    with the [exact] prop it is neither.  Two links that both name the
    class ["current"] for both states show how the class object merges
    them: the active test overwrites the exact one, and [aria-current],
    read back from the object, is set on a link that is not exact. *)
Example index_link_exact_prop :
  let s := index_run fresh_vue true "/" [Push "/Counter"] in
  let r := exported_router fresh_vue true in
  let cur := current_route (hs_history s) in
  has_class (link_render r "" (link_props "/") cur) "router-link-active" = true /\
  has_class (link_render r "" (link_props "/") cur) "router-link-exact-active" = false /\
  has_class (link_render r "" (mkLinkProps "/" true false None None "page") cur) "router-link-active" = false /\
  has_class (link_render r "" (mkLinkProps "/" false false (Some "current") (Some "current") "page") cur)
    "current" = true /\
  link_aria_current (link_render r "" (mkLinkProps "/" false false (Some "current") (Some "current") "page") cur)
    = Some "page".
Proof. vm_compute. split_and!; reflexivity. Qed.

(** ** Witnesses *)

Lemma index_link_click_witness :
  route_Counter ∈ routes /\
  let s := index_run fresh_vue true "/" [] in
  let s' := link_click true (link_props (path route_Counter)) plain_click s in
  link_href (page_link fresh_vue true (path route_Counter) s) = "#" +:+ path route_Counter /\
  displayed s' = Some (component route_Counter) /\
  has_class (page_link fresh_vue true (path route_Counter) s') "router-link-exact-active" = true.
Proof.
  assert (route_Counter ∈ routes) as H1 by in_routes.
  split; [exact H1|].
  exact (index_link_click fresh_vue true "/" [] route_Counter H1).
Defined.

Lemma index_link_name_click_witness :
  route_Show ∈ routes /\ name route_Show = Some "Show" /\
  let s := index_run fresh_vue false "/Counter" [] in
  let s' := link_click false (link_props (LocNamed "Show")) plain_click s in
  link_href (page_link fresh_vue false (LocNamed "Show") s) = "#" +:+ path route_Show /\
  displayed s' = Some (component route_Show) /\
  has_class (page_link fresh_vue false (LocNamed "Show") s') "router-link-exact-active" = true.
Proof.
  assert (route_Show ∈ routes) as H1 by in_routes.
  assert (name route_Show = Some "Show") as H2 by reflexivity.
  split_and!; [exact H1|exact H2|].
  exact (index_link_name_click fresh_vue false "/Counter" [] route_Show "Show" H1 H2).
Defined.
