(* ===== verification/IndexAbstract.v ===== *)
(** * The exported router outside a browser: abstract mode

    Evaluated where [inBrowser] is false (server-side rendering, a test
    runner without a DOM), [new Router({ routes })] of lines 9-27 runs in
    abstract mode ([node_router]); [router.init] makes no navigation, so
    the app starts on [START] with an empty stack ([node_app]), and the
    calls [router.push], [router.replace] and [router.go] drive it
    ([node_run]).

    Theorems: nothing is displayed before the first navigation, and the
    first push of a declared path displays its view (C23); on every run
    the index stays within the stack, the entry at the index displays
    the view shown, and a displayed view is the table's view for the
    current path (C24); back after a push that went through displays
    the view shown before it (C25); a [router.replace] before the first
    push is lost to the back button (C26); a [<router-link>] rendered
    there points at the bare path, where the browser page renders ["#"]
    and the path (C28).  A link rendered outside a browser has the base
    [normalizeBase None]: with no [base] option vue-router takes ['/'],
    which normalises to [""] as the browser's default does. *)

From S2P Require Import Prelude Path RouteMap Matcher VueRouter History HashHistory HashSync AbstractHistory RouterLink RouterIndex IndexApp IndexLink.
Local Open Scope list_scope.
Local Open Scope Z_scope.

(** ** The program outside a browser *)

(** [export default new Router({ routes })] where [inBrowser] is false. *)
Definition node_router (g : VueGlobal) (sps : bool) : VueRouter Component :=
  snd (index_js g false sps).

(** The history after [router.init(app)]: no navigation in abstract
    mode. *)
Definition node_app (g : VueGlobal) (sps : bool) : AbstractHistory Component :=
  AbstractHistory_new (node_router g sps).

Definition node_run (g : VueGlobal) (sps : bool) (l : list AbstractAction) : AbstractHistory Component :=
  abstract_run (node_app g sps) l.

(** The view [<router-view>] renders. *)
Definition node_displayed (a : AbstractHistory Component) : option Component :=
  view (current_route (ah_history a)).

(** ** Lemmas *)

(** Outside a browser the router has the same matcher. *)
Lemma node_router_match g sps raw cur :
  router_match (node_router g sps) raw cur = router_match (exported_router g true) raw cur.
Proof. reflexivity. Qed.

Lemma node_matched_view g sps route c :
  matched_by (node_router g sps) route -> view route = Some c -> index_view (route_path route) = Some c.
Proof. intros (raw & cur & ->). rewrite node_router_match. apply exported_router_view_sound. Qed.

(** Duplicates among the routes the router matches display the same
    view. *)
Lemma node_duplicate_view g sps e c :
  matched_by (node_router g sps) e -> matched_by (node_router g sps) c ->
  duplicate_of e c = true -> view e = view c.
Proof.
  intros (raw & cur & ->) (raw' & cur' & ->). rewrite !node_router_match. intros Hd.
  unfold view. by rewrite (index_duplicate_matched g true raw cur raw' cur' Hd).
Qed.

(** ** Properties of the program outside a browser *)

(** C23: outside a browser the exported router runs in abstract mode
    and [router.init] makes no navigation: before the first navigation
    no view is displayed and [getCurrentLocation] is ["/"]; the first
    [router.push] of a declared path displays the route's view, with
    that route alone on the stack at index 0. *)
Theorem index_node_init (g : VueGlobal) (sps : bool) :
  let r := node_router g sps in
  router_mode r = ModeAbstract /\ initial_navigation (router_mode r) = false /\
  node_displayed (node_app g sps) = None /\ abstract_getCurrentLocation (node_app g sps) = "/" /\
  forall rc, rc ∈ routes ->
    let a := snd (abstract_push (node_app g sps) (path rc)) in
    node_displayed a = Some (component rc) /\ index a = 0 /\ stack a = [current_route (ah_history a)].
Proof.
  split_and!; [reflexivity..|]. intros rc Hin. unfold node_app. rewrite abstract_push_new.
  cbn [snd index stack ah_history]. split_and!; [|done|done].
  unfold node_displayed, current_route. cbn [current default id]. rewrite node_router_match.
  by destruct (index_path_leads g true rc Hin "/") as (Hv & _).
Qed.

(** C24: on every run of the exported router outside a browser, the
    index stays within [-1 .. stack.length - 1], the entry at a
    non-negative index displays the view shown, and a displayed view is
    the view the table assigns to the path of the current route. *)
Theorem index_node_inv (g : VueGlobal) (sps : bool) (l : list AbstractAction) :
  let a := node_run g sps l in
  -1 <= index a < Z.of_nat (length (stack a)) /\
  (0 <= index a -> exists e, stack a !! Z.to_nat (index a) = Some e /\ view e = node_displayed a) /\
  (forall c, node_displayed a = Some c -> index_view (route_path (current_route (ah_history a))) = Some c).
Proof.
  cbv zeta. unfold node_run, node_app.
  destruct (abstract_reachable_inv _ _ (abstract_run_reachable (node_router g sps) l)) as (Hb & Hidx & _ & Hcur & Hall).
  split_and!; [lia|lia| |].
  - intros Hi. destruct (Hidx Hi) as (c & e & Hc & He & Hd). exists e. split; [done|].
    unfold node_displayed, current_route. rewrite Hc. cbn [default].
    apply (node_duplicate_view g sps); [by eapply Forall_lookup_1|auto|done].
  - unfold node_displayed, current_route. intros c.
    destruct (current _) as [cur|] eqn:Hc; [|done]. cbn [default].
    by apply (node_matched_view g sps), Hcur.
Qed.

(** C25: outside a browser, after a [router.push] that went through from
    a state whose index is not [-1], [router.back()] displays the view
    shown before the push, at a path equal up to a final slash, with the
    index back where it was and the pushed route kept above it. *)
Theorem index_node_back_after_push (g : VueGlobal) (sps : bool) (l : list AbstractAction)
    (raw : RawLocation) (route : Route Component) (a' : AbstractHistory Component) :
  let a := node_run g sps l in
  0 <= index a -> abstract_push a raw = (inr route, a') ->
  let b := abstract_go (-1) a' in
  node_displayed b = node_displayed a /\
  strip_trailing_slash (route_path (current_route (ah_history b))) =
    strip_trailing_slash (route_path (current_route (ah_history a))) /\
  index b = index a /\ stack b = stack a'.
Proof.
  intros a Hi Hp. pose proof (abstract_reachable_inv _ _ (abstract_run_reachable (node_router g sps) l)) as Hinv.
  change (abstract_inv (node_router g sps) a) in Hinv.
  destruct (abstract_push_back _ _ _ _ _ Hinv Hi Hp) as (c & e & Hc & He & Hd & Hb' & Hib & Hsb).
  pose proof Hinv as (_ & _ & _ & Hcur & Hall).
  assert (Hme : matched_by (node_router g sps) e) by (eapply Forall_lookup_1; eauto).
  assert (Hmc : matched_by (node_router g sps) c) by auto.
  unfold node_displayed, current_route. rewrite Hb', Hc. cbn [default].
  split_and!; [by apply (node_duplicate_view g sps)| |done|done].
  apply (duplicate_of_fields e c); [by apply (matched_by_path (node_router g sps))..|done].
Qed.

(** C26: outside a browser, a [router.replace] to a declared path before
    the first push displays its route but leaves the index at [-1]; a
    following [router.push] to another declared route then empties the
    stack below it, and [router.back()] stays on the pushed route: the
    replaced entry is lost, where a browser's back button would return to
    it. *)
Theorem index_node_replace_first (g : VueGlobal) (sps : bool) (rc1 rc2 : RouteConfig Component) :
  rc1 ∈ routes -> rc2 ∈ routes -> rc1 <> rc2 ->
  let a1 := snd (abstract_replace (node_app g sps) (path rc1)) in
  let a2 := snd (abstract_push a1 (path rc2)) in
  node_displayed a1 = Some (component rc1) /\ index a1 = -1 /\
  length (stack a2) = 1%nat /\ node_displayed (abstract_go (-1) a2) = Some (component rc2).
Proof.
  intros H1 H2 Hne. cbv zeta. unfold node_app. rewrite abstract_replace_new. cbn [snd index].
  change (router_match (node_router g sps)) with (router_match (exported_router g true)).
  set (q1 := router_match (exported_router g true) (path rc1) "/").
  destruct (index_path_leads g true rc1 H1 "/") as (Hv1 & _ & _ & _ & Hm1). fold q1 in Hv1, Hm1.
  unfold abstract_push. rewrite (transitionTo_Some _ q1) by reflexivity. cbv zeta. cbn [history_router ah_history].
  change (router_match (node_router g sps)) with (router_match (exported_router g true)).
  set (q2 := router_match (exported_router g true) (path rc2) (route_path q1)).
  destruct (index_path_leads g true rc2 H2 (route_path q1)) as (Hv2 & _ & _ & _ & Hm2). fold q2 in Hv2, Hm2.
  destruct (duplicate_of q2 q1) eqn:Hd.
  { exfalso. apply Hne. pose proof (index_duplicate_matched g true _ _ _ _ Hd) as Hm.
    fold q1 q2 in Hm. rewrite Hm1, Hm2 in Hm.
    symmetry. apply index_record_path_inj; [done|done|]. congruence. }
  unfold node_displayed, current_route. cbn. split_and!; [done|done|done|done].
Qed.

(** C28: a [<router-link>] to a declared path rendered outside a browser
    (the server-side rendering of a view) has the declared path itself
    as its [href], on every state of the abstract-mode router, while on
    every browser page of the exported router the same link has ["#"]
    followed by the path: the markup the two environments render for one
    link differs. *)
Theorem index_node_link_href (g : VueGlobal) (sps : bool) (l : list AbstractAction)
    (p : string) (l' : list UserAction) (rc : RouteConfig Component) :
  rc ∈ routes ->
  let a := node_run g sps l in
  link_href (link_render (node_router g sps) (normalizeBase None) (link_props (path rc))
               (current_route (ah_history a))) = path rc /\
  link_href (page_link g sps (path rc) (index_run g sps p l')) = "#" +:+ path rc.
Proof.
  intros Hin. cbv zeta. split.
  - unfold link_render, router_resolve. cbn [link_href]. rewrite node_router_match.
    by rewrite (leads_to_fullPath g true _ rc) by (by apply index_path_leads).
  - rewrite page_link_href. f_equal. apply leads_to_fullPath, index_path_leads, Hin.
Qed.


(** ** Behaviours at the edges *)

(** After a push, back, the stack still holds the pushed route, and
    [getCurrentLocation] reports it rather than the route shown; a [go]
    past either end of the stack changes nothing. *)
Example index_node_current_location :
  let a := node_run fresh_vue false [APush "/Counter"; APush "/Show"; AGo (-1)] in
  node_displayed a = Some Counter /\ abstract_getCurrentLocation a = "/Show" /\
  abstract_go (-2) a = a /\ abstract_go 2 a = a.
Proof. vm_compute. split_and!; reflexivity. Qed.

(** ** Witnesses *)

Lemma index_node_back_after_push_witness :
  let a := node_run fresh_vue false [APush "/Counter"] in
  let route := router_match (node_router fresh_vue false) "/Show" "/Counter" in
  let a' := snd (abstract_push a "/Show") in
  (0 <= index a /\ abstract_push a "/Show" = (inr route, a')) /\
  let b := abstract_go (-1) a' in
  node_displayed b = node_displayed a /\
  strip_trailing_slash (route_path (current_route (ah_history b))) =
    strip_trailing_slash (route_path (current_route (ah_history a))) /\
  index b = index a /\ stack b = stack a'.
Proof.
  assert (H1 : 0 <= index (node_run fresh_vue false [APush "/Counter"])) by (vm_compute; discriminate).
  assert (H2 : abstract_push (node_run fresh_vue false [APush "/Counter"]) "/Show" =
               (inr (router_match (node_router fresh_vue false) "/Show" "/Counter"),
                snd (abstract_push (node_run fresh_vue false [APush "/Counter"]) "/Show")))
    by (vm_compute; reflexivity).
  split; [split; [exact H1|exact H2]|].
  exact (index_node_back_after_push fresh_vue false [APush "/Counter"] "/Show" _ _ H1 H2).
Defined.

Lemma index_node_link_href_witness :
  route_Show ∈ routes /\
  let a := node_run fresh_vue false [APush "/Counter"] in
  link_href (link_render (node_router fresh_vue false) (normalizeBase None) (link_props (path route_Show))
               (current_route (ah_history a))) = path route_Show /\
  link_href (page_link fresh_vue false (path route_Show) (index_run fresh_vue false "/" [])) =
    "#" +:+ path route_Show.
Proof.
  assert (H : route_Show ∈ routes) by in_routes.
  split; [exact H|]. exact (index_node_link_href fresh_vue false [APush "/Counter"] "/" [] route_Show H).
Defined.


Lemma index_node_replace_first_witness :
  route_Home ∈ routes /\ route_Counter ∈ routes /\ route_Home <> route_Counter /\
  let a1 := snd (abstract_replace (node_app fresh_vue true) (path route_Home)) in
  let a2 := snd (abstract_push a1 (path route_Counter)) in
  node_displayed a1 = Some (component route_Home) /\ index a1 = -1 /\
  length (stack a2) = 1%nat /\ node_displayed (abstract_go (-1) a2) = Some (component route_Counter).
Proof.
  assert (H1 : route_Home ∈ routes) by in_routes.
  assert (H2 : route_Counter ∈ routes) by in_routes.
  assert (H3 : route_Home <> route_Counter) by (unfold route_Home, route_Counter; congruence).
  split_and!; [exact H1|exact H2|exact H3|].
  exact (index_node_replace_first fresh_vue true route_Home route_Counter H1 H2 H3).
Defined.
