(* ===== verification/IndexCheck.v ===== *)
(** * The route table of [index.js] under the assertions of [addRouteRecord]

    [raw_routes] is lines 10-26 as [addRouteRecord]'s development-build
    assertions see them: three object literals, each with a [path], a
    [name] and a [component] property.  The scenarios of the
    specification's error section are the same table with one
    descriptor changed: its [component] [undefined] (the imported
    binding is [undefined]), its [component] a string id, or its [path]
    missing.

    Theorems: a descriptor whose component is undefined is registered
    without an error or a warning, and [<router-view>] renders nothing at
    its path while the other paths keep their views (C29); the table as
    written passes the assertions and builds the route map of the typed
    table, and a descriptor without a path or with a string component
    makes [new Router] throw, naming that descriptor's path (C30). *)

From S2P Require Import Prelude Path RouteMap RouteCheck Matcher VueRouter History RouterIndex.
Local Open Scope list_scope.

(** ** The program's descriptors *)

(** Lines 10-26: [{ path: "/", name: "Home", component: Home }] and the
    two others. *)
Definition raw_routes : list (RawRouteConfig Component) :=
  [mkRawRouteConfig (Some "/") (Some "Home") (RawComp Home) None None;
   mkRawRouteConfig (Some "/Counter") (Some "Counter") (RawComp Counter) None None;
   mkRawRouteConfig (Some "/Show") (Some "Show") (RawComp Show) None None].

(** A typed descriptor with its component present. *)
Definition defined_component {C} (rc : RouteConfig C) : RouteConfig (option C) :=
  mkRouteConfig (path rc) (name rc) (Some (component rc)) (caseSensitive rc) (pathToRegexpOptions rc).

(** ** Lemmas *)

Lemma routes_cases (P : nat -> RouteConfig Component -> Prop) :
  P 0 route_Home -> P 1 route_Counter -> P 2 route_Show ->
  forall i rc, routes !! i = Some rc -> P i rc.
Proof. intros H0 H1 H2 [|[|[|i]]] rc; cbn; intros [= <-] || discriminate; done. Qed.

(** ** Properties of the program's descriptors *)

(** C29: if any one of the three imported components were [undefined],
    [new Router] would still succeed and print no warning: navigating to
    that descriptor's path from any current path matches its record,
    whose component is undefined, so [<router-view>] renders nothing,
    while each other declared path still renders its view.  The fault is
    not reported by the framework. *)
Theorem index_component_undefined (i : nat) (rc : RouteConfig Component) (cur : string) :
  routes !! i = Some rc ->
  exists m, createRouteMap_checked (alter (with_component RawCompUndefined) i raw_routes) = inr m /\
    warnings m = [] /\
    view (matcher_match m (normalizeLocation (path rc) cur)) = Some None /\
    forall rc', rc' ∈ routes -> rc' <> rc ->
      view (matcher_match m (normalizeLocation (path rc') cur)) = Some (Some (component rc')).
Proof.
  revert i rc. apply routes_cases; eexists; (split; [reflexivity|]);
    intros; rewrite ?(normalizeLocation_absolute _ cur "/") by reflexivity;
    split_and!; try (vm_compute; reflexivity);
    intros rc' Hin Hne; unfold routes in Hin; rewrite !elem_of_cons, elem_of_nil in Hin;
    destruct Hin as [->|[->|[->|[]]]]; try congruence;
    rewrite (normalizeLocation_absolute _ cur "/") by reflexivity; vm_compute; reflexivity.
Qed.

(** C30: the descriptors of lines 10-26 pass the development build's
    assertions, and the checked construction builds the route map of
    the typed table with every component present; with the [path] of
    any one of them missing, [new Router] throws ["path" is required],
    and with its [component] a string id it throws the string-id error
    naming that descriptor's path, before any warning. *)
Theorem index_route_assertions (i : nat) (rc : RouteConfig Component) (id : string) :
  routes !! i = Some rc ->
  createRouteMap_checked raw_routes = inr (createRouteMap (map defined_component routes)) /\
  createRouteMap_checked (alter without_path i raw_routes) = inl ([], PathRequired) /\
  createRouteMap_checked (alter (with_component (RawCompString id)) i raw_routes) =
    inl ([], ComponentStringId (path rc)).
Proof. revert i rc. apply routes_cases; split_and!; reflexivity. Qed.

(** ** Witnesses *)

Lemma index_component_undefined_witness :
  routes !! 2 = Some route_Show /\
  exists m, createRouteMap_checked (alter (with_component RawCompUndefined) 2 raw_routes) = inr m /\
    warnings m = [] /\
    view (matcher_match m (normalizeLocation (path route_Show) "/Counter")) = Some None /\
    forall rc', rc' ∈ routes -> rc' <> route_Show ->
      view (matcher_match m (normalizeLocation (path rc') "/Counter")) = Some (Some (component rc')).
Proof.
  assert (H : routes !! 2 = Some route_Show) by reflexivity.
  split; [exact H|]. exact (index_component_undefined 2 route_Show "/Counter" H).
Defined.

Lemma index_route_assertions_witness :
  routes !! 1 = Some route_Counter /\
  createRouteMap_checked raw_routes = inr (createRouteMap (map defined_component routes)) /\
  createRouteMap_checked (alter without_path 1 raw_routes) = inl ([], PathRequired) /\
  createRouteMap_checked (alter (with_component (RawCompString "Counter")) 1 raw_routes) =
    inl ([], ComponentStringId (path route_Counter)).
Proof.
  assert (H : routes !! 1 = Some route_Counter) by reflexivity.
  split; [exact H|]. exact (index_route_assertions 1 route_Counter "Counter" H).
Defined.
