(* ===== verification/IndexLife.v ===== *)
(** * The exported router's root apps on a browser page

    [app_start] is the page at fragment [p] once [index.js] has been
    evaluated: the global [Vue] after [Vue.use(Router)], the exported
    router with no app yet ([this.apps = []], [this.app = null]) and its
    [HashHistory], constructed inside [new Router(...)], on the page.
    [life_run] runs from there any sequence of root instances created
    with the [router] option ([Mount]) and destroyed ([Destroy]),
    interleaved with the user's actions; the lifecycle is [RouterApp.v].

    Theorems about the program: along every such run the main app is
    [router.apps[0]], the apps are distinct, and the hash listener is
    registered exactly when there is a main app (C31); the first app
    mounted, including one mounted again after all were destroyed,
    becomes the main app and displays the view the table gives for the
    fragment in the address bar (C32); a root instance created while a
    main app exists is only recorded (C33); destroying the main app
    hands the page over to the next app without navigating (C34);
    destroying the last app removes the listener and resets the route to
    [START], so no view is displayed whatever the user does in the
    address bar or with the back and forward buttons (C35); in every
    state a displayed view is the table's view for the current route's
    path (C36). *)

From stdpp Require Import sets.
From S2P Require Import Prelude Path RouteMap Matcher VueRouter History HashHistory RouterApp RouterIndex.
Local Open Scope list_scope.

(** [index.js] evaluated on a page loaded at fragment [p]: the module
    body of lines 7-27, whose [new Router] constructs the router's
    [HashHistory] on the page. *)
Definition app_start (g : VueGlobal) (sps : bool) (p : string) : AppState Component :=
  let '(g', router) := index_js g true sps in
  mkAppState g' router None 0 (HashHistory_new sps router (fresh_page p)).

Definition life_run (g : VueGlobal) (sps : bool) (p : string) (l : list AppAction) :
    AppState Component :=
  app_run sps (app_start g sps p) l.

(** ** Lemmas *)

Lemma app_start_inv g sps p : app_inv (app_start g sps p).
Proof.
  split_and!; [done|constructor|constructor|]. cbn [app_start index_js as_page HashHistory_new hs_browser].
  by rewrite ensureSlash_listening.
Qed.

Lemma life_run_inv g sps p l : app_inv (life_run g sps p l).
Proof. apply app_run_inv, app_start_inv. Qed.

Lemma life_run_reachable g sps p l :
  reachable (exported_router g sps) (hs_history (as_page (life_run g sps p l))).
Proof. apply app_run_reachable. constructor. Qed.

Lemma life_run_installed g sps p l :
  vue_wf g -> routerInstalled (as_global (life_run g sps p l)) = true.
Proof. intros Hwf. unfold life_run. rewrite app_run_global. by apply Vue_use_router_installed. Qed.

(** A navigation of the exported router from a reachable history
    displays the view of the route the location matches, whether it
    goes through or is rejected as a duplicate. *)
Lemma index_transitionTo_view g sps (s : HashState Component) raw oc oa :
  reachable (exported_router g sps) (hs_history s) ->
  view (current_route (hs_history (snd (hash_transitionTo sps s raw oc oa)))) =
  view (router_match (exported_router g sps) raw (route_path (current_route (hs_history s)))).
Proof.
  intros Hr. pose proof (reachable_router _ _ Hr) as Hrt. unfold hash_transitionTo.
  destruct (transitionTo _ _) as [e|h'] eqn:Ht; cbn [snd hs_history].
  - destruct (transitionTo_inl _ _ _ Ht) as (c & Hc & Hd). rewrite Hrt in Hd.
    destruct (reachable_current _ _ Hr) as [Hn|(raw0 & cur0 & Hs0)]; [congruence|].
    rewrite Hc in Hs0. injection Hs0 as ->.
    pose proof (index_duplicate_matched g sps _ _ _ _ Hd) as Hmd.
    unfold current_route, view. rewrite Hc. cbn [default id]. by rewrite <- Hmd.
  - unfold current_route. by rewrite (transitionTo_current _ _ _ Ht), Hrt.
Qed.

Lemma index_init_view g sps (s : HashState Component) :
  reachable (exported_router g sps) (hs_history s) ->
  view (current_route (hs_history (hash_init sps s))) =
  view (router_match (exported_router g sps) (getHash (hs_browser s)) (route_path (current_route (hs_history s)))).
Proof. apply index_transitionTo_view. Qed.

(** The apps in a run from the module's evaluation, from the invariant:
    no main app means no app, and the main app comes first. *)
Lemma life_run_apps_nil g sps p l :
  as_app (life_run g sps p l) = None -> router_apps (as_router (life_run g sps p l)) = [].
Proof.
  destruct (life_run_inv g sps p l) as [Hm _]. rewrite Hm. by destruct (router_apps _).
Qed.

Lemma life_run_main g sps p l a rest :
  router_apps (as_router (life_run g sps p l)) = a :: rest -> as_app (life_run g sps p l) = Some a.
Proof. destruct (life_run_inv g sps p l) as [Hm _]. intros Ha. by rewrite Hm, Ha. Qed.

(** The page once the last app is destroyed: no main app, no app, the
    listener removed and the route reset to [START]. *)
Lemma life_destroy_last g sps p l a :
  router_apps (as_router (life_run g sps p l)) = [a] ->
  let st := app_destroy a (life_run g sps p l) in
  as_app st = None /\ router_apps (as_router st) = [] /\
  current (hs_history (as_page st)) = None /\ listening (hs_browser (as_page st)) = false.
Proof.
  intros Ha. pose proof (life_run_main _ _ _ _ _ _ Ha) as Hm. cbv zeta. unfold app_destroy.
  rewrite Ha, bool_decide_true by set_solver. rewrite Hm, bool_decide_true by done.
  cbn [remove_first]. rewrite Nat.eqb_refl. done.
Qed.

(** ** Theorems *)

(** C31: along every run from the evaluation of [index.js] on a page,
    in which root instances with the [router] option are created and
    destroyed in any order between the user's actions, the main app
    [router.app] is the first of [router.apps], the apps are distinct
    instances already created, and the hash listener is registered
    exactly when there is a main app. *)
Theorem index_life_inv (g : VueGlobal) (sps : bool) (p : string) (l : list AppAction) :
  let st := life_run g sps p l in
  let apps := router_apps (as_router st) in
  as_app st = head apps /\ NoDup apps /\ Forall (fun a => a < as_next st) apps /\
  listening (hs_browser (as_page st)) = bool_decide (is_Some (as_app st)).
Proof. apply life_run_inv. Qed.

(** C32: when a root instance is created with no main app, on a page
    where [Vue] is consistent, [router.init] makes it the main app and
    the only app, registers the hash listener, and the page displays the
    view the table gives for the fragment in the address bar, matched
    against the router's current route (a duplicate of the current route
    displays the same view).  This holds for the first app and for an
    app created after every earlier one was destroyed. *)
Theorem index_mount_navigates (g : VueGlobal) (sps : bool) (p : string) (l : list AppAction) :
  vue_wf g ->
  let st := life_run g sps p l in
  as_app st = None ->
  let st' := app_mount sps st in
  let s := as_page st in
  as_app st' = Some (as_next st) /\ router_apps (as_router st') = [as_next st] /\
  listening (hs_browser (as_page st')) = true /\
  app_displayed st' = view (router_match (exported_router g sps) (getHash (hs_browser s))
                              (route_path (current_route (hs_history s)))).
Proof.
  intros Hwf. cbv zeta. intros Hn.
  pose proof (life_run_apps_nil _ _ _ _ Hn) as Ha0.
  pose proof (life_run_installed g sps p l Hwf) as Hi. pose proof (life_run_reachable g sps p l) as Hr.
  unfold app_mount, router_init. rewrite Hi, Hn. cbn [as_app as_router router_apps].
  rewrite Ha0. split_and!; [done|done|apply hash_init_listening|]. by apply index_init_view.
Qed.

(** C33: a root instance created while a main app exists is only pushed
    on [router.apps] ([if (this.app) return]): the main app and the page
    are unchanged, and no navigation runs. *)
Theorem index_mount_second (g : VueGlobal) (sps : bool) (p : string) (l : list AppAction) (a : nat) :
  vue_wf g ->
  let st := life_run g sps p l in
  as_app st = Some a ->
  let st' := app_mount sps st in
  as_app st' = Some a /\ router_apps (as_router st') = router_apps (as_router st) ++ [as_next st] /\
  as_page st' = as_page st.
Proof.
  intros Hwf. cbv zeta. intros Ha. pose proof (life_run_installed g sps p l Hwf) as Hi.
  unfold app_mount, router_init. by rewrite Hi, Ha.
Qed.

(** C34: destroying the main app while other apps remain makes the next
    app, [this.apps[0]], the main app, and leaves the page as it is:
    the listener stays registered and no navigation runs. *)
Theorem index_destroy_main_handover (g : VueGlobal) (sps : bool) (p : string) (l : list AppAction)
    (a b : nat) (rest : list nat) :
  let st := life_run g sps p l in
  router_apps (as_router st) = a :: b :: rest ->
  let st' := app_destroy a st in
  as_app st = Some a /\ as_app st' = Some b /\ router_apps (as_router st') = b :: rest /\
  as_page st' = as_page st.
Proof.
  cbv zeta. intros Ha. pose proof (life_run_main _ _ _ _ _ _ Ha) as Hm. split; [done|].
  unfold app_destroy. rewrite Ha, bool_decide_true by set_solver. rewrite Hm, bool_decide_true by done.
  cbn [remove_first]. by rewrite Nat.eqb_refl.
Qed.

(** C35: destroying the last app tears the history down: there is no
    main app and no app, the hash listener is removed and the route is
    [START], so no view is displayed; afterwards the back and forward
    buttons, edits of the fragment and the browser's queued events change
    none of this, since nothing listens to them. *)
Theorem index_destroy_last (g : VueGlobal) (sps : bool) (p : string) (l : list AppAction) (a : nat)
    (l' : list AppAction) :
  router_apps (as_router (life_run g sps p l)) = [a] ->
  Forall (fun act => browser_action act = true) l' ->
  let st' := app_run sps (app_destroy a (life_run g sps p l)) l' in
  as_app st' = None /\ router_apps (as_router st') = [] /\
  listening (hs_browser (as_page st')) = false /\ app_displayed st' = None.
Proof.
  intros Ha Hl'. destruct (life_destroy_last g sps p l a Ha) as (H1 & H2 & H3 & H4). cbv zeta.
  destruct (app_run_detached sps _ l' Hl' H4) as (H1' & H2' & H3' & H4').
  rewrite H1', H2', H4'. split_and!; [done..|]. unfold app_displayed, current_route. by rewrite H3', H3.
Qed.

(** C36: in every state of a run from the evaluation of [index.js],
    across the creation and destruction of root instances, a view the
    apps display is the one the route table assigns to the path of the
    router's current route. *)
Theorem index_life_view_sound (g : VueGlobal) (sps : bool) (p : string) (l : list AppAction)
    (c : Component) :
  let st := life_run g sps p l in
  app_displayed st = Some c -> index_view (route_path (current_route (hs_history (as_page st)))) = Some c.
Proof.
  cbv zeta. unfold app_displayed, current_route. intros Hv.
  destruct (reachable_current _ _ (life_run_reachable g sps p l)) as [Hn|(raw & cur & Hs)].
  - by rewrite Hn in Hv.
  - rewrite Hs in Hv |- *. by apply exported_router_view_sound.
Qed.

(** ** Runs on a concrete page *)

(** A root instance destroyed, the fragment edited, and a new root
    instance created: the new main app navigates to the fragment. *)
Example index_remount_counter :
  app_displayed (life_run fresh_vue true "/" [Mount; Destroy 0; User (EditUrl "/Counter"); Mount]) = Some Counter.
Proof. vm_compute. reflexivity. Qed.

Lemma index_mount_navigates_witness :
  let l := [Mount; Destroy 0; User (EditUrl "/Counter")] in
  (vue_wf fresh_vue /\ as_app (life_run fresh_vue true "/" l) = None) /\
  let st := life_run fresh_vue true "/" l in
  let st' := app_mount true st in
  let s := as_page st in
  as_app st' = Some (as_next st) /\ router_apps (as_router st') = [as_next st] /\
  listening (hs_browser (as_page st')) = true /\
  app_displayed st' = view (router_match (exported_router fresh_vue true) (getHash (hs_browser s))
                              (route_path (current_route (hs_history s)))).
Proof.
  cbv zeta. assert (H : as_app (life_run fresh_vue true "/" [Mount; Destroy 0; User (EditUrl "/Counter")]) = None)
    by (vm_compute; reflexivity).
  split; [split; [exact fresh_vue_wf|exact H]|].
  exact (index_mount_navigates fresh_vue true "/" _ fresh_vue_wf H).
Defined.

Lemma index_mount_second_witness :
  (vue_wf fresh_vue /\ as_app (life_run fresh_vue false "/Show" [Mount]) = Some 0) /\
  let st := life_run fresh_vue false "/Show" [Mount] in
  let st' := app_mount false st in
  as_app st' = Some 0 /\ router_apps (as_router st') = router_apps (as_router st) ++ [as_next st] /\
  as_page st' = as_page st.
Proof.
  assert (H : as_app (life_run fresh_vue false "/Show" [Mount]) = Some 0) by (vm_compute; reflexivity).
  split; [split; [exact fresh_vue_wf|exact H]|].
  exact (index_mount_second fresh_vue false "/Show" [Mount] 0 fresh_vue_wf H).
Defined.

Lemma index_destroy_main_handover_witness :
  let st := life_run fresh_vue true "/Counter" [Mount; Mount; Mount] in
  router_apps (as_router st) = [0; 1; 2] /\
  let st' := app_destroy 0 st in
  as_app st = Some 0 /\ as_app st' = Some 1 /\ router_apps (as_router st') = [1; 2] /\
  as_page st' = as_page st.
Proof.
  cbv zeta. assert (H : router_apps (as_router (life_run fresh_vue true "/Counter" [Mount; Mount; Mount])) = [0; 1; 2])
    by (vm_compute; reflexivity).
  split; [exact H|]. exact (index_destroy_main_handover fresh_vue true "/Counter" _ 0 1 [2] H).
Defined.

Lemma index_destroy_last_witness :
  let l' := [User (EditUrl "/Show"); User Dispatch; User (Go (-1))] in
  (router_apps (as_router (life_run fresh_vue true "/" [Mount])) = [0] /\
   Forall (fun act => browser_action act = true) l') /\
  let st' := app_run true (app_destroy 0 (life_run fresh_vue true "/" [Mount])) l' in
  as_app st' = None /\ router_apps (as_router st') = [] /\
  listening (hs_browser (as_page st')) = false /\ app_displayed st' = None.
Proof.
  cbv zeta. assert (H1 : router_apps (as_router (life_run fresh_vue true "/" [Mount])) = [0])
    by (vm_compute; reflexivity).
  assert (H2 : Forall (fun act => browser_action act = true) [User (EditUrl "/Show"); User Dispatch; User (Go (-1))])
    by (repeat constructor).
  split; [split; [exact H1|exact H2]|]. exact (index_destroy_last fresh_vue true "/" [Mount] 0 _ H1 H2).
Defined.

Lemma index_life_view_sound_witness :
  let st := life_run fresh_vue true "/Show" [Mount; Mount; Destroy 0] in
  app_displayed st = Some Show /\
  index_view (route_path (current_route (hs_history (as_page st)))) = Some Show.
Proof.
  cbv zeta. assert (H : app_displayed (life_run fresh_vue true "/Show" [Mount; Mount; Destroy 0]) = Some Show)
    by (vm_compute; reflexivity).
  split; [exact H|]. exact (index_life_view_sound fresh_vue true "/Show" _ Show H).
Defined.
